(** * Qt Creator MCP plugin build pipeline (build_main.py)

  A shallow embedding of the orchestration code of [build_main.py]:
  command execution, process termination, the socket RPC client, the
  artifact check and the version stage of [main], together with the
  properties of the specification that concern them.

  Conventions of the embedding.
  - A Python [str] is a [string] whose characters are read as code points
    below 256.
  - Wall-clock time is an integer number of milliseconds; it advances by
    [time.sleep] and by blocking reads only.
  - Everything the code obtains from the outside (child processes, the
    process table, sockets, files) comes from a scripted [World].
  - [json.loads] is a library function and is a parameter of the
    development; the code under study works on the parsed value. *)

From Stdlib Require Import ZArith List String Ascii Bool Lia QArith Lqa DecimalString.
From Stdlib Require Import Floats.
Import ListNotations.

Local Open Scope string_scope.
Local Open Scope Z_scope.

(* ================================================================== *)
(** * Python strings *)

Module PyStr.

Definition code (c : ascii) : N := N_of_ascii c.

Definition in_range (lo hi : N) (c : ascii) : bool :=
  (lo <=? code c)%N && (code c <=? hi)%N.

(** [str.isspace] on one code point below 256. *)
Definition is_space (c : ascii) : bool :=
  in_range 9 13 c || in_range 28 32 c
  || (code c =? 133)%N || (code c =? 160)%N.

(** Decimal digits: the only code points below 256 in category Nd. *)
Definition is_digit (c : ascii) : bool := in_range 48 57 c.

Definition digit_val (c : ascii) : Z := Z.of_N (code c) - 48.

(** [needle in hay] for two strings. *)
Fixpoint contains (needle hay : string) : bool :=
  String.prefix needle hay
  || match hay with
     | EmptyString => false
     | String _ rest => contains needle rest
     end.

(** [str.lower] on one code point below 256. *)
Definition lower_char (c : ascii) : ascii :=
  if in_range 65 90 c
     || (in_range 192 222 c && negb (code c =? 215)%N)
  then ascii_of_N (code c + 32)
  else c.

Fixpoint lower (s : string) : string :=
  match s with
  | EmptyString => EmptyString
  | String c rest => String (lower_char c) (lower rest)
  end.

Fixpoint all_space (s : string) : bool :=
  match s with
  | EmptyString => true
  | String c rest => is_space c && all_space rest
  end.

(** [str.rstrip()] *)
Fixpoint rstrip (s : string) : string :=
  match s with
  | EmptyString => EmptyString
  | String c rest => if all_space s then EmptyString else String c (rstrip rest)
  end.

(** [str.lstrip()] *)
Fixpoint lstrip (s : string) : string :=
  match s with
  | EmptyString => EmptyString
  | String c rest => if is_space c then lstrip rest else s
  end.

(** [str.strip()] *)
Definition strip (s : string) : string := rstrip (lstrip s).

(** [s.split(sep)] for a one-character separator. *)
Fixpoint split_acc (sep : ascii) (cur : string) (s : string) : list string :=
  match s with
  | EmptyString => [cur]
  | String c rest =>
      if Ascii.eqb c sep
      then cur :: split_acc sep EmptyString rest
      else split_acc sep (cur ++ String c EmptyString) rest
  end.

Definition split (sep : ascii) (s : string) : list string :=
  split_acc sep EmptyString s.

(** Line boundaries of [str.splitlines] below 256. *)
Definition is_linebreak (c : ascii) : bool :=
  in_range 10 13 c || in_range 28 30 c || (code c =? 133)%N.

(** [str.splitlines()]: a carriage return followed by a line feed is one
    boundary; no empty last element after a final boundary. *)
Fixpoint splitlines_acc (cur : string) (s : string) : list string :=
  match s with
  | EmptyString =>
      match cur with EmptyString => [] | _ => [cur] end
  | String c rest =>
      if is_linebreak c then
        match rest with
        | String c' rest' =>
            if (code c =? 13)%N && (code c' =? 10)%N
            then cur :: splitlines_acc EmptyString rest'
            else cur :: splitlines_acc EmptyString rest
        | EmptyString => [cur]
        end
      else splitlines_acc (cur ++ String c EmptyString) rest
  end.

Definition splitlines (s : string) : list string :=
  splitlines_acc EmptyString s.

(** Digits of an [int] literal, with the optional single underscores
    between digits.  [prev_digit] tells whether the previous character
    was a digit. *)
Fixpoint int_digits (acc : Z) (prev_digit : bool) (s : string) : option Z :=
  match s with
  | EmptyString => if prev_digit then Some acc else None
  | String c rest =>
      if is_digit c then int_digits (10 * acc + digit_val c) true rest
      else if (code c =? 95)%N && prev_digit then
        match rest with
        | String c' _ => if is_digit c' then int_digits acc false rest else None
        | EmptyString => None
        end
      else None
  end.

(** The white space [int] skips around a literal: that of the C locale
    and, above 127, the next-line and no-break-space code points.  The
    separators U+001C to U+001F, which [str.strip] removes, are not
    skipped by [int]. *)
Definition is_int_space (c : ascii) : bool :=
  in_range 9 13 c || (code c =? 32)%N
  || (code c =? 133)%N || (code c =? 160)%N.

Fixpoint all_int_space (s : string) : bool :=
  match s with
  | EmptyString => true
  | String c rest => is_int_space c && all_int_space rest
  end.

Fixpoint int_rstrip (s : string) : string :=
  match s with
  | EmptyString => EmptyString
  | String c rest =>
      if all_int_space s then EmptyString else String c (int_rstrip rest)
  end.

Fixpoint int_lstrip (s : string) : string :=
  match s with
  | EmptyString => EmptyString
  | String c rest => if is_int_space c then int_lstrip rest else s
  end.

(** [sys.get_int_max_str_digits()], which the scripts leave at its
    default: the longest run of digits [int] reads and [str] writes. *)
Definition int_max_str_digits : N := 4300.

(** The digits of a literal, its underscores left out. *)
Fixpoint count_digits (s : string) : N :=
  match s with
  | EmptyString => 0
  | String c rest =>
      if is_digit c then N.succ (count_digits rest) else count_digits rest
  end.

(** A literal without its sign: [None] when it is malformed or longer
    than the limit. *)
Definition int_literal (body : string) : option Z :=
  if (count_digits body <=? int_max_str_digits)%N
  then int_digits 0 false body
  else None.

(** [int(s)] in base ten: surrounding white space, an optional sign,
    digits.  [None] stands for [ValueError]. *)
Definition int (s : string) : option Z :=
  match int_rstrip (int_lstrip s) with
  | EmptyString => None
  | String c rest =>
      if (code c =? 45)%N then option_map Z.opp (int_literal rest)
      else if (code c =? 43)%N then int_literal rest
      else int_literal (String c rest)
  end.

(** [str(b)] for a [bool]. *)
Definition str_of_bool (b : bool) : string :=
  if b then "True" else "False".

Definition hex_digit (n : N) : ascii :=
  if (n <? 10)%N then ascii_of_N (48 + n) else ascii_of_N (87 + n).

(** [str.isprintable] on one code point below 256. *)
Definition is_printable (c : ascii) : bool :=
  in_range 32 126 c || (in_range 161 255 c && negb (code c =? 173)%N).

Definition squote : ascii := "039"%char.
Definition dquote : ascii := "034"%char.
Definition backslash : ascii := "092"%char.

Fixpoint has_char (q : ascii) (s : string) : bool :=
  match s with
  | EmptyString => false
  | String c rest => Ascii.eqb c q || has_char q rest
  end.

Definition repr_char (q : ascii) (c : ascii) : string :=
  if Ascii.eqb c backslash then String backslash (String backslash EmptyString)
  else if Ascii.eqb c q then String backslash (String q EmptyString)
  else if (code c =? 9)%N then String backslash "t"
  else if (code c =? 10)%N then String backslash "n"
  else if (code c =? 13)%N then String backslash "r"
  else if is_printable c then String c EmptyString
  else String backslash
         (String "x" (String (hex_digit (code c / 16))
                        (String (hex_digit (code c mod 16)) EmptyString))).

Fixpoint repr_body (q : ascii) (s : string) : string :=
  match s with
  | EmptyString => EmptyString
  | String c rest => repr_char q c ++ repr_body q rest
  end.

(** [repr(s)] for a string: single quotes unless the string has a single
    quote and no double quote. *)
Definition repr (s : string) : string :=
  let q := if has_char squote s && negb (has_char dquote s)
           then dquote else squote in
  String q (repr_body q s ++ String q EmptyString).

Fixpoint join (sep : string) (l : list string) : string :=
  match l with
  | [] => EmptyString
  | [x] => x
  | x :: rest => x ++ sep ++ join sep rest
  end.

(** [str(l)] for a list of strings. *)
Definition str_of_list (l : list string) : string :=
  "[" ++ join ", " (map repr l) ++ "]".

End PyStr.


(* ================================================================== *)
(** * Parsed JSON values and the Python operations applied to them *)

#[local] Set Warnings "-register-all".

Inductive json : Type :=
| JNull
| JBool (b : bool)
| JNum (q : Q)
| JStr (s : string)
| JArr (items : list json)
| JObj (fields : list (string * json)).

Module Py.

(** Lookup in a [dict] given by its items (keys are distinct in a parsed
    object). *)
Fixpoint lookup (key : string) (fields : list (string * json)) : option json :=
  match fields with
  | [] => None
  | (k, v) :: rest => if String.eqb k key then Some v else lookup key rest
  end.

(** Truth value of a parsed value. *)
Definition truthy (v : json) : bool :=
  match v with
  | JNull => false
  | JBool b => b
  | JNum q => negb (Qeq_bool q 0)
  | JStr EmptyString => false
  | JStr _ => true
  | JArr [] => false
  | JArr _ => true
  | JObj [] => false
  | JObj _ => true
  end.

(** [v == s] for a string [s]. *)
Definition eq_str (v : json) (s : string) : bool :=
  match v with
  | JStr t => String.eqb t s
  | _ => false
  end.

(** [s in v]: substring of a string, element of a list, key of a dict;
    [None] is the [TypeError] of the other types. *)
Definition contains (s : string) (v : json) : option bool :=
  match v with
  | JStr t => Some (PyStr.contains s t)
  | JArr items => Some (existsb (fun x => eq_str x s) items)
  | JObj fields =>
      Some (match lookup s fields with Some _ => true | None => false end)
  | _ => None
  end.

(** [v[key]] for a string key: only a dict has it. *)
Definition getitem (v : json) (key : string) : option json :=
  match v with
  | JObj fields => lookup key fields
  | _ => None
  end.

(** [v.get(key, default)]: [None] is the [AttributeError] of a value that
    is not a dict. *)
Definition get (v : json) (key : string) (default : json) : option json :=
  match v with
  | JObj fields =>
      Some (match lookup key fields with Some x => x | None => default end)
  | _ => None
  end.

End Py.

(* ================================================================== *)
(** * The regular expressions of the version stage and of the poller

  Each pattern of the source is a literal followed by a run of digits or
  by a quoted run, so [re.search] and [re.sub] are written out for these
  shapes: leftmost match, greedy run. *)

Module Re.

(** [s] without the prefix [p], if it has it. *)
Fixpoint strip_prefix (p s : string) : option string :=
  match p with
  | EmptyString => Some s
  | String a p' =>
      match s with
      | String b s' => if Ascii.eqb a b then strip_prefix p' s' else None
      | EmptyString => None
      end
  end.

(** The longest run of digits at the start of [s], and the rest. *)
Fixpoint take_digits (s : string) : string * string :=
  match s with
  | String c rest =>
      if PyStr.is_digit c
      then let (d, r) := take_digits rest in (String c d, r)
      else (EmptyString, s)
  | EmptyString => (EmptyString, EmptyString)
  end.

(** A match of [lit(\d+)suffix] at the start of [s]: the digits and what
    follows the match.  The run of digits is maximal, and so is followed
    by no digit: if [suffix] fails after it, it fails after any shorter
    run, unless [suffix] itself starts with a digit, which no pattern of
    the source does. *)
Definition match_digits_at (lit suffix s : string) : option (string * string) :=
  match strip_prefix lit s with
  | Some after_lit =>
      match take_digits after_lit with
      | (EmptyString, _) => None
      | (d, rest) =>
          match strip_prefix suffix rest with
          | Some tail => Some (d, tail)
          | None => None
          end
      end
  | None => None
  end.

(** [re.search(lit(\d+)suffix, s)]: group 1 of the leftmost match. *)
Fixpoint search_digits (lit suffix s : string) : option string :=
  match match_digits_at lit suffix s with
  | Some (d, _) => Some d
  | None =>
      match s with
      | EmptyString => None
      | String _ rest => search_digits lit suffix rest
      end
  end.

(** [re.sub(lit\d+, repl, s)]: every match, left to right, without
    overlap.  [skip] counts the characters of the current match still to
    be passed over. *)
Fixpoint sub_digits_from (lit repl : string) (skip : nat) (s : string) : string :=
  match s with
  | EmptyString => EmptyString
  | String c rest =>
      match skip with
      | S k => sub_digits_from lit repl k rest
      | O =>
          match match_digits_at lit EmptyString s with
          | Some (d, _) =>
              repl ++ sub_digits_from lit repl
                        (String.length lit + String.length d - 1) rest
          | None => String c (sub_digits_from lit repl O rest)
          end
      end
  end.

Definition sub_digits (lit repl s : string) : string :=
  sub_digits_from lit repl O s.

(** The longest run without a double quote at the start of [s]. *)
Fixpoint take_unquoted (s : string) : string * string :=
  match s with
  | String c rest =>
      if Ascii.eqb c PyStr.dquote then (EmptyString, s)
      else let (d, r) := take_unquoted rest in (String c d, r)
  | EmptyString => (EmptyString, EmptyString)
  end.

(** A match, at the start of [s], of [lit], an opening double quote, a
    non-empty run without double quote, and the closing double quote
    (the patterns that read the plugin name and the JSON file name). *)
Definition match_quoted_at (lit s : string) : option string :=
  match strip_prefix (lit ++ String PyStr.dquote EmptyString) s with
  | Some after_lit =>
      match take_unquoted after_lit with
      | (EmptyString, _) => None
      | (d, String _ _) => Some d
      | (_, EmptyString) => None
      end
  | None => None
  end.

(** [re.search] of that pattern: group 1 of the leftmost match. *)
Fixpoint search_quoted (lit s : string) : option string :=
  match match_quoted_at lit s with
  | Some d => Some d
  | None =>
      match s with
      | EmptyString => None
      | String _ rest => search_quoted lit rest
      end
  end.

End Re.

(** [f'{n}'] for an integer; [None] is the [ValueError] of a number of
    more digits than [sys.get_int_max_str_digits()]. *)
Definition format_int (n : Z) : option string :=
  let text := NilZero.string_of_int (Z.to_int n) in
  if (PyStr.count_digits text <=? PyStr.int_max_str_digits)%N
  then Some text
  else None.

(* ================================================================== *)
(** * The outside world and the effect monad *)

(** Python exceptions that occur in the modelled code. *)
Inductive exn : Type :=
| AttributeError
| TypeError
| ValueError
| OSError
| OverflowError
| SocketTimeout
| SystemExit (status : Z).

(** [except Exception] does not catch [SystemExit]. *)
Definition is_exception (e : exn) : bool :=
  match e with
  | SystemExit _ => false
  | _ => true
  end.

(** How a call ends: it returns, raises, blocks for ever on a read, or the
    embedding's loop bound is exhausted. *)
Inductive outcome (A : Type) : Type :=
| Ret (a : A)
| Raise (e : exn)
| Hang
| OutOfFuel.

Arguments Ret {A} a.
Arguments Raise {A} e.
Arguments Hang {A}.
Arguments OutOfFuel {A}.

(** A command as [run_command] receives it: a shell string or an argument
    vector. *)
Inductive command : Type :=
| Shell (s : string)
| Argv (args : list string).

(** The call sites of [run_command] inside [kill_qt_creator]. *)
Inductive kill_site : Type :=
| ConfiguredKill
| TaskkillTree
| TaskkillPattern
| TaskkillTitle
| UnixPkill
| UnixKillall.

(** Observable steps of a run, oldest first. *)
Inductive event : Type :=
| EvLiveness (name : string) (running : bool)
| EvKillResult (site : kill_site) (result : bool)
| EvSocketOpen
| EvSocketClose
| EvReply (data : string)
| EvSleep (ms : Z)
| EvStage (name : string).

(** A child process as [subprocess.Popen] starts it, with its standard
    output and error on one pipe.  [chunks] is the text that arrives in
    the pipe, each piece with the delay (ms) since the previous one,
    whoever writes it; [finish] is the delay from the start to the child's
    exit and its exit code, if the child exits of its own accord; [closes]
    is the delay from the last piece to the moment the last holder of the
    pipe's write end (the child, or a process that inherited it) has
    closed it, if that moment comes; [sigterm] is the time the child takes
    to end once [terminate] is called, if the call ends it at all. *)
Record child : Type := mkChild {
  chunks : list (N * string);
  finish : option (N * Z);
  closes : option N;
  sigterm : option N
}.

(** What [subprocess.run] gives back to [is_process_running]. *)
Record completed_process : Type := mkCompleted {
  returncode : Z;
  stdout : string
}.

Inductive connect_result : Type := ConnOk | ConnRefused | ConnTimeout.
Inductive recv_result : Type := RecvData (data : string) | RecvTimeout | RecvError.

(** One client socket: how connecting, sending and receiving go. *)
Record conn : Type := mkConn {
  connect : connect_result;
  send_ok : bool;
  recv : recv_result
}.

(** A file: [None] content is a missing file. *)
Record file : Type := mkFile {
  content : option string;
  readable : bool;
  writable : bool
}.

Record World : Type := mkWorld {
  clock : Z;
  children : list (option child);
  proc_table : list (option completed_process);
  conns : list conn;
  fs : string -> file
}.

Definition set_clock (t : Z) (w : World) : World :=
  mkWorld t (children w) (proc_table w) (conns w) (fs w).
Definition set_children (c : list (option child)) (w : World) : World :=
  mkWorld (clock w) c (proc_table w) (conns w) (fs w).
Definition set_proc_table (p : list (option completed_process)) (w : World) : World :=
  mkWorld (clock w) (children w) p (conns w) (fs w).
Definition set_conns (c : list conn) (w : World) : World :=
  mkWorld (clock w) (children w) (proc_table w) c (fs w).
Definition set_fs (f : string -> file) (w : World) : World :=
  mkWorld (clock w) (children w) (proc_table w) (conns w) f.

(** A computation reads and changes the world and appends to the log. *)
Definition M (A : Type) : Type := World -> outcome A * World * list event.

Definition ret {A} (a : A) : M A := fun w => (Ret a, w, []).

Definition bind {A B} (m : M A) (k : A -> M B) : M B :=
  fun w =>
    match m w with
    | (Ret a, w1, l1) =>
        match k a w1 with
        | (o, w2, l2) => (o, w2, (l1 ++ l2)%list)
        end
    | (Raise e, w1, l1) => (Raise e, w1, l1)
    | (Hang, w1, l1) => (Hang, w1, l1)
    | (OutOfFuel, w1, l1) => (OutOfFuel, w1, l1)
    end.

Definition raise {A} (e : exn) : M A := fun w => (Raise e, w, []).
Definition hang {A} : M A := fun w => (Hang, w, []).
Definition out_of_fuel {A} : M A := fun w => (OutOfFuel, w, []).
Definition tell (e : event) : M unit := fun w => (Ret tt, w, [e]).
Definition get : M World := fun w => (Ret w, w, []).
Definition put (w : World) : M unit := fun _ => (Ret tt, w, []).

(** [try: m  except Exception: h] *)
Definition catch {A} (m : M A) (h : exn -> M A) : M A :=
  fun w =>
    match m w with
    | (Raise e, w1, l1) =>
        if is_exception e then
          match h e w1 with
          | (o, w2, l2) => (o, w2, (l1 ++ l2)%list)
          end
        else (Raise e, w1, l1)
    | r => r
    end.

(** [try: m  except: h], the bare handler, which catches everything. *)
Definition catch_all {A} (m : M A) (h : M A) : M A :=
  fun w =>
    match m w with
    | (Raise e, w1, l1) =>
        match h w1 with
        | (o, w2, l2) => (o, w2, (l1 ++ l2)%list)
        end
    | r => r
    end.

Declare Scope monad_scope.
Delimit Scope monad_scope with monad.
Notation "x <- m ;; k" := (bind m (fun x => k))
  (at level 61, m at next level, right associativity) : monad_scope.
Notation "m ;;; k" := (bind m (fun _ => k))
  (at level 61, right associativity) : monad_scope.
Local Open Scope monad_scope.

(** [time.time()], in milliseconds. *)
Definition time_now : M Z := fun w => (Ret (clock w), w, []).

(** [time.sleep]: the clock advances by the (non-negative) duration. *)
Definition sleep (ms : Z) : M unit :=
  fun w => (Ret tt, set_clock (clock w + Z.max 0 ms) w, [EvSleep ms]).

(* ================================================================== *)
(** * run_command *)

(** A started child: the text read from the pipe and not yet handed
    out, the text still to come with its arrival time, the time at which
    the pipe reaches end of file, the time and code of the child's exit,
    and the time it takes to end when terminated. *)
Record proc : Type := mkProc {
  buffer : string;
  pending : list (Z * string);
  eof_at : option Z;
  exit_at : option (Z * Z);
  term_delay : option Z
}.

Fixpoint schedule (t : Z) (cs : list (N * string)) : list (Z * string) * Z :=
  match cs with
  | [] => ([], t)
  | (d, s) :: rest =>
      let t' := t + Z.of_N d in
      let (l, tend) := schedule t' rest in
      ((t', s) :: l, tend)
  end.

Definition start_child (c : child) (t : Z) : proc :=
  let (l, tend) := schedule t (chunks c) in
  mkProc EmptyString l
    (match closes c with
     | Some d => Some (tend + Z.of_N d)
     | None => None
     end)
    (match finish c with
     | Some (d, rc) => Some (t + Z.of_N d, rc)
     | None => None
     end)
    (match sigterm c with
     | Some d => Some (Z.of_N d)
     | None => None
     end).

(** [subprocess.Popen(...)]: the next child of the world; a missing or
    unstartable child makes [Popen] raise. *)
Definition popen : M proc :=
  fun w =>
    match children w with
    | Some c :: rest => (Ret (start_child c (clock w)), set_children rest w, [])
    | None :: rest => (Raise OSError, set_children rest w, [])
    | [] => (Raise OSError, w, [])
    end.

(** [process.poll()] at time [now]. *)
Definition poll (p : proc) (now : Z) : option Z :=
  match exit_at p with
  | Some (te, rc) => if te <=? now then Some rc else None
  | None => None
  end.

Definition newline : ascii := "010"%char.

Definition carriage_return : ascii := "013"%char.

(** The pipe is read in text mode with universal newlines.  The first
    line of [s] as [readline] hands it out, and the rest: a line ends at a
    line feed, at a carriage return followed by a line feed, or at a
    carriage return followed by something else, and its end is handed out
    as one line feed.  A carriage return at the very end of [s] does not
    end a line yet: what comes next decides. *)
Fixpoint split_line (s : string) : option (string * string) :=
  match s with
  | EmptyString => None
  | String c rest =>
      if Ascii.eqb c newline then Some (String newline EmptyString, rest)
      else if Ascii.eqb c carriage_return then
        match rest with
        | EmptyString => None
        | String c' rest' =>
            if Ascii.eqb c' newline
            then Some (String newline EmptyString, rest')
            else Some (String newline EmptyString, rest)
        end
      else match split_line rest with
           | Some (l, r) => Some (String c l, r)
           | None => None
           end
  end.

(** All of [s] as the text layer hands it out once the pipe is at end of
    file: every line end is one line feed, a last carriage return
    included. *)
Fixpoint universal_newlines (s : string) : string :=
  match s with
  | EmptyString => EmptyString
  | String c rest =>
      if Ascii.eqb c carriage_return then
        match rest with
        | EmptyString => String newline EmptyString
        | String c' rest' =>
            if Ascii.eqb c' newline
            then String newline (universal_newlines rest')
            else String newline (universal_newlines rest)
        end
      else String c (universal_newlines rest)
  end.

(** [process.stdout.readline()], a blocking read: it returns once a full
    line is in the pipe, or at end of file with what is left (the empty
    string when nothing is); with neither to come it never returns
    ([None]).  End of file is the closing of the pipe by its last holder,
    not the exit of the child. *)
Fixpoint readline_from (buf : string) (pend : list (Z * string)) (p : proc)
    (now : Z) : option (string * proc * Z) :=
  match split_line buf with
  | Some (line, rest) =>
      Some (line, mkProc rest pend (eof_at p) (exit_at p) (term_delay p), now)
  | None =>
      match pend with
      | (ta, s) :: more => readline_from (buf ++ s) more p (Z.max now ta)
      | [] =>
          match eof_at p with
          | Some te =>
              Some (universal_newlines buf,
                    mkProc EmptyString [] (eof_at p) (exit_at p) (term_delay p),
                    Z.max now te)
          | None => None
          end
      end
  end.

Definition readline (p : proc) (now : Z) : option (string * proc * Z) :=
  readline_from (buffer p) (pending p) p now.

Fixpoint flatten (l : list string) : string :=
  match l with
  | [] => EmptyString
  | s :: rest => s ++ flatten rest
  end.

(** [process.stdout.read()]: all that is left, once the pipe is at end of
    file; without an end of file it never returns ([None]). *)
Definition read_rest (p : proc) (now : Z) : option (string * Z) :=
  match eof_at p with
  | Some te =>
      Some (universal_newlines (buffer p ++ flatten (map snd (pending p))),
            Z.max now te)
  | None => None
  end.

(** [process.terminate(); process.wait()] at [now], the child still
    running: the time at which the child has ended, of its own accord or
    from the signal; [None] when it does neither. *)
Definition terminate_and_wait (p : proc) (now : Z) : option Z :=
  match exit_at p, term_delay p with
  | Some (te, _), Some d => Some (Z.max now (Z.min te (now + d)))
  | Some (te, _), None => Some (Z.max now te)
  | None, Some d => Some (Z.max now (now + d))
  | None, None => None
  end.

(** A blocking call that returns at time [t]. *)
Definition blocked_until (t : Z) : M unit :=
  fun w => (Ret tt, set_clock t w, []).

Inductive loop_exit : Type :=
| TimedOut (lines : list string)
| Exited (rc : Z) (p : proc) (lines : list string).

(** The streaming loop [while process.poll() is None: ...].  The flag
    [_should_continue] is initialised to [True] and only ever assigned
    [True], so its branch never runs and is left out. *)
Fixpoint stream_loop (fuel : nat) (start timeout_ms : Z) (p : proc)
    (lines : list string) : M loop_exit :=
  match fuel with
  | O => out_of_fuel
  | S fuel' =>
      now <- time_now ;;
      match poll p now with
      | Some rc => ret (Exited rc p lines)
      | None =>
          if now - start >? timeout_ms
          then
            match terminate_and_wait p now with
            | None => hang
            | Some now' =>
                blocked_until now' ;;;
                ret (TimedOut lines)
            end
          else
            match readline p now with
            | None => hang
            | Some (line, p', now') =>
                blocked_until now' ;;;
                let lines' :=
                  match line with
                  | EmptyString => lines
                  | _ => (lines ++ [PyStr.rstrip line])%list
                  end in
                sleep 10 ;;;
                stream_loop fuel' start timeout_ms p' lines'
            end
      end
  end.

(** Truth value of [cmd]. *)
Definition cmd_truthy (cmd : command) : bool :=
  match cmd with
  | Shell EmptyString => false
  | Shell _ => true
  | Argv [] => false
  | Argv _ => true
  end.

(** [str(cmd)] *)
Definition str_of_cmd (cmd : command) : string :=
  match cmd with
  | Shell s => s
  | Argv l => PyStr.str_of_list l
  end.

Definition zero_copy_marker : string := "0 File(s) copied".

(** The guard of the copy check: [cmd and 'xcopy' in str(cmd).lower()]. *)
Definition is_xcopy (cmd : command) : bool :=
  cmd_truthy cmd && PyStr.contains "xcopy" (PyStr.lower (str_of_cmd cmd)).

Definition reports_zero_copied (lines : list string) : bool :=
  existsb (PyStr.contains zero_copy_marker) lines.

(** Every turn of the streaming loop sleeps ten milliseconds and the loop
    ends once the timeout is exceeded: a bound on its turns. *)
Definition loop_bound (timeout_ms : Z) : nat :=
  S (Z.to_nat (timeout_ms / 10 + 1)).

(** [run_command], returning also the list [output_lines] as it stands
    when the function returns.  The arguments [check], [env] and
    [show_errors] do not influence the result and are omitted; [shell] only
    reaches [Popen]. *)
Definition run_command_capture (cmd : command) (timeout : option Z)
  : M (bool * list string) :=
  catch
    (let timeout := match timeout with Some t => t | None => 3600 end in
     p <- popen ;;
     start <- time_now ;;
     r <- stream_loop (loop_bound (timeout * 1000)) start (timeout * 1000) p [] ;;
     match r with
     | TimedOut lines => ret (false, lines)
     | Exited rc p' lines =>
         now <- time_now ;;
         match read_rest p' now with
         | None => hang
         | Some (remaining_output, now') =>
             blocked_until now' ;;;
             let lines :=
               (lines ++ map PyStr.rstrip (PyStr.splitlines remaining_output))%list in
             if negb (rc =? 0) then ret (false, lines)
             else if is_xcopy cmd && reports_zero_copied lines
                  then ret (false, lines)
                  else ret (true, lines)
         end
     end)
    (fun _ => ret (false, [])).

Definition run_command (cmd : command) (timeout : option Z) : M bool :=
  r <- run_command_capture cmd timeout ;;
  ret (fst r).


(* ================================================================== *)
(** * The pipeline *)

(** The part of [config] the modelled functions read. *)
Record DeploymentConfig : Type := mkConfig {
process_name : string;
kill_command : command
}.

(** [ArtifactDescriptor]: what [os.path.getmtime] and [os.path.getsize]
  give for an existing file; the time is a float, in seconds. *)
Record artifact : Type := mkArtifact {
mtime : PrimFloat.float;
size : Z
}.

(** A string between double quotes. *)
Definition quoted (s : string) : string :=
String PyStr.dquote (s ++ String PyStr.dquote EmptyString).

Section Pipeline.

Set Default Proof Using "Type".

(** The value of [platform.system()]. *)
Variable platform : string.

(** [json.loads]; [None] is [json.JSONDecodeError]. *)
Variable json_loads : string -> option json.

(** Whether [print] can write the text of a value taken from a reply of
    the server to the standard output: it raises [UnicodeEncodeError] on
    a character that the encoding of the output does not have.  The
    messages of the scripts themselves are taken to be printable. *)
Variable stdout_accepts : json -> bool.

Definition system : string := PyStr.lower platform.

Definition on_windows : bool := String.eqb system "windows".

(* ---------------------------------------------------------------- *)
(** ** is_process_running *)

(** [subprocess.run(..., capture_output=True, text=True, check=False)] *)
Definition subprocess_run : M completed_process :=
  fun w =>
    match proc_table w with
    | Some r :: rest => (Ret r, set_proc_table rest w, [])
    | None :: rest => (Raise OSError, set_proc_table rest w, [])
    | [] => (Raise OSError, w, [])
    end.

Definition is_process_running (name : string) : M bool :=
  running <-
    catch_all
      (if on_windows
       then r <- subprocess_run ;; ret (PyStr.contains name (stdout r))
       else r <- subprocess_run ;; ret (returncode r =? 0))
      (ret false) ;;
  tell (EvLiveness name running) ;;;
  ret running.

(* ---------------------------------------------------------------- *)
(** ** get_mcp_timeout_for_function *)

(** [open(path, 'r').read()] *)
Definition read_file (path : string) : M string :=
  fun w =>
    match content (fs w path), readable (fs w path) with
    | Some s, true => (Ret s, w, [])
    | _, _ => (Raise OSError, w, [])
    end.

(** [open(path, 'w').write(s)]: a file that cannot be opened for writing
    keeps its content. *)
Definition write_file (path : string) (s : string) : M unit :=
  fun w =>
    if writable (fs w path)
    then (Ret tt,
          set_fs (fun p => if String.eqb p path
                           then mkFile (Some s) (readable (fs w path)) true
                           else fs w p) w,
          [])
    else (Raise OSError, w, []).

(** The chain on [timeout_str]. *)
Definition timeout_of_string (v : json) : Z :=
  if Py.eq_str v "default" then 5
  else if Py.eq_str v "1 minute" then 60
  else if Py.eq_str v "2 minutes" then 120
  else if Py.eq_str v "20 minutes" then 1200
  else 5.

Fixpoint chars (s : string) : list json :=
  match s with
  | EmptyString => []
  | String c rest => JStr (String c EmptyString) :: chars rest
  end.

(** What [for tool in tools] visits; [None] is the [TypeError] of a value
    that cannot be iterated. *)
Definition iterate (v : json) : option (list json) :=
  match v with
  | JArr items => Some items
  | JStr s => Some (chars s)
  | JObj fields => Some (map (fun kv => JStr (fst kv)) fields)
  | _ => None
  end.

Inductive lookup_result : Type :=
| Found (seconds : Z)
| NoEntry
| LookupFailed.

(** The loop over the tools of the schema. *)
Fixpoint scan_tools (tools : list json) (function_name : string) : lookup_result :=
  match tools with
  | [] => NoEntry
  | tool :: rest =>
      match Py.get tool "name" JNull with
      | None => LookupFailed
      | Some n =>
          if Py.eq_str n function_name then
            match Py.get tool "timeout" (JStr "default") with
            | Some ts => Found (timeout_of_string ts)
            | None => LookupFailed
            end
          else scan_tools rest function_name
      end
  end.

(** [mcp_data.get('mcp', {}).get('tools', [])] *)
Definition tools_of (mcp_data : json) : option json :=
  match Py.get mcp_data "mcp" (JObj []) with
  | Some m => Py.get m "tools" (JArr [])
  | None => None
  end.

Definition schema_lookup (mcp_data : json) (function_name : string) : lookup_result :=
  match tools_of mcp_data with
  | Some tools =>
      match iterate tools with
      | Some items => scan_tools items function_name
      | None => LookupFailed
      end
  | None => LookupFailed
  end.

(** The dictionary [timeout_map]. *)
Definition timeout_map : list (string * Z) :=
  [("build", 1200); ("debug", 60); ("loadSession", 120);
   ("get_plugin_version", 1); ("initialize", 1); ("quit", 1)].

Fixpoint map_get (key : string) (m : list (string * Z)) (default : Z) : Z :=
  match m with
  | [] => default
  | (k, v) :: rest => if String.eqb k key then v else map_get key rest default
  end.

(** The first part of the function, up to the bare [except: pass]. *)
Definition schema_timeout (function_name : string) : M lookup_result :=
  catch_all
    (text <- read_file "mcp.json" ;;
     match json_loads text with
     | Some mcp_data => ret (schema_lookup mcp_data function_name)
     | None => raise ValueError
     end)
    (ret LookupFailed).

Definition get_mcp_timeout_for_function (function_name : string) : M Z :=
  r <- schema_timeout function_name ;;
  match r with
  | Found seconds => ret seconds
  | NoEntry => ret (map_get function_name timeout_map 5)
  | LookupFailed => ret (map_get function_name timeout_map 5)
  end.

(* ---------------------------------------------------------------- *)
(** ** Sockets *)

(** [socket.socket(...)]: the next connection of the world; with none left
    nothing listens. *)
Definition socket_open : M conn :=
  fun w =>
    match conns w with
    | c :: rest => (Ret c, set_conns rest w, [EvSocketOpen])
    | [] => (Ret (mkConn ConnRefused false RecvError), w, [EvSocketOpen])
    end.

Definition socket_close : M unit := tell EvSocketClose.

(** [sock.connect(...)] under a timeout in seconds. *)
Definition socket_connect (c : conn) (timeout_seconds : Z) : M unit :=
  match connect c with
  | ConnOk => ret tt
  | ConnRefused => raise OSError
  | ConnTimeout => sleep (timeout_seconds * 1000) ;;; raise SocketTimeout
  end.

(** [sock.connect_ex(...)]: an error code instead of an exception. *)
Definition socket_connect_ex (c : conn) (timeout_seconds : Z) : M Z :=
  match connect c with
  | ConnOk => ret 0
  | ConnRefused => ret 111
  | ConnTimeout => sleep (timeout_seconds * 1000) ;;; ret 11
  end.

Definition socket_send (c : conn) : M unit :=
  if send_ok c then ret tt else raise OSError.

(** [sock.recv(4096).decode()] under a timeout in seconds. *)
Definition socket_recv (c : conn) (timeout_seconds : Z) : M string :=
  match recv c with
  | RecvData data => tell (EvReply data) ;;; ret data
  | RecvTimeout => sleep (timeout_seconds * 1000) ;;; raise SocketTimeout
  | RecvError => raise OSError
  end.

Definition send_mcp_command_socket (command : string) (function_name : string)
  : M string :=
  catch
    (timeout_seconds <- get_mcp_timeout_for_function function_name ;;
     sock <- socket_open ;;
     socket_connect sock timeout_seconds ;;;
     socket_send sock ;;;
     response_data <- socket_recv sock timeout_seconds ;;
     socket_close ;;;
     ret (PyStr.strip response_data))
    (fun _ => ret EmptyString).

Definition test_mcp_connection : M bool :=
  catch_all
    (sock <- socket_open ;;
     result <- socket_connect_ex sock 5 ;;
     socket_close ;;;
     ret (result =? 0))
    (ret false).

(* ---------------------------------------------------------------- *)
(** ** test_mcp_version *)

(** The inner [try] on the version string; [None] is an exception that
    its handler does not catch ([AttributeError] of a version that is not
    a string). *)
Definition check_version (version : json) : option bool :=
  match version with
  | JStr v =>
      match PyStr.split "." v with
      | _ :: _ :: p :: _ =>
          match PyStr.int p with
          | Some patch_version => Some (1 <=? patch_version)
          | None => Some false
          end
      | _ => Some false
      end
  | _ => None
  end.

(** The body under [response = json.loads(response_data)]; [None] is an
    exception that reaches the outermost handler. *)
Definition check_initialize_response (response : json) : option bool :=
  match Py.contains "result" response with
  | None => None
  | Some false => Some false
  | Some true =>
      match Py.getitem response "result" with
      | None => None
      | Some result =>
          if Py.truthy result then
            match Py.get result "serverInfo" (JObj []) with
            | None => None
            | Some server_info =>
                match Py.get server_info "version" (JStr "unknown"),
                      Py.get server_info "name" (JStr "unknown") with
                | Some version, Some name =>
                    (* print(f"[OK] Plugin version: {version} ({name})") *)
                    if stdout_accepts version && stdout_accepts name
                    then check_version version
                    else None
                | _, _ => None
                end
            end
          else Some false
      end
  end.

Definition initialize_query : string :=
  "{" ++ quoted "jsonrpc" ++ ":" ++ quoted "2.0" ++ ","
  ++ quoted "method" ++ ":" ++ quoted "initialize" ++ ","
  ++ quoted "id" ++ ":1}" ++ String newline EmptyString.

Definition test_mcp_version : M bool :=
  catch
    (response_data <- send_mcp_command_socket initialize_query "initialize" ;;
     match response_data with
     | EmptyString => ret false
     | _ =>
         match json_loads response_data with
         | None => ret false
         | Some response =>
             match check_initialize_response response with
             | Some b => ret b
             | None => raise TypeError
             end
         end
     end)
    (fun _ => ret false).

(* ---------------------------------------------------------------- *)
(** ** test_installation *)

(** [for i in range(2): ...], [remaining] turns being left; the half
    second of sleep comes after the first turn only. *)
Fixpoint installation_attempts (remaining : nat) : M bool :=
  match remaining with
  | O => ret false
  | S remaining' =>
      responding <- test_mcp_connection ;;
      if responding then test_mcp_version
      else
        (if (1 <=? remaining')%nat then sleep 500 else ret tt) ;;;
        installation_attempts remaining'
  end.

Definition test_installation : M bool := installation_attempts 2.

(* ---------------------------------------------------------------- *)
(** ** poll_build_status *)

Inductive verdict : Type :=
| Complete
| InProgress.

(** The branches on [status_text]; [None] is an exception ([TypeError]
    of [in] or of [re.search] on a value that is not a string), which the
    handler of the loop catches. *)
Definition interpret_status (status_text : json) : option verdict :=
  match Py.contains "Building:" status_text with
  | None => None
  | Some has_building =>
      match (if has_building then Py.contains "%" status_text else Some false) with
      | None => None
      | Some true =>
          match status_text with
          | JStr text =>
              match Re.search_digits "Building: " "%" text with
              | Some digits =>
                  match PyStr.int digits with
                  | Some progress =>
                      if progress =? 100 then Some Complete else Some InProgress
                  | None => None
                  end
              | None => Some InProgress
              end
          | _ => None
          end
      | Some false =>
          match Py.contains "Status: Not building" status_text with
          | None => None
          | Some true => Some Complete
          | Some false => Some InProgress
          end
      end
  end.

(** What one answer of the server means for the poller: the body of
    [if response: ...]. *)
Definition interpret_response (response : string) : option verdict :=
  match json_loads response with
  | None => Some InProgress
  | Some status_data =>
      match Py.contains "result" status_data with
      | None => None
      | Some false => Some InProgress
      | Some true =>
          match Py.getitem status_data "result" with
          | None => None
          | Some status_text =>
              if Py.truthy status_text
              then interpret_status status_text
              else Some InProgress
          end
      end
  end.

Definition status_query : string :=
  "{" ++ quoted "jsonrpc" ++ ":" ++ quoted "2.0" ++ ","
  ++ quoted "method" ++ ":" ++ quoted "tools/call" ++ ","
  ++ quoted "params" ++ ":{" ++ quoted "name" ++ ":" ++ quoted "getBuildStatus"
  ++ "}," ++ quoted "id" ++ ":1}" ++ String newline EmptyString.

(** One turn of the loop: [true] when the function returns [True]. *)
Definition poll_once : M bool :=
  catch
    (response <- send_mcp_command_socket status_query "getBuildStatus" ;;
     match response with
     | EmptyString => sleep 2000 ;;; ret false
     | _ =>
         match interpret_response response with
         | None => raise TypeError
         | Some Complete => ret true
         | Some InProgress => sleep 2000 ;;; ret false
         end
     end)
    (fun _ => sleep 2000 ;;; ret false).

Fixpoint poll_loop (fuel : nat) (start max_poll_ms : Z) : M bool :=
  match fuel with
  | O => out_of_fuel
  | S fuel' =>
      now <- time_now ;;
      if now - start <? max_poll_ms then
        done <- poll_once ;;
        if done then ret true else poll_loop fuel' start max_poll_ms
      else ret false
  end.

(** [poll_build_status(max_poll_time)], the budget in seconds.  Every turn
    that does not return sleeps two seconds, which bounds the turns. *)
Definition poll_build_status (max_poll_time : Z) : M bool :=
  start <- time_now ;;
  poll_loop (S (Z.to_nat (max_poll_time / 2 + 1))) start (max_poll_time * 1000).

(* ---------------------------------------------------------------- *)
(** ** quit_qt_creator_gracefully *)

Definition quit_query : string :=
  "{" ++ quoted "jsonrpc" ++ ":" ++ quoted "2.0" ++ ","
  ++ quoted "method" ++ ":" ++ quoted "tools/call" ++ ","
  ++ quoted "params" ++ ":{" ++ quoted "name" ++ ":" ++ quoted "quit" ++ ","
  ++ quoted "arguments" ++ ":{}}," ++ quoted "id" ++ ":1}"
  ++ String newline EmptyString.

(** [for i in range(n): if not is_process_running(...): return True ...] *)
Fixpoint wait_for_quit (n : nat) (name : string) : M bool :=
  match n with
  | O => ret false
  | S n' =>
      running <- is_process_running name ;;
      if negb running then ret true
      else sleep 1000 ;;; wait_for_quit n' name
  end.

Definition quit_qt_creator_gracefully (config : DeploymentConfig) : M bool :=
  responding <- test_mcp_connection ;;
  if responding then
    _ <- send_mcp_command_socket quit_query "quit" ;;
    wait_for_quit 10 (process_name config)
  else ret false.

(* ---------------------------------------------------------------- *)
(** ** kill_qt_creator *)

(** [run_command(cmd, check=False, show_errors=False)] at one of the call
    sites of [kill_qt_creator]; the value bound to [result] is logged. *)
Definition kill_with (site : kill_site) (cmd : command) : M bool :=
  result <- run_command cmd None ;;
  tell (EvKillResult site result) ;;;
  ret result.

(** [result and "SUCCESS" in str(result)], [result] being the boolean
    that [run_command] returns. *)
Definition reports_success (result : bool) : bool :=
  result && PyStr.contains "SUCCESS" (PyStr.str_of_bool result).

(** [result and result.returncode == 0]: a boolean has no attribute
    [returncode]. *)
Definition returncode_is_zero (result : bool) : M bool :=
  if result then raise AttributeError else ret false.

(** The Windows branch of one attempt: [Some b] when it returns [b]. *)
Definition windows_methods (config : DeploymentConfig) : M (option bool) :=
  result <- kill_with TaskkillTree
              (Argv ["taskkill"; "/F"; "/T"; "/IM"; "qtcreator.exe"]) ;;
  if reports_success result then ret (Some true) else
  sleep 1000 ;;;
  running <- is_process_running (process_name config) ;;
  r3 <- (if running then
           result <- kill_with TaskkillPattern
                       (Argv ["taskkill"; "/F"; "/IM"; "*qtcreator*"]) ;;
           if reports_success result then ret (Some true)
           else sleep 1000 ;;; ret None
         else ret None) ;;
  match r3 with
  | Some b => ret (Some b)
  | None =>
      running <- is_process_running (process_name config) ;;
      if running then
        result <- kill_with TaskkillTitle
                    (Argv ["taskkill"; "/F"; "/FI"; "WINDOWTITLE eq Qt Creator*"]) ;;
        if reports_success result then ret (Some true)
        else sleep 1000 ;;; ret None
      else ret None
  end.

(** The branch of the other systems. *)
Definition unix_methods (config : DeploymentConfig) : M (option bool) :=
  result <- kill_with UnixPkill (Argv ["pkill"; "-9"; "-f"; "qtcreator"]) ;;
  ok <- returncode_is_zero result ;;
  if ok then ret (Some true) else
  sleep 1000 ;;;
  running <- is_process_running (process_name config) ;;
  if running then
    result <- kill_with UnixKillall (Argv ["killall"; "-9"; "qtcreator"]) ;;
    ok <- returncode_is_zero result ;;
    if ok then ret (Some true)
    else sleep 1000 ;;; ret None
  else ret None.

(** One turn of [while time.time() - start_time < timeout_seconds]:
    [Some b] when the function returns [b] in this turn. *)
Definition kill_attempt (config : DeploymentConfig) (start timeout_ms : Z)
  : M (option bool) :=
  result <- kill_with ConfiguredKill (kill_command config) ;;
  if reports_success result then ret (Some true) else
  sleep 1000 ;;;
  running <- is_process_running (process_name config) ;;
  if negb running then ret (Some true) else
  r <- (if on_windows then windows_methods config else unix_methods config) ;;
  match r with
  | Some b => ret (Some b)
  | None =>
      now <- time_now ;;
      if now - start >=? timeout_ms then ret (Some false)
      else sleep 2000 ;;; ret None
  end.

Fixpoint kill_loop (fuel : nat) (config : DeploymentConfig)
    (start timeout_ms : Z) : M bool :=
  match fuel with
  | O => out_of_fuel
  | S fuel' =>
      now <- time_now ;;
      if now - start <? timeout_ms then
        r <- kill_attempt config start timeout_ms ;;
        match r with
        | Some b => ret b
        | None => kill_loop fuel' config start timeout_ms
        end
      else ret false
  end.

(** [kill_qt_creator(config, timeout_seconds)].  A turn that does not
    return sleeps three seconds at least. *)
Definition kill_qt_creator (config : DeploymentConfig) (timeout_seconds : Z)
  : M bool :=
  start <- time_now ;;
  kill_loop (S (Z.to_nat (timeout_seconds / 3 + 1))) config start
    (timeout_seconds * 1000).

(* ---------------------------------------------------------------- *)
(** ** verify_plugin_installation *)

(** [time.ctime] raises for a time that the C library cannot break down
    ([OSError], [OverflowError]; which times those are depends on the
    platform): the exception, if any. *)
Variable ctime_error : PrimFloat.float -> option exn.

(** The two files are given by what [os.path.exists], [getmtime] and
    [getsize] report for them: [None] for a file that does not exist.
    [config] always holds its path.  Nothing catches the exception of a
    timestamp that cannot be printed. *)
Definition verify_plugin_installation (built installed : option artifact)
  : outcome bool :=
  if on_windows then
    match built with
    | None => Ret false
    | Some b =>
        match installed with
        | None => Ret false
        | Some i =>
            let built_time := mtime b in
            let installed_time := mtime i in
            match ctime_error built_time with
            | Some e => Raise e
            | None =>
                match ctime_error installed_time with
                | Some e => Raise e
                | None =>
                    if PrimFloat.ltb installed_time
                         (PrimFloat.sub built_time 5%float)
                    then Ret false
                    else if negb (size b =? size i) then Ret false
                    else Ret true
                end
            end
        end
    end
  else
    (* For macOS/Linux, similar verification *)
    Ret true.

(* ---------------------------------------------------------------- *)
(** ** bump_version and regenerate_version_files *)

Definition version_file : string := "version.cmake".

Definition patch_key : string := "PLUGIN_VERSION_PATCH ".

Definition bump_version : M unit :=
  catch
    (content <- read_file version_file ;;
     match Re.search_digits patch_key EmptyString content with
     | Some digits =>
         match PyStr.int digits with
         | Some current_patch =>
             let new_patch := current_patch + 1 in
             match format_int new_patch with
             | Some text =>
                 let new_content :=
                   Re.sub_digits patch_key (patch_key ++ text) content in
                 write_file version_file new_content
             | None => raise ValueError
             end
         | None => raise ValueError
         end
     | None => ret tt
     end)
    (fun _ => ret tt).

Definition define (name value : string) : string :=
  "#define " ++ name ++ " " ++ value ++ String newline EmptyString.

Definition version_h_content (major minor patch name json_file : string) : string :=
  "#pragma once" ++ String newline (String newline EmptyString)
  ++ "// Plugin versioning - centralized location" ++ String newline EmptyString
  ++ define "PLUGIN_VERSION_MAJOR" major
  ++ define "PLUGIN_VERSION_MINOR" minor
  ++ define "PLUGIN_VERSION_PATCH" patch
  ++ String newline EmptyString
  ++ define "PLUGIN_VERSION_STRING" (quoted (major ++ "." ++ minor ++ "." ++ patch))
  ++ define "PLUGIN_NAME_VERSIONED" (quoted name)
  ++ define "PLUGIN_JSON_FILE" (quoted json_file).

Definition regenerate_version_files : M bool :=
  catch
    (content <- read_file version_file ;;
     match Re.search_digits "PLUGIN_VERSION_MAJOR " EmptyString content,
           Re.search_digits "PLUGIN_VERSION_MINOR " EmptyString content,
           Re.search_digits patch_key EmptyString content,
           Re.search_quoted "PLUGIN_NAME_VERSIONED " content,
           Re.search_quoted "PLUGIN_JSON_FILE " content
     with
     | Some major, Some minor, Some patch, Some name, Some json_file =>
         write_file "version.h"
           (version_h_content major minor patch name json_file) ;;;
         ret true
     | _, _, _, _, _ => ret false
     end)
    (fun _ => ret false).

(** [sys.exit(status)] *)
Definition sys_exit {A} (status : Z) : M A := raise (SystemExit status).

(** Steps 7 and 8 of [main]: the settle delay, the test of the running
    plugin and the exit status. *)
Definition main_test_installation : M unit :=
  sleep 15000 ;;;
  ok <- test_installation ;;
  if ok then sys_exit 0 else sys_exit 1.

(** Steps 3 and 3b of [main]; [rest] is everything from step 4 on
    (environment, configuration, build, ...). *)
Definition main_from_version_bump (rest : M unit) : M unit :=
  bump_version ;;;
  ok <- regenerate_version_files ;;
  if negb ok then sys_exit 1
  else rest.


(* ================================================================ *)
(** * Properties *)

(** ** The monad *)

(** An outcome that is not a return, at another result type (it is only
    applied to such outcomes). *)
Definition propagate {A B} (o : outcome A) : outcome B :=
  match o with
  | Ret _ => OutOfFuel
  | Raise e => Raise e
  | Hang => Hang
  | OutOfFuel => OutOfFuel
  end.

Definition returned {A} (o : outcome A) : bool :=
  match o with
  | Ret _ => true
  | _ => false
  end.

Lemma bind_inv {A B} (m : M A) (k : A -> M B) w o w' l :
  bind m k w = (o, w', l) ->
  (exists a w1 l1 l2,
      m w = (Ret a, w1, l1) /\ k a w1 = (o, w', l2) /\ l = (l1 ++ l2)%list)
  \/ (exists o1, m w = (o1, w', l) /\ returned o1 = false /\ o = propagate o1).
Proof.
  unfold bind. destruct (m w) as [[o1 w1] l1]. destruct o1.
  - destruct (k a w1) as [[o2 w2] l2] eqn:E. intros H. inversion H; subst.
    left. exists a, w1, l1, l2. auto.
  - intros H. inversion H; subst. right. exists (Raise e). auto.
  - intros H. inversion H; subst. right. exists Hang. auto.
  - intros H. inversion H; subst. right. exists OutOfFuel. auto.
Qed.

Lemma bind_ret_inv {A B} (m : M A) (k : A -> M B) w b w' l :
  bind m k w = (Ret b, w', l) ->
  exists a w1 l1 l2,
    m w = (Ret a, w1, l1) /\ k a w1 = (Ret b, w', l2) /\ l = (l1 ++ l2)%list.
Proof.
  intros H. apply bind_inv in H. destruct H as [H | [o1 [_ [Hr Ho]]]]; auto.
  destruct o1; simpl in *; discriminate.
Qed.

Lemma bind_run {A B} (m : M A) (k : A -> M B) w a w1 l1 :
  m w = (Ret a, w1, l1) ->
  bind m k w = (let '(o, w2, l2) := k a w1 in (o, w2, (l1 ++ l2)%list)).
Proof. intros H. unfold bind. rewrite H. destruct (k a w1) as [[? ?] ?]. reflexivity. Qed.

Lemma bind_stop {A B} (m : M A) (k : A -> M B) w o1 w1 l1 :
  m w = (o1, w1, l1) -> returned o1 = false ->
  bind m k w = (propagate o1, w1, l1).
Proof. intros H Hr. unfold bind. rewrite H. destruct o1; simpl in *; congruence. Qed.

(** ** Strings *)

Lemma length_append (a b : string) :
  String.length (a ++ b) = (String.length a + String.length b)%nat.
Proof. induction a; simpl; auto. Qed.


(** ** run_command *)

Ltac inv H := inversion H; subst; clear H.

Definition is_sleep (e : event) : Prop :=
  match e with
  | EvSleep _ => True
  | _ => False
  end.

Lemma stream_loop_step fuel start tm p lines :
  stream_loop (S fuel) start tm p lines =
  (now <- time_now ;;
   match poll p now with
   | Some rc => ret (Exited rc p lines)
   | None =>
       if now - start >? tm
       then
         match terminate_and_wait p now with
         | None => hang
         | Some now' =>
             blocked_until now' ;;;
             ret (TimedOut lines)
         end
       else
         match readline p now with
         | None => hang
         | Some (line, p', now') =>
             blocked_until now' ;;;
             let lines' :=
               match line with
               | EmptyString => lines
               | _ => (lines ++ [PyStr.rstrip line])%list
               end in
             sleep 10 ;;;
             stream_loop fuel start tm p' lines'
         end
   end).
Proof. reflexivity. Qed.

Arguments stream_loop : simpl never.

(** One turn of the loop, as a case analysis on its run. *)
Lemma stream_loop_turn fuel start tm p lines w o w' l :
  stream_loop (S fuel) start tm p lines w = (o, w', l) ->
  (exists rc, poll p (clock w) = Some rc
              /\ o = Ret (Exited rc p lines) /\ w' = w /\ l = [])
  \/ (poll p (clock w) = None /\ (clock w - start >? tm) = true
      /\ ((terminate_and_wait p (clock w) = None
           /\ o = Hang /\ w' = w /\ l = [])
          \/ (exists now', terminate_and_wait p (clock w) = Some now'
                           /\ o = Ret (TimedOut lines)
                           /\ w' = set_clock now' w /\ l = [])))
  \/ (poll p (clock w) = None /\ (clock w - start >? tm) = false
      /\ ((readline p (clock w) = None /\ o = Hang /\ w' = w /\ l = [])
          \/ (exists line p' now' l2,
                 readline p (clock w) = Some (line, p', now')
                 /\ stream_loop fuel start tm p'
                      (match line with
                       | EmptyString => lines
                       | _ => (lines ++ [PyStr.rstrip line])%list
                       end)
                      (set_clock (now' + 10) w) = (o, w', l2)
                 /\ l = EvSleep 10 :: l2))).
Proof.
  rewrite stream_loop_step. unfold bind, time_now. cbv beta iota.
  destruct (poll p (clock w)) as [rc|].
  - intros H. inv H. left. exists rc. auto.
  - right. destruct (clock w - start >? tm).
    + left. do 2 (split; [reflexivity|]).
      destruct (terminate_and_wait p (clock w)) as [now'|].
      * right. exists now'. unfold blocked_until, ret in H. inv H. auto.
      * left. inv H. auto.
    + right. do 2 (split; [reflexivity|]).
      destruct (readline p (clock w)) as [[[line p'] now']|].
      * right. unfold blocked_until, sleep in H. cbv beta iota in H.
        cbn [clock set_clock children proc_table conns fs] in H.
        replace (Z.max 0 10) with 10 in H by reflexivity.
        match type of H with
        | context [stream_loop fuel ?a ?b ?c ?d ?e] =>
            replace e with (set_clock (now' + 10) w) in H by reflexivity;
            destruct (stream_loop fuel a b c d (set_clock (now' + 10) w))
              as [[o2 w2] l2] eqn:El
        end.
        exists line, p', now', l2. inv H. auto.
      * left. inv H. auto.
Qed.

Lemma readline_from_spec pend : forall buf p now line p' now',
  readline_from buf pend p now = Some (line, p', now') ->
  now <= now' /\ exit_at p' = exit_at p /\ eof_at p' = eof_at p
  /\ term_delay p' = term_delay p.
Proof.
  induction pend as [|[ta s] more IH]; intros buf p now line p' now' H;
    simpl in H; destruct (split_line buf) as [[l r]|].
  - inv H. simpl. repeat split; lia.
  - destruct (eof_at p) as [te|] eqn:Ee; [|discriminate]. inv H. simpl.
    repeat split; auto; lia.
  - inv H. simpl. repeat split; lia.
  - apply IH in H. destruct H as (Hn & He & Hf & Ht). repeat split; auto; lia.
Qed.

Lemma readline_spec p now line p' now' :
  readline p now = Some (line, p', now') ->
  now <= now' /\ exit_at p' = exit_at p /\ eof_at p' = eof_at p
  /\ term_delay p' = term_delay p.
Proof. unfold readline. apply readline_from_spec. Qed.

(** A pipe that reaches end of file lets every [readline] return. *)
Lemma readline_from_eof pend : forall buf p now,
  eof_at p <> None -> readline_from buf pend p now <> None.
Proof.
  induction pend as [|[ta s] more IH]; intros buf p now He; simpl;
    destruct (split_line buf) as [[l r]|]; try discriminate.
  - destruct (eof_at p); [discriminate | congruence].
  - apply IH. exact He.
Qed.

Lemma terminate_and_wait_spec p now now' :
  terminate_and_wait p now = Some now' -> now <= now'.
Proof.
  unfold terminate_and_wait.
  destruct (exit_at p) as [[te rc]|], (term_delay p) as [d|];
    intros H; inv H; lia.
Qed.

Lemma read_rest_spec p now text now' :
  read_rest p now = Some (text, now') -> now <= now'.
Proof.
  unfold read_rest. destruct (eof_at p); intros H; inv H. lia.
Qed.

(** The turns left to a loop that started at [start] with a timeout of
    [tm] milliseconds, at time [now]. *)
Definition turns_left (start tm now : Z) : nat :=
  Z.to_nat ((start + tm - now) / 10 + 1).

Lemma turns_left_sleep start tm now now' :
  (now - start >? tm) = false -> now <= now' ->
  (turns_left start tm (now' + 10) < turns_left start tm now)%nat.
Proof.
  intros Ht Hn. unfold turns_left.
  assert (H0 : 0 <= start + tm - now).
  { destruct (Z.gtb_spec (now - start) tm); [discriminate | lia]. }
  assert (H1 : (start + tm - (now' + 10)) / 10 + 1 <= (start + tm - now) / 10).
  { replace (start + tm - (now' + 10)) with (start + tm - now' + (-1) * 10) by lia.
    rewrite Z.div_add by lia.
    assert ((start + tm - now') / 10 <= (start + tm - now) / 10)
      by (apply Z.div_le_mono; lia).
    lia. }
  assert (H2 : 0 <= (start + tm - now) / 10) by (apply Z.div_pos; lia).
  lia.
Qed.

(** The streaming loop never exhausts its bound, never raises, logs only
    sleeps and lets the clock grow. *)
Lemma stream_loop_spec fuel : forall start tm p lines w o w' l,
  stream_loop fuel start tm p lines w = (o, w', l) ->
  (turns_left start tm (clock w) < fuel)%nat ->
  Forall is_sleep l /\ clock w <= clock w'
  /\ o <> OutOfFuel /\ (forall e, o <> Raise e).
Proof.
  induction fuel as [|fuel IH]; intros start tm p lines w o w' l H Hf; [lia|].
  apply stream_loop_turn in H.
  destruct H as [(rc & _ & -> & -> & ->)
                | [(_ & _ & [(_ & -> & -> & ->) | (now' & Ht & -> & -> & ->)])
                  | (_ & Ht & [(_ & -> & -> & ->)
                              | (line & p' & now' & l2 & Hr & El & ->)])]].
  - repeat split; auto; try lia; discriminate.
  - repeat split; auto; try lia; discriminate.
  - apply terminate_and_wait_spec in Ht. simpl.
    repeat split; auto; try lia; discriminate.
  - repeat split; auto; try lia; discriminate.
  - apply readline_spec in Hr. destruct Hr as (Hn & _).
    apply IH in El.
    + destruct El as (Hs & Hc & Ho & Hr). simpl in Hc.
      repeat split; auto; try lia. constructor; [exact I | assumption].
    + simpl. pose proof (turns_left_sleep start tm (clock w) now' Ht Hn). lia.
Qed.

(** The loop returns when the pipe reaches end of file and the child
    ends, of its own accord or when terminated. *)
Lemma stream_loop_no_hang fuel : forall start tm p lines w o w' l,
  stream_loop fuel start tm p lines w = (o, w', l) ->
  eof_at p <> None -> (exit_at p <> None \/ term_delay p <> None) ->
  o <> Hang.
Proof.
  induction fuel as [|fuel IH]; intros start tm p lines w o w' l H He Hx.
  - inv H. discriminate.
  - apply stream_loop_turn in H.
    destruct H as [(rc & _ & -> & -> & ->)
                  | [(_ & _ & [(Ht & -> & -> & ->) | (now' & Ht & -> & -> & ->)])
                    | (_ & Ht & [(Hr & -> & -> & ->)
                                | (line & p' & now' & l2 & Hr & El & ->)])]];
      try discriminate.
    + exfalso. unfold terminate_and_wait in Ht.
      destruct (exit_at p) as [[te rc]|], (term_delay p) as [d|];
        try discriminate. destruct Hx; congruence.
    + exfalso. exact (readline_from_eof _ _ _ _ He Hr).
    + apply readline_spec in Hr. destruct Hr as (_ & Hx' & He' & Ht').
      apply IH in El; [exact El | congruence | rewrite Hx', Ht'; exact Hx].
Qed.

Lemma poll_exit_code p now rc :
  poll p now = Some rc -> exists te, exit_at p = Some (te, rc) /\ te <= now.
Proof.
  unfold poll. destruct (exit_at p) as [[te rc']|]; [|discriminate].
  destruct (te <=? now) eqn:E; [|discriminate].
  intros H. injection H as ->. apply Z.leb_le in E. eauto.
Qed.

(** The code with which the loop ends is the exit code of the child, who
    has exited by then; the pipe still has the end of file it had. *)
Lemma stream_loop_exit_code fuel : forall start tm p lines w rc p' lines' w' l,
  stream_loop fuel start tm p lines w = (Ret (Exited rc p' lines'), w', l) ->
  exists te, exit_at p = Some (te, rc) /\ te <= clock w'
             /\ eof_at p' = eof_at p.
Proof.
  induction fuel as [|fuel IH]; intros start tm p lines w rc p' lines' w' l H.
  - discriminate.
  - apply stream_loop_turn in H.
    destruct H as [(rc0 & Hp & Ho & -> & ->)
                  | [(_ & _ & [(_ & Ho & _) | (now' & _ & Ho & _)])
                    | (_ & _ & [(_ & Ho & _)
                               | (line & p1 & now' & l2 & Hr & El & ->)])]];
      try discriminate.
    + inv Ho. apply poll_exit_code in Hp. destruct Hp as (te & E & Hte). eauto.
    + apply IH in El. destruct El as (te & E & Hte & He).
      apply readline_spec in Hr. destruct Hr as (_ & Hx & He' & _).
      exists te. rewrite <- Hx, <- He'. auto.
Qed.


(** What [run_command] returns once the child has exited with code [rc],
    [lines] were streamed before and [remaining_output] was read after. *)
Definition after_exit (cmd : command) (rc : Z) (lines : list string)
    (remaining_output : string) : bool * list string :=
  let lines :=
    (lines ++ map PyStr.rstrip (PyStr.splitlines remaining_output))%list in
  if negb (rc =? 0) then (false, lines)
  else if is_xcopy cmd && reports_zero_copied lines then (false, lines)
  else (true, lines).

Definition timeout_or_default (timeout : option Z) : Z :=
  match timeout with Some t => t | None => 3600 end.

Lemma run_command_capture_eq cmd timeout w :
  run_command_capture cmd timeout w =
  match children w with
  | Some c :: rest =>
      let p := start_child c (clock w) in
      let tm := timeout_or_default timeout * 1000 in
      match stream_loop (loop_bound tm) (clock w) tm p [] (set_children rest w) with
      | (Ret (TimedOut lines), w', l) => (Ret (false, lines), w', l)
      | (Ret (Exited rc p' lines), w', l) =>
          match read_rest p' (clock w') with
          | Some (remaining_output, now') =>
              (Ret (after_exit cmd rc lines remaining_output),
               set_clock now' w', l)
          | None => (Hang, w', l)
          end
      | (Raise e, w', l) =>
          if is_exception e then (Ret (false, []), w', l) else (Raise e, w', l)
      | (Hang, w', l) => (Hang, w', l)
      | (OutOfFuel, w', l) => (OutOfFuel, w', l)
      end
  | None :: rest => (Ret (false, []), set_children rest w, [])
  | [] => (Ret (false, []), w, [])
  end.
Proof.
  unfold run_command_capture, catch, bind, popen, time_now, timeout_or_default.
  destruct (children w) as [|[c|] rest]; try reflexivity.
  cbv beta iota zeta. cbn [clock set_children].
  match goal with
  | |- context [stream_loop ?a ?b ?c ?d ?e ?f] =>
      destruct (stream_loop a b c d e f) as [[o1 w1] l1]
  end.
  destruct o1 as [r|e| |]; simpl; try reflexivity.
  - unfold after_exit. destruct r as [lines|rc p' lines]; simpl.
    + rewrite app_nil_r. reflexivity.
    + destruct (read_rest p' (clock w1)) as [[text now']|]; simpl;
        [|rewrite app_nil_r; reflexivity].
      destruct (negb (rc =? 0)); simpl; [rewrite app_nil_r; reflexivity|].
      destruct (is_xcopy cmd && reports_zero_copied _); simpl;
        rewrite app_nil_r; reflexivity.
  - destruct (is_exception e); simpl; [rewrite app_nil_r|]; reflexivity.
Qed.

Lemma loop_bound_enough tm start :
  (turns_left start tm start < loop_bound tm)%nat.
Proof.
  unfold turns_left, loop_bound.
  replace (start + tm - start) with tm by lia. lia.
Qed.

Lemma run_command_capture_spec cmd timeout w o w' l :
  run_command_capture cmd timeout w = (o, w', l) ->
  Forall is_sleep l /\ clock w <= clock w'
  /\ (o = Hang \/ exists b lines, o = Ret (b, lines)).
Proof.
  rewrite run_command_capture_eq.
  destruct (children w) as [|[c|] rest].
  - intros H. inv H. repeat split; auto; try lia. right. eauto.
  - cbv zeta.
    match goal with
    | |- context [stream_loop ?a ?b ?c ?d ?e ?f] =>
        destruct (stream_loop a b c d e f) as [[o1 w1] l1] eqn:El
    end.
    apply stream_loop_spec in El; [|apply loop_bound_enough].
    destruct El as [Hs [Hc [Ho Hr]]]. simpl in Hc.
    destruct o1 as [r|e| |].
    + destruct r as [lines|rc p' lines].
      * intros H. inv H. repeat split; auto. right. eauto.
      * destruct (read_rest p' (clock w1)) as [[text now']|] eqn:Er;
          intros H; inv H.
        -- apply read_rest_spec in Er. simpl.
           repeat split; auto; try lia. right.
           destruct (after_exit cmd rc lines text) as [b ls]. eauto.
        -- repeat split; auto.
    + exfalso. apply (Hr e). reflexivity.
    + intros H. inv H. repeat split; auto.
    + congruence.
  - intros H. inv H. repeat split; auto; simpl; try lia. right. eauto.
Qed.

Lemma run_command_spec cmd timeout w o w' l :
  run_command cmd timeout w = (o, w', l) ->
  Forall is_sleep l /\ clock w <= clock w'
  /\ (o = Hang \/ exists b, o = Ret b).
Proof.
  unfold run_command. intros H. apply bind_inv in H.
  destruct H as [(r & w1 & l1 & l2 & Hm & Hk & ->) | (o1 & Hm & Hr & ->)].
  - apply run_command_capture_spec in Hm. destruct Hm as [Hs [Hc _]].
    inversion Hk; subst. rewrite app_nil_r. repeat split; auto. right. eauto.
  - apply run_command_capture_spec in Hm. destruct Hm as [Hs [Hc Ho]].
    repeat split; auto. destruct Ho as [-> | [b [lines ->]]]; [left; reflexivity|].
    discriminate.
Qed.

Lemma run_command_of_capture cmd timeout w o w' l :
  run_command_capture cmd timeout w = (o, w', l) ->
  run_command cmd timeout w
  = (match o with Ret r => Ret (fst r) | other => propagate other end, w', l).
Proof.
  intros H. unfold run_command. destruct o as [r|e| |].
  - rewrite (bind_run _ _ _ _ _ _ H). simpl. rewrite app_nil_r. reflexivity.
  - rewrite (bind_stop _ _ _ _ _ _ H eq_refl). reflexivity.
  - rewrite (bind_stop _ _ _ _ _ _ H eq_refl). reflexivity.
  - rewrite (bind_stop _ _ _ _ _ _ H eq_refl). reflexivity.
Qed.

(** A child comes to an end for [run_command] when its pipe reaches end
    of file and the child exits, of its own accord or when terminated. *)
Definition comes_to_an_end (c : child) : Prop :=
  closes c <> None /\ (finish c <> None \/ sigterm c <> None).

Lemma start_child_fields c t :
  (eof_at (start_child c t) = None <-> closes c = None)
  /\ (exit_at (start_child c t) = None <-> finish c = None)
  /\ (term_delay (start_child c t) = None <-> sigterm c = None)
  /\ (forall te rc, exit_at (start_child c t) = Some (te, rc) <->
                    exists d, finish c = Some (d, rc) /\ te = t + Z.of_N d).
Proof.
  unfold start_child. destruct (schedule t (chunks c)) as [l tend]. simpl.
  repeat split; try (intros H);
    try (destruct (closes c); congruence);
    try (destruct (sigterm c); congruence);
    try (destruct (finish c) as [[d rc]|]; congruence).
  - destruct (finish c) as [[d rc0]|]; [|discriminate].
    inv H. exists d. auto.
  - destruct H as (d & -> & ->). reflexivity.
Qed.

(** [run_command] returns a boolean whenever the child it starts comes to
    an end (and whenever no child can be started). *)
Lemma run_command_capture_returns cmd timeout w :
  match children w with
  | Some c :: _ => comes_to_an_end c
  | _ => True
  end ->
  exists b lines w' l,
    run_command_capture cmd timeout w = (Ret (b, lines), w', l).
Proof.
  intros Hc.
  destruct (run_command_capture cmd timeout w) as [[o w'] l] eqn:E.
  pose proof (run_command_capture_spec _ _ _ _ _ _ E) as [_ [_ Ho]].
  destruct Ho as [-> | [b [lines ->]]]; [|eauto].
  exfalso. rewrite run_command_capture_eq in E.
  destruct (children w) as [|[c|] rest]; try discriminate.
  cbv zeta in E. destruct Hc as (Hcl & Hfin).
  destruct (start_child_fields c (clock w)) as (Fe & Fx & Ft & _).
  match type of E with
  | context [stream_loop ?a ?b ?c ?d ?e ?f] =>
      destruct (stream_loop a b c d e f) as [[o1 w1] l1] eqn:El
  end.
  pose proof (stream_loop_no_hang _ _ _ _ _ _ _ _ _ El) as Hh.
  destruct o1 as [r|e| |]; try discriminate.
  - destruct r as [lines|rc p' lines]; [discriminate|].
    apply stream_loop_exit_code in El. destruct El as (te & _ & _ & He).
    unfold read_rest in E. rewrite He in E.
    destruct (eof_at (start_child c (clock w))) eqn:Ee; [discriminate|].
    apply Hcl, Fe. reflexivity.
  - destruct (is_exception e); discriminate.
  - apply Hh; [| |reflexivity].
    + intros H. apply Hcl, Fe, H.
    + destruct Hfin as [Hf | Hs]; [left | right]; intros H.
      * apply Hf, Fx, H.
      * apply Hs, Ft, H.
Qed.

(** What a run that returns [True] tells of the child. *)
Lemma run_command_true_inv cmd timeout w w' l :
  run_command cmd timeout w = (Ret true, w', l) ->
  exists c rest d, children w = Some c :: rest /\ finish c = Some (d, 0).
Proof.
  intros H.
  destruct (run_command_capture cmd timeout w) as [[o w1] l1] eqn:E.
  rewrite (run_command_of_capture _ _ _ _ _ _ E) in H.
  rewrite run_command_capture_eq in E.
  destruct (children w) as [|[c|] rest].
  - inv E. discriminate.
  - cbv zeta in E.
    match type of E with
    | context [stream_loop ?a ?b ?c ?d ?e ?f] =>
        destruct (stream_loop a b c d e f) as [[o2 w2] l2] eqn:El
    end.
    destruct o2 as [r|e| |].
    + destruct r as [lines|rc p' lines].
      * inv E. discriminate.
      * apply stream_loop_exit_code in El. destruct El as (te & Hx & _).
        apply (proj2 (proj2 (proj2 (start_child_fields c (clock w))))) in Hx.
        destruct Hx as (d & Hf & _).
        destruct (read_rest p' (clock w2)) as [[text now']|];
          [|inv E; discriminate].
        unfold after_exit in E.
        destruct (rc =? 0) eqn:Erc.
        -- apply Z.eqb_eq in Erc. subst rc. exists c, rest, d. auto.
        -- simpl in E. inv E. discriminate.
    + destruct (is_exception e); inv E; discriminate.
    + inv E. discriminate.
    + inv E. discriminate.
  - inv E. discriminate.
Qed.




(** A child that writes nothing, never exits and keeps the pipe open: the
    first [readline] never returns, so neither does [run_command],
    whatever the (non-negative) timeout. *)
Lemma run_command_blocks_on_silent_child cmd timeout w rest s :
  children w = Some (mkChild [] None None s) :: rest ->
  0 <= timeout_or_default timeout ->
  run_command cmd timeout w = (Hang, set_children rest w, []).
Proof.
  intros Hc Ht.
  assert (H : run_command_capture cmd timeout w
              = (Hang, set_children rest w, [])).
  { rewrite run_command_capture_eq, Hc. cbv zeta.
    unfold start_child. simpl schedule. cbv iota beta.
    unfold loop_bound. rewrite stream_loop_step.
    unfold bind, time_now, poll. simpl.
    replace (clock w - clock w) with 0 by lia.
    destruct (0 >? timeout_or_default timeout * 1000) eqn:E.
    - apply Z.gtb_lt in E. lia.
    - reflexivity. }
  unfold run_command. rewrite (bind_stop _ _ _ _ _ _ H eq_refl). reflexivity.
Qed.

(** ** is_process_running, kill_qt_creator, quit_qt_creator_gracefully *)

Lemma is_process_running_spec name w o w' l :
  is_process_running name w = (o, w', l) ->
  exists b, o = Ret b /\ l = [EvLiveness name b] /\ clock w' = clock w.
Proof.
  unfold is_process_running, catch_all, bind, subprocess_run, tell, ret.
  destruct on_windows; destruct (proc_table w) as [|[r|] rest];
    simpl; intros H; inv H; eauto.
Qed.

Lemma kill_with_spec site cmd w o w' l :
  kill_with site cmd w = (o, w', l) ->
  clock w <= clock w' /\
  ((exists b sl, o = Ret b /\ l = (sl ++ [EvKillResult site b])%list
                 /\ Forall is_sleep sl)
   \/ (o = Hang /\ Forall is_sleep l)).
Proof.
  unfold kill_with. intros H. apply bind_inv in H.
  destruct H as [(a & w1 & l1 & l2 & Hm & H & ->) | (o1 & Hm & Hr & ->)].
  - apply run_command_spec in Hm. destruct Hm as [Hs [Hc _]].
    unfold bind, tell, ret in H. simpl in H. inv H.
    split; [assumption|]. left. exists a, l1. auto.
  - apply run_command_spec in Hm. destruct Hm as [Hs [Hc Ho]].
    split; [assumption|]. right.
    destruct Ho as [-> | [b ->]]; [auto | discriminate].
Qed.

Lemma reports_success_false result : reports_success result = false.
Proof. destruct result; reflexivity. Qed.

Lemma sleep_inv ms w o w' l :
  sleep ms w = (o, w', l) ->
  o = Ret tt /\ clock w' = clock w + Z.max 0 ms /\ l = [EvSleep ms].
Proof. unfold sleep. intros H. inv H. auto. Qed.

Lemma time_now_inv w o w' l :
  time_now w = (o, w', l) -> o = Ret (clock w) /\ w' = w /\ l = [].
Proof. unfold time_now. intros H. inv H. auto. Qed.

Lemma returncode_is_zero_inv result w o w' l :
  returncode_is_zero result w = (o, w', l) ->
  w' = w /\ l = [] /\
  ((result = true /\ o = Raise AttributeError) \/ (result = false /\ o = Ret false)).
Proof. unfold returncode_is_zero. destruct result; intros H; inv H; auto. Qed.

(** The events that [kill_qt_creator] can log and go on. *)
Definition harmless (e : event) : Prop :=
  match e with
  | EvKillResult UnixPkill true => False
  | EvKillResult UnixKillall true => False
  | _ => True
  end.

Lemma is_sleep_harmless l : Forall is_sleep l -> Forall harmless l.
Proof.
  apply Forall_impl. intros [] H; simpl in *; auto; contradiction.
Qed.

(** Walks through a run of a sequence of calls: every bind is split into
    its two ways of ending, every call is replaced by its
    specification, every test by its two branches. *)
Ltac explore_with extra :=
  repeat
    (subst;
     first [ extra | 
     match goal with
     | H : context [reports_success _] |- _ => rewrite reports_success_false in H
     | H : bind _ _ _ = _ |- _ =>
         apply bind_inv in H;
         destruct H as [(? & ? & ? & ? & ? & ? & ?) | (? & ? & ? & ?)]
     | H : kill_with _ _ _ = _ |- _ =>
         apply kill_with_spec in H;
         destruct H as [? [(? & ? & ? & ? & ?) | [? ?]]]
     | H : is_process_running _ _ = _ |- _ =>
         apply is_process_running_spec in H; destruct H as (? & ? & ? & ?)
     | H : sleep _ _ = _ |- _ =>
         apply sleep_inv in H; destruct H as (? & ? & ?)
     | H : time_now _ = _ |- _ =>
         apply time_now_inv in H; destruct H as (? & ? & ?)
     | H : returncode_is_zero _ _ = _ |- _ =>
         apply returncode_is_zero_inv in H;
         destruct H as (? & ? & [[? ?] | [? ?]])
     | H : ret _ _ = _ |- _ => inv H
     | H : (if ?c then _ else _) _ = _ |- _ => destruct c eqn:?
     | H : match ?r with Some _ => _ | None => _ end _ = _ |- _ => destruct r eqn:?
     | H : Ret _ = Ret _ |- _ => inv H
     | H : Ret _ = Hang |- _ => discriminate H
     | H : Ret _ = Raise _ |- _ => discriminate H
     | H : Hang = Ret _ |- _ => discriminate H
     | H : Raise _ = Ret _ |- _ => discriminate H
     | H : returned (Ret _) = false |- _ => discriminate H
     | H : Ret _ = propagate ?x |- _ => destruct x; simpl in H; discriminate H
     | H : true = false |- _ => discriminate H
     | H : false = true |- _ => discriminate H
     end ]);
  subst.

Ltac explore := explore_with ltac:(fail).

Ltac harmless_log :=
  repeat rewrite app_nil_r;
  repeat (apply Forall_app; split);
  auto using is_sleep_harmless;
  repeat (constructor; simpl; auto).

(** The Windows branch never decides: it hands over to the check of the
    elapsed time (or blocks inside a command). *)
Lemma windows_methods_spec config w o w' l :
  windows_methods config w = (o, w', l) ->
  clock w <= clock w' /\ Forall harmless l /\ (o = Ret None \/ o = Hang).
Proof.
  unfold windows_methods. intros H. explore;
    (split; [simpl in *; lia|]; split; [harmless_log | simpl; auto]).
Qed.

(** The branch of the other systems: either every command reported
    failure, or the function raises. *)
Lemma unix_methods_spec config w o w' l :
  unix_methods config w = (o, w', l) ->
  clock w <= clock w' /\
  ((Forall harmless l /\ (o = Ret None \/ o = Hang))
   \/ o = Raise AttributeError).
Proof.
  unfold unix_methods. intros H. explore;
    (split; [simpl in *; lia|]);
    try (right; reflexivity);
    (left; split; [harmless_log | simpl; auto]).
Qed.

Ltac methods_specs :=
  match goal with
  | H : windows_methods _ _ = _ |- _ =>
      apply windows_methods_spec in H; destruct H as [? [? [? | ?]]]
  | H : unix_methods _ _ = _ |- _ =>
      apply unix_methods_spec in H; destruct H as [? [[? [? | ?]] | ?]]
  end.

Definition ends_with_negative_check (name : string) (l : list event) : Prop :=
  exists pre, l = (pre ++ [EvLiveness name false])%list.

Lemma ends_with_negative_check_app name l1 l2 :
  ends_with_negative_check name l2 ->
  ends_with_negative_check name (l1 ++ l2).
Proof.
  intros [pre ->]. exists (l1 ++ pre)%list. rewrite app_assoc. reflexivity.
Qed.

(** One attempt returns [True] only straight after a liveness check that
    found the process gone. *)
Lemma kill_attempt_true config start tm w w' l :
  kill_attempt config start tm w = (Ret (Some true), w', l) ->
  ends_with_negative_check (process_name config) l.
Proof.
  unfold kill_attempt. intros H. explore_with ltac:(idtac; methods_specs);
    try discriminate.
  match goal with
  | E : negb ?b = true |- _ => destruct b; [discriminate E|]
  end.
  rewrite app_nil_r.
  repeat (apply ends_with_negative_check_app). exists []. reflexivity.
Qed.

(** An attempt that hands over to the next one has slept three seconds
    at least, and the clock never goes back. *)
Lemma kill_attempt_clock config start tm w o w' l :
  kill_attempt config start tm w = (o, w', l) ->
  clock w <= clock w' /\ (o = Ret None -> clock w + 3000 <= clock w')
  /\ o <> OutOfFuel.
Proof.
  unfold kill_attempt. intros H. explore_with ltac:(idtac; methods_specs);
    (split; [simpl in *; lia|]; split;
     [intros E; try discriminate E; simpl in *; lia | simpl; discriminate]).
Qed.

Lemma kill_attempt_unix config start tm w o w' l :
  on_windows = false ->
  kill_attempt config start tm w = (o, w', l) ->
  Forall harmless l \/ o = Raise AttributeError.
Proof.
  unfold kill_attempt. intros Hw H. rewrite Hw in H.
  explore_with ltac:(idtac; methods_specs);
    try (right; reflexivity); left; harmless_log.
Qed.

Lemma kill_loop_true config start tm fuel : forall w w' l,
  kill_loop fuel config start tm w = (Ret true, w', l) ->
  ends_with_negative_check (process_name config) l.
Proof.
  induction fuel as [|fuel IH]; intros w w' l H; [discriminate|].
  simpl in H. explore.
  - match goal with
    | E : kill_attempt _ _ _ _ = _ |- _ => apply kill_attempt_true in E
    end.
    rewrite app_nil_r. apply ends_with_negative_check_app. assumption.
  - match goal with
    | E : kill_loop _ _ _ _ _ = _ |- _ => apply IH in E
    end.
    repeat apply ends_with_negative_check_app. assumption.
Qed.

Lemma kill_loop_unix config start tm fuel : forall w o w' l,
  on_windows = false ->
  kill_loop fuel config start tm w = (o, w', l) ->
  Forall harmless l \/ o = Raise AttributeError.
Proof.
  induction fuel as [|fuel IH]; intros w o w' l Hw H.
  - inv H. left. constructor.
  - simpl in H. explore;
      try (match goal with
           | E : kill_attempt _ _ _ _ = _ |- _ =>
               apply (kill_attempt_unix _ _ _ _ _ _ _ Hw) in E;
               destruct E as [E | E]; [|try discriminate E]
           end);
      try (match goal with
           | E : kill_loop _ _ _ _ _ = _ |- _ =>
               apply (IH _ _ _ _ Hw) in E; destruct E as [E | E]
           end);
      subst; simpl; auto;
      left; harmless_log.
Qed.

(** The loop bound of the embedding is never reached. *)
Lemma kill_loop_total config start tm fuel : forall w o w' l,
  kill_loop fuel config start tm w = (o, w', l) ->
  (1 <= fuel)%nat ->
  tm - (clock w - start) <= 3000 * (Z.of_nat fuel - 1) ->
  o <> OutOfFuel.
Proof.
  induction fuel as [|fuel IH]; intros w o w' l H Hf Hb; [lia|].
  simpl in H. explore; try discriminate.
  - match goal with
    | E : (_ <? _) = true |- _ => apply Z.ltb_lt in E
    end.
    match goal with
    | E : kill_attempt _ _ _ _ = _ |- _ =>
        apply kill_attempt_clock in E; destruct E as [_ [Hc _]];
        specialize (Hc eq_refl)
    end.
    match goal with
    | E : kill_loop _ _ _ _ _ = _ |- _ => apply IH in E; [assumption | lia | lia]
    end.
  - match goal with
    | E : kill_attempt _ _ _ _ = _ |- _ =>
        apply kill_attempt_clock in E; destruct E as [_ [_ Ho]]
    end.
    match goal with
    | x : outcome _ |- _ => destruct x; simpl in *; congruence
    end.
Qed.

Lemma kill_qt_creator_total config timeout_seconds w :
  fst (fst (kill_qt_creator config timeout_seconds w)) <> OutOfFuel.
Proof.
  destruct (kill_qt_creator config timeout_seconds w) as [[o w'] l] eqn:E.
  simpl. unfold kill_qt_creator in E. explore; try discriminate.
  match goal with
  | E : kill_loop _ _ _ _ _ = _ |- _ =>
      apply kill_loop_total in E; [assumption | lia |]
  end.
  rewrite Nat2Z.inj_succ.
  destruct (Z_lt_le_dec timeout_seconds 0).
  - lia.
  - rewrite Z2Nat.id by (pose proof (Z.div_pos timeout_seconds 3); lia).
    pose proof (Z.mul_succ_div_gt timeout_seconds 3). lia.
Qed.

Lemma wait_for_quit_true name n : forall w w' l,
  wait_for_quit n name w = (Ret true, w', l) ->
  ends_with_negative_check name l.
Proof.
  induction n as [|n IH]; intros w w' l H; [discriminate|].
  simpl in H. explore.
  - match goal with
    | E : negb ?b = true |- _ => destruct b; [discriminate E|]
    end.
    exists []. reflexivity.
  - match goal with
    | E : wait_for_quit _ _ _ = _ |- _ => apply IH in E
    end.
    repeat apply ends_with_negative_check_app. assumption.
Qed.

(** C1: whenever [kill_qt_creator] or [quit_qt_creator_gracefully]
    returns [True], the last thing done before returning was a liveness
    check of the target process that reported it as not running; no
    success is returned on the word of a termination command alone. *)
Theorem success_only_after_negative_liveness_check config timeout_seconds w w' l :
  kill_qt_creator config timeout_seconds w = (Ret true, w', l)
  \/ quit_qt_creator_gracefully config w = (Ret true, w', l) ->
  ends_with_negative_check (process_name config) l.
Proof.
  intros [H | H].
  - unfold kill_qt_creator in H. explore.
    match goal with
    | E : kill_loop _ _ _ _ _ = _ |- _ => apply kill_loop_true in E
    end.
    assumption.
  - unfold quit_qt_creator_gracefully in H.
    apply bind_ret_inv in H. destruct H as (responding & w1 & l1 & l2 & _ & H & ->).
    destruct responding; [|discriminate].
    apply bind_ret_inv in H. destruct H as (r & w2 & l3 & l4 & _ & H & ->).
    apply wait_for_quit_true in H.
    repeat apply ends_with_negative_check_app. assumption.
Qed.

(** C10: on a system other than Windows, whenever the pkill or the
    killall command run through [run_command] returns [True],
    [kill_qt_creator] raises [AttributeError] (the boolean has no
    attribute [returncode]) instead of returning a boolean. *)
Theorem unix_kill_success_raises_attribute_error config timeout_seconds w o w' l :
  on_windows = false ->
  kill_qt_creator config timeout_seconds w = (o, w', l) ->
  In (EvKillResult UnixPkill true) l \/ In (EvKillResult UnixKillall true) l ->
  o = Raise AttributeError.
Proof.
  intros Hw H Hin. unfold kill_qt_creator in H. explore. simpl in Hin.
  match goal with
  | E : kill_loop _ _ _ _ _ = _ |- _ =>
      apply (kill_loop_unix _ _ _ _ _ _ _ _ Hw) in E;
      destruct E as [Hh | ->]; [|reflexivity]
  end.
  exfalso. rewrite Forall_forall in Hh.
  destruct Hin as [Hin | Hin]; apply Hh in Hin; exact Hin.
Qed.

(** ** get_mcp_timeout_for_function *)

(** The schema as the function sees it: unreadable file and unparsable
    text count as a failed lookup. *)
Definition schema_status (function_name : string) (w : World) : lookup_result :=
  match content (fs w "mcp.json"), readable (fs w "mcp.json") with
  | Some text, true =>
      match json_loads text with
      | Some mcp_data => schema_lookup mcp_data function_name
      | None => LookupFailed
      end
  | _, _ => LookupFailed
  end.

Lemma schema_timeout_eq f w :
  schema_timeout f w = (Ret (schema_status f w), w, []).
Proof.
  unfold schema_timeout, schema_status, catch_all, bind, read_file, ret, raise.
  destruct (content (fs w "mcp.json")) as [text|]; [|reflexivity].
  destruct (readable (fs w "mcp.json")); [|reflexivity].
  destruct (json_loads text); reflexivity.
Qed.

Definition timeout_value (f : string) (w : World) : Z :=
  match schema_status f w with
  | Found seconds => seconds
  | _ => map_get f timeout_map 5
  end.

Lemma get_mcp_timeout_eq f w :
  get_mcp_timeout_for_function f w = (Ret (timeout_value f w), w, []).
Proof.
  unfold get_mcp_timeout_for_function, timeout_value.
  rewrite (bind_run _ _ _ _ _ _ (schema_timeout_eq f w)).
  destruct (schema_status f w); reflexivity.
Qed.

Definition default_lookup (key : string) (fields : list (string * json))
    (default : json) : json :=
  match Py.lookup key fields with
  | Some x => x
  | None => default
  end.

(** Whether an element of the tool list is an entry for [f]; [None] for
    an element that is not an object. *)
Definition names_tool (f : string) (tool : json) : option bool :=
  match tool with
  | JObj fields => Some (Py.eq_str (default_lookup "name" fields JNull) f)
  | _ => None
  end.

Lemma scan_tools_found f fields post pre :
  Forall (fun tool => names_tool f tool = Some false) pre ->
  names_tool f (JObj fields) = Some true ->
  scan_tools (pre ++ JObj fields :: post) f
  = Found (timeout_of_string (default_lookup "timeout" fields (JStr "default"))).
Proof.
  intros Hpre Hn. induction Hpre as [|tool pre Ht _ IH]; simpl.
  - unfold names_tool, default_lookup in Hn. injection Hn as E.
    unfold default_lookup. rewrite E. reflexivity.
  - destruct tool; simpl in Ht; try discriminate.
    unfold default_lookup in Ht. injection Ht as E. simpl. rewrite E. exact IH.
Qed.

Lemma scan_tools_no_entry f tools :
  Forall (fun tool => names_tool f tool = Some false) tools ->
  scan_tools tools f = NoEntry.
Proof.
  intros H. induction H as [|tool tools Ht _ IH]; simpl; [reflexivity|].
  destruct tool; simpl in Ht; try discriminate.
  unfold default_lookup in Ht. injection Ht as E. simpl. rewrite E. exact IH.
Qed.

(** The schema holds a list of tool objects under mcp.tools. *)
Definition schema_tools (w : World) (tools : list json) : Prop :=
  exists text d m,
    content (fs w "mcp.json") = Some text /\ readable (fs w "mcp.json") = true
    /\ json_loads text = Some (JObj d)
    /\ Py.lookup "mcp" d = Some (JObj m)
    /\ Py.lookup "tools" m = Some (JArr tools).

Lemma schema_status_tools f w tools :
  schema_tools w tools -> schema_status f w = scan_tools tools f.
Proof.
  intros (text & d & m & Hc & Hr & Hj & Hm & Ht).
  unfold schema_status. rewrite Hc, Hr, Hj.
  unfold schema_lookup, tools_of. simpl. rewrite Hm. simpl. rewrite Ht. reflexivity.
Qed.

Lemma map_get_absent key m default :
  ~ In key (map fst m) -> map_get key m default = default.
Proof.
  induction m as [|[k v] m IH]; simpl; intros H; [reflexivity|].
  destruct (String.eqb_spec k key) as [E | E]; [exfalso; auto|].
  apply IH. intros Hin. apply H. auto.
Qed.

(** The seconds that the timeout text of a schema entry stands for. *)
Definition text_in_seconds (text : json) (seconds : Z) : Prop :=
  (text = JStr "default" -> seconds = 5)
  /\ (text = JStr "1 minute" -> seconds = 60)
  /\ (text = JStr "2 minutes" -> seconds = 120)
  /\ (text = JStr "20 minutes" -> seconds = 1200)
  /\ (text <> JStr "1 minute" -> text <> JStr "2 minutes" ->
      text <> JStr "20 minutes" -> seconds = 5).

(** The seconds of the hardcoded table, 5 for a method it does not
    have. *)
Definition hardcoded_seconds (f : string) (seconds : Z) : Prop :=
  (f = "build" -> seconds = 1200)
  /\ (f = "debug" -> seconds = 60)
  /\ (f = "loadSession" -> seconds = 120)
  /\ (f = "get_plugin_version" \/ f = "initialize" \/ f = "quit" ->
      seconds = 1)
  /\ (~ In f ["build"; "debug"; "loadSession"; "get_plugin_version";
              "initialize"; "quit"] -> seconds = 5).

Lemma eq_str_spec v s : Py.eq_str v s = true <-> v = JStr s.
Proof.
  destruct v; simpl; try (split; [discriminate | intros H; discriminate]).
  split.
  - intros H. apply String.eqb_eq in H. congruence.
  - intros H. injection H as ->. apply String.eqb_refl.
Qed.

Lemma timeout_of_string_seconds v : text_in_seconds v (timeout_of_string v).
Proof.
  unfold text_in_seconds, timeout_of_string.
  destruct (Py.eq_str v "default") eqn:E0;
    [apply eq_str_spec in E0; subst v; repeat split; intros; congruence|].
  destruct (Py.eq_str v "1 minute") eqn:E1;
    [apply eq_str_spec in E1; subst v; repeat split; intros; congruence|].
  destruct (Py.eq_str v "2 minutes") eqn:E2;
    [apply eq_str_spec in E2; subst v; repeat split; intros; congruence|].
  destruct (Py.eq_str v "20 minutes") eqn:E3;
    [apply eq_str_spec in E3; subst v; repeat split; intros; congruence|].
  repeat split; intros H; try reflexivity;
    apply eq_str_spec in H; congruence.
Qed.

Lemma map_get_hardcoded f : hardcoded_seconds f (map_get f timeout_map 5).
Proof.
  unfold hardcoded_seconds, timeout_map. cbn [map_get].
  repeat match goal with
         | |- context [String.eqb ?k f] => destruct (String.eqb_spec k f)
         end;
    subst; repeat split; intros H; try reflexivity; try discriminate;
    try (destruct H as [H | [H | H]]; discriminate);
    try (exfalso; apply H; simpl; auto 10; fail).
  all: try congruence.
  all: destruct H as [H | [H | H]]; congruence.
Qed.

(** The lookup in the schema comes back empty-handed: the file is
    missing, unreadable or unparsable, it lists no entry for [f], or an
    element that is not an object stands before every such entry. *)
Definition schema_unusable (f : string) (w : World) : Prop :=
  content (fs w "mcp.json") = None
  \/ readable (fs w "mcp.json") = false
  \/ (exists text, content (fs w "mcp.json") = Some text
                   /\ json_loads text = None)
  \/ (exists tools,
         schema_tools w tools
         /\ Forall (fun tool => names_tool f tool = Some false) tools)
  \/ (exists pre stray post,
         schema_tools w (pre ++ stray :: post)
         /\ Forall (fun tool => names_tool f tool = Some false) pre
         /\ names_tool f stray = None).

Lemma scan_tools_stray f stray post pre :
  Forall (fun tool => names_tool f tool = Some false) pre ->
  names_tool f stray = None ->
  scan_tools (pre ++ stray :: post) f = LookupFailed.
Proof.
  intros Hpre Hn. induction Hpre as [|tool pre Ht _ IH]; simpl.
  - destruct stray; simpl in Hn; try discriminate; reflexivity.
  - destruct tool; simpl in Ht; try discriminate.
    unfold default_lookup in Ht. injection Ht as E. simpl. rewrite E. exact IH.
Qed.

Lemma scan_tools_found_inv f tools seconds :
  scan_tools tools f = Found seconds ->
  exists pre fields post,
    tools = (pre ++ JObj fields :: post)%list
    /\ Forall (fun tool => names_tool f tool = Some false) pre
    /\ names_tool f (JObj fields) = Some true
    /\ seconds = timeout_of_string (default_lookup "timeout" fields (JStr "default")).
Proof.
  induction tools as [|tool tools IH]; simpl; [discriminate|].
  destruct tool as [| | | | |fields]; simpl; try discriminate.
  destruct (Py.eq_str _ f) eqn:E.
  - intros H. injection H as <-. exists [], fields, tools.
    split; [reflexivity|]. split; [constructor|].
    split; [unfold names_tool, default_lookup; rewrite E; reflexivity | reflexivity].
  - intros H. destruct (IH H) as (pre & fs' & post & -> & Hpre & Hn & Hs).
    exists (JObj fields :: pre), fs', post.
    split; [reflexivity|]. split; [|auto].
    constructor; [|exact Hpre]. unfold names_tool, default_lookup. rewrite E.
    reflexivity.
Qed.

Lemma chars_not_found f s : forall seconds, scan_tools (chars s) f <> Found seconds.
Proof. destruct s; simpl; discriminate. Qed.

Lemma keys_not_found f (fields : list (string * json)) : forall seconds,
  scan_tools (map (fun kv => JStr (fst kv)) fields) f <> Found seconds.
Proof. destruct fields; simpl; discriminate. Qed.

Lemma schema_status_found f w seconds :
  schema_status f w = Found seconds ->
  exists tools, schema_tools w tools /\ scan_tools tools f = Found seconds.
Proof.
  unfold schema_status, schema_tools.
  destruct (content (fs w "mcp.json")) as [text|]; [|discriminate].
  destruct (readable (fs w "mcp.json")); [|discriminate].
  destruct (json_loads text) as [mcp_data|] eqn:Ej; [|discriminate].
  unfold schema_lookup, tools_of.
  destruct mcp_data as [| | | | |d]; simpl; try discriminate.
  destruct (Py.lookup "mcp" d) as [m|] eqn:Em; [|simpl; discriminate].
  destruct m as [| | | | |m]; simpl; try discriminate.
  destruct (Py.lookup "tools" m) as [tools|] eqn:Et; [|simpl; discriminate].
  destruct tools as [| | |s|items|fields]; simpl; try discriminate.
  - intros H. exfalso. exact (chars_not_found _ _ _ H).
  - intros H. exists items. split; [|exact H].
    exists text, d, m. auto.
  - intros H. exfalso. exact (keys_not_found _ _ _ H).
Qed.

(** C9, as amended: the timeout of the first schema entry for the method
    is returned (5, 60, 120 or 1200 seconds, by its text) when mcp.json is
    readable and parses and every element before that entry is an object;
    the hardcoded map decides when the lookup comes back empty-handed
    (file missing, unreadable or unparsable, no entry, or an element that
    is not an object met first), with 5 seconds for a method it does not
    have; and every call returns a value of one of the two kinds. *)
Theorem get_mcp_timeout_schema_first f w :
  (forall pre fields post,
      schema_tools w (pre ++ JObj fields :: post) ->
      Forall (fun tool => names_tool f tool = Some false) pre ->
      names_tool f (JObj fields) = Some true ->
      exists seconds,
        get_mcp_timeout_for_function f w = (Ret seconds, w, [])
        /\ text_in_seconds (default_lookup "timeout" fields (JStr "default"))
             seconds)
  /\ (schema_unusable f w ->
      exists seconds,
        get_mcp_timeout_for_function f w = (Ret seconds, w, [])
        /\ hardcoded_seconds f seconds)
  /\ (exists seconds,
        get_mcp_timeout_for_function f w = (Ret seconds, w, [])
        /\ ((exists pre fields post,
                schema_tools w (pre ++ JObj fields :: post)
                /\ Forall (fun tool => names_tool f tool = Some false) pre
                /\ names_tool f (JObj fields) = Some true
                /\ text_in_seconds
                     (default_lookup "timeout" fields (JStr "default")) seconds)
            \/ hardcoded_seconds f seconds)).
Proof.
  split; [|split].
  - intros pre fields post Hs Hpre Hn.
    exists (timeout_of_string (default_lookup "timeout" fields (JStr "default"))).
    split; [|apply timeout_of_string_seconds].
    rewrite get_mcp_timeout_eq. unfold timeout_value.
    rewrite (schema_status_tools _ _ _ Hs), (scan_tools_found _ _ _ _ Hpre Hn).
    reflexivity.
  - intros H. exists (map_get f timeout_map 5).
    split; [|apply map_get_hardcoded].
    assert (E : timeout_value f w = map_get f timeout_map 5).
    { unfold timeout_value.
      destruct H as [H | [H | [(text & Hc & Hj)
                              | [(tools & Hs & Hall)
                                | (pre & stray & post & Hs & Hpre & Hn)]]]].
      - unfold schema_status. rewrite H. reflexivity.
      - unfold schema_status. rewrite H.
        destruct (content (fs w "mcp.json")); reflexivity.
      - unfold schema_status. rewrite Hc, Hj.
        destruct (readable (fs w "mcp.json")); reflexivity.
      - rewrite (schema_status_tools _ _ _ Hs), (scan_tools_no_entry _ _ Hall).
        reflexivity.
      - rewrite (schema_status_tools _ _ _ Hs),
          (scan_tools_stray _ _ _ _ Hpre Hn).
        reflexivity. }
    rewrite get_mcp_timeout_eq, E. reflexivity.
  - exists (timeout_value f w). split; [apply get_mcp_timeout_eq|].
    unfold timeout_value. destruct (schema_status f w) as [seconds| |] eqn:E.
    + left. apply schema_status_found in E. destruct E as (tools & Hs & Hf).
      apply scan_tools_found_inv in Hf.
      destruct Hf as (pre & fields & post & -> & Hpre & Hn & ->).
      exists pre, fields, post. repeat split; auto.
      all: apply timeout_of_string_seconds.
    + right. apply map_get_hardcoded.
    + right. apply map_get_hardcoded.
Qed.

(** ** send_mcp_command_socket *)

(** The data received when connecting, sending and receiving all go
    well. *)
Definition exchange (c : conn) : option string :=
  match connect c with
  | ConnOk =>
      if send_ok c then
        match recv c with
        | RecvData d => Some d
        | _ => None
        end
      else None
  | _ => None
  end.

Definition first_reply (w : World) : option string :=
  match conns w with
  | c :: _ => exchange c
  | [] => None
  end.

Lemma send_mcp_command_socket_eq command f w :
  send_mcp_command_socket command f w =
  match conns w with
  | [] => (Ret EmptyString, w, [EvSocketOpen])
  | c :: rest =>
      let w1 := set_conns rest w in
      let t := timeout_value f w * 1000 in
      let late := set_clock (clock w + Z.max 0 t) w1 in
      match connect c with
      | ConnRefused => (Ret EmptyString, w1, [EvSocketOpen])
      | ConnTimeout => (Ret EmptyString, late, [EvSocketOpen; EvSleep t])
      | ConnOk =>
          if send_ok c then
            match recv c with
            | RecvData d =>
                (Ret (PyStr.strip d), w1, [EvSocketOpen; EvReply d; EvSocketClose])
            | RecvTimeout => (Ret EmptyString, late, [EvSocketOpen; EvSleep t])
            | RecvError => (Ret EmptyString, w1, [EvSocketOpen])
            end
          else (Ret EmptyString, w1, [EvSocketOpen])
      end
  end.
Proof.
  unfold send_mcp_command_socket, catch.
  rewrite (bind_run _ _ _ _ _ _ (get_mcp_timeout_eq f w)).
  unfold bind, socket_open, socket_connect, socket_send, socket_recv,
    socket_close, sleep, raise, ret, tell.
  destruct (conns w) as [|c rest]; simpl; [reflexivity|].
  destruct (connect c); simpl; try reflexivity.
  destruct (send_ok c); simpl; try reflexivity.
  destruct (recv c); simpl; reflexivity.
Qed.

Definition no_reply (l : list event) : Prop :=
  forall d, ~ In (EvReply d) l.

Lemma send_mcp_command_socket_spec command f w :
  exists s w' l,
    send_mcp_command_socket command f w = (Ret s, w', l)
    /\ clock w <= clock w'
    /\ match first_reply w with
       | Some d => s = PyStr.strip d /\ l = [EvSocketOpen; EvReply d; EvSocketClose]
       | None => s = EmptyString /\ no_reply l
                 /\ In EvSocketOpen l /\ ~ In EvSocketClose l
       end.
Proof.
  clear platform.
  rewrite send_mcp_command_socket_eq. unfold first_reply, exchange, no_reply.
  destruct (conns w) as [|c rest].
  - do 3 eexists. split; [reflexivity|]. split; [lia|]. simpl.
    repeat split; auto; intros; intuition discriminate.
  - cbv zeta. destruct (connect c); [destruct (send_ok c); [destruct (recv c)|]| |];
      do 3 eexists; (split; [reflexivity|]); (split; [simpl; lia|]); simpl;
      repeat split; auto; intros; intuition discriminate.
Qed.

(** C8: when connecting, sending or receiving fails (refusal, timeout
    or any other error), [send_mcp_command_socket] returns the empty
    string having opened a socket that it does not close; only the
    successful exchange closes it. *)
Theorem socket_left_open_on_failure command f w :
  first_reply w = None ->
  exists w' l,
    send_mcp_command_socket command f w = (Ret EmptyString, w', l)
    /\ In EvSocketOpen l /\ ~ In EvSocketClose l.
Proof.
  intros Hf.
  destruct (send_mcp_command_socket_spec command f w) as (s & w' & l & E & _ & H).
  rewrite Hf in H. destruct H as (-> & _ & Ho & Hc). eauto.
Qed.

(** ** test_mcp_version *)

(** The reply reports a version whose third dot-separated component
    reads as the integer [n]. *)
Definition reports_patch (response : json) (n : Z) : Prop :=
  exists fields r s v major minor patch rest,
    response = JObj fields
    /\ Py.lookup "result" fields = Some (JObj r)
    /\ Py.lookup "serverInfo" r = Some (JObj s)
    /\ Py.lookup "version" s = Some (JStr v)
    /\ PyStr.split "." v = major :: minor :: patch :: rest
    /\ PyStr.int patch = Some n.

Lemma check_version_true version :
  check_version version = Some true <->
  exists v major minor patch rest n,
    version = JStr v /\ PyStr.split "." v = major :: minor :: patch :: rest
    /\ PyStr.int patch = Some n /\ 1 <= n.
Proof.
  unfold check_version. split.
  - destruct version as [| | |v| |]; try discriminate.
    destruct (PyStr.split "." v) as [|major [|minor [|patch rest]]] eqn:Es;
      try discriminate.
    destruct (PyStr.int patch) as [n|] eqn:En; [|discriminate].
    intros H. injection H as H. apply Z.leb_le in H.
    exists v, major, minor, patch, rest, n. auto.
  - intros (v & major & minor & patch & rest & n & -> & -> & -> & Hn).
    f_equal. apply Z.leb_le. assumption.
Qed.

(** The line that announces the version and the name of the server can
    be printed; a field that the reply does not have is announced as
    "unknown". *)
Definition announcement_printable (response : json) : Prop :=
  exists fields r s,
    response = JObj fields
    /\ Py.lookup "result" fields = Some (JObj r)
    /\ Py.lookup "serverInfo" r = Some (JObj s)
    /\ stdout_accepts (default_lookup "version" s (JStr "unknown")) = true
    /\ stdout_accepts (default_lookup "name" s (JStr "unknown")) = true.

Lemma check_initialize_response_true response :
  check_initialize_response response = Some true <->
  exists n, reports_patch response n /\ 1 <= n
            /\ announcement_printable response.
Proof.
  unfold check_initialize_response, reports_patch, announcement_printable.
  split.
  - destruct response as [| | |t|items|fields]; simpl; try discriminate.
    + destruct (PyStr.contains "result" t); discriminate.
    + destruct (existsb _ items); discriminate.
    + destruct (Py.lookup "result" fields) as [result|] eqn:Er; [|discriminate].
      destruct (Py.truthy result) eqn:Et; [|discriminate].
      destruct result as [| | | | |r]; simpl; try discriminate.
      destruct (Py.lookup "serverInfo" r) as [server_info|] eqn:Es.
      * destruct server_info as [| | | | |s]; simpl; try discriminate.
        destruct (stdout_accepts
                    match Py.lookup "version" s with
                    | Some x => x
                    | None => JStr "unknown"
                    end) eqn:Ev; [|discriminate].
        destruct (stdout_accepts
                    match Py.lookup "name" s with
                    | Some x => x
                    | None => JStr "unknown"
                    end) eqn:En; [|discriminate].
        simpl. intros H. apply check_version_true in H.
        destruct H as (v & major & minor & patch & rest & n & Hv & Hs & Hi & Hn).
        destruct (Py.lookup "version" s) as [version|] eqn:El.
        -- subst version. exists n. split; [|split; [assumption|]].
           ++ exists fields, r, s, v, major, minor, patch, rest.
              repeat split; assumption || reflexivity.
           ++ exists fields, r, s. unfold default_lookup. rewrite El.
              repeat split; assumption || reflexivity.
        -- exfalso. injection Hv as <-. vm_compute in Hs. discriminate.
      * simpl. destruct (stdout_accepts (JStr "unknown")); simpl;
          intros H; vm_compute in H; discriminate.
  - intros (n & (fields & r & s & v & major & minor & patch & rest
                 & -> & Hr & Hs & Hv & Hsp & Hi) & Hn
              & (fields' & r' & s' & Ef & Hr' & Hs' & Pv & Pn)).
    injection Ef as <-. rewrite Hr in Hr'. injection Hr' as <-.
    rewrite Hs in Hs'. injection Hs' as <-.
    unfold default_lookup in Pv, Pn.
    simpl. rewrite Hr.
    assert (Ht : Py.truthy (JObj r) = true) by (destruct r; [discriminate | reflexivity]).
    rewrite Hv in Pv.
    rewrite Ht. simpl. rewrite Hs. simpl. rewrite Hv, Pv, Pn. cbn [andb].
    apply check_version_true. exists v, major, minor, patch, rest, n. auto.
Qed.

(** What [test_mcp_version] answers on the text it received. *)
Definition version_verdict (response_data : string) : bool :=
  match response_data with
  | EmptyString => false
  | _ =>
      match json_loads response_data with
      | None => false
      | Some response =>
          match check_initialize_response response with
          | Some b => b
          | None => false
          end
      end
  end.

Lemma test_mcp_version_eq w s w' l :
  send_mcp_command_socket initialize_query "initialize" w = (Ret s, w', l) ->
  test_mcp_version w = (Ret (version_verdict s), w', l).
Proof.
  intros H. unfold test_mcp_version, catch, version_verdict.
  rewrite (bind_run _ _ _ _ _ _ H).
  destruct s as [|c s]; simpl; [rewrite app_nil_r; reflexivity|].
  destruct (json_loads (String c s)) as [response|]; simpl;
    [|rewrite app_nil_r; reflexivity].
  destruct (check_initialize_response response) as [b|]; simpl;
    repeat rewrite app_nil_r; reflexivity.
Qed.

(** C4, as amended: the check of the initialize reply passes exactly
    when a reply is received whose text is not empty, parses, and
    reports a version of at least three dot-separated components whose
    third one reads as an integer of at least 1, and the line announcing
    version and name can be printed.  The version that the pipeline has
    just written is not looked at. *)
Theorem test_mcp_version_checks_patch_at_least_one w :
  exists b w' l,
    test_mcp_version w = (Ret b, w', l)
    /\ (b = true <->
        exists data response n,
          first_reply w = Some data
          /\ PyStr.strip data <> EmptyString
          /\ json_loads (PyStr.strip data) = Some response
          /\ reports_patch response n /\ 1 <= n
          /\ announcement_printable response).
Proof.
  destruct (send_mcp_command_socket_spec initialize_query "initialize" w)
    as (s & w' & l & E & _ & H).
  exists (version_verdict s), w', l. split; [apply test_mcp_version_eq; assumption|].
  unfold version_verdict. split.
  - intros Hv. destruct (first_reply w) as [data|].
    + destruct H as [-> _]. exists data.
      destruct (PyStr.strip data) as [|c s'] eqn:Es; [discriminate|].
      destruct (json_loads (String c s')) as [response|]; [|discriminate].
      destruct (check_initialize_response response) as [b|] eqn:Ec; [|discriminate].
      subst b. apply check_initialize_response_true in Ec.
      destruct Ec as (n & Hp & Hn & Ha).
      exists response, n. repeat split; auto. discriminate.
    + destruct H as [-> _]. discriminate.
  - intros (data & response & n & Hf & Hne & Hj & Hp & Hn & Ha).
    rewrite Hf in H. destruct H as [-> _].
    destruct (PyStr.strip data) as [|c s']; [congruence|].
    rewrite Hj.
    assert (Ec : check_initialize_response response = Some true)
      by (apply check_initialize_response_true; eauto).
    rewrite Ec. reflexivity.
Qed.

(** ** poll_build_status *)

(** Whether a reply of the server makes the poller return [True]. *)
Definition reply_complete (data : string) : bool :=
  match PyStr.strip data with
  | EmptyString => false
  | String c s =>
      match interpret_response (String c s) with
      | Some Complete => true
      | _ => false
      end
  end.

Lemma poll_once_spec w :
  exists b w' l,
    poll_once w = (Ret b, w', l)
    /\ clock w <= clock w'
    /\ (b = true ->
        exists d, l = [EvSocketOpen; EvReply d; EvSocketClose]
                  /\ reply_complete d = true)
    /\ (b = false ->
        clock w + 2000 <= clock w'
        /\ forall d, In (EvReply d) l -> reply_complete d = false).
Proof.
  destruct (send_mcp_command_socket_spec status_query "getBuildStatus" w)
    as (s & w1 & l1 & E & Hc & H).
  unfold poll_once, catch. rewrite (bind_run _ _ _ _ _ _ E).
  assert (Hrep : forall d tl, In (EvReply d) (l1 ++ tl)%list ->
                           Forall is_sleep tl ->
                           reply_complete d = true -> s <> EmptyString /\
                           interpret_response s = Some Complete).
  { intros d tl Hin Htl Hd. apply in_app_or in Hin.
    destruct Hin as [Hin | Hin];
      [|rewrite Forall_forall in Htl; apply Htl in Hin; contradiction].
    destruct (first_reply w) as [d0|].
    - destruct H as [-> ->]. simpl in Hin.
      destruct Hin as [Hin | [Hin | [Hin | []]]]; try discriminate.
      injection Hin as ->. unfold reply_complete in Hd.
      destruct (PyStr.strip d); [discriminate|].
      destruct (interpret_response _) as [[|]|]; try discriminate.
      split; [discriminate | reflexivity].
    - destruct H as (_ & Hn & _). exfalso. exact (Hn d Hin). }
  destruct s as [|c s].
  - simpl. do 3 eexists. split; [reflexivity|]. simpl.
    split; [lia|]. split; [discriminate|]. intros _. split; [lia|].
    intros d Hin.
    destruct (reply_complete d) eqn:Ed; [|reflexivity].
    rewrite ?app_nil_r, <- ?app_assoc in Hin.
    apply Hrep in Hin; [destruct Hin as [Hne _]; congruence | | assumption].
    repeat constructor.
  - destruct (interpret_response (String c s)) as [[|]|] eqn:Ei; simpl.
    + do 3 eexists. split; [reflexivity|]. split; [assumption|].
      split; [|discriminate]. intros _.
      destruct (first_reply w) as [d|].
      * destruct H as [Hs ->]. exists d. split; [reflexivity|].
        unfold reply_complete. rewrite <- Hs, Ei. reflexivity.
      * destruct H as [Hs _]. discriminate.
    + do 3 eexists. split; [reflexivity|]. simpl.
      split; [lia|]. split; [discriminate|]. intros _. split; [lia|].
      intros d Hin.
      destruct (reply_complete d) eqn:Ed; [|reflexivity].
      rewrite ?app_nil_r, <- ?app_assoc in Hin.
      rewrite ?app_nil_r, <- ?app_assoc in Hin.
    apply Hrep in Hin; [destruct Hin as [_ Hi]; congruence | | assumption].
      repeat constructor.
    + do 3 eexists. split; [reflexivity|]. simpl.
      split; [lia|]. split; [discriminate|]. intros _. split; [lia|].
      intros d Hin.
      destruct (reply_complete d) eqn:Ed; [|reflexivity].
      rewrite ?app_nil_r, <- ?app_assoc in Hin.
      rewrite ?app_nil_r, <- ?app_assoc in Hin.
    apply Hrep in Hin; [destruct Hin as [_ Hi]; congruence | | assumption].
      repeat constructor.
Qed.

(** What a run of the poller looks like: on [True] the log ends with the
    first completing reply; on [False] the budget has elapsed and no
    reply was a completing one. *)
Definition poll_result (start tm : Z) (b : bool) (w' : World) (l : list event) : Prop :=
  (b = true ->
   exists pre d,
     l = (pre ++ [EvSocketOpen; EvReply d; EvSocketClose])%list
     /\ reply_complete d = true
     /\ forall d', In (EvReply d') pre -> reply_complete d' = false)
  /\ (b = false ->
      tm <= clock w' - start
      /\ forall d, In (EvReply d) l -> reply_complete d = false).

Lemma poll_loop_spec start tm fuel : forall w,
  (1 <= fuel)%nat ->
  tm - (clock w - start) <= 2000 * (Z.of_nat fuel - 1) ->
  exists b w' l,
    poll_loop fuel start tm w = (Ret b, w', l) /\ poll_result start tm b w' l.
Proof.
  induction fuel as [|fuel IH]; intros w Hf Hb; [lia|].
  simpl. unfold bind at 1. unfold time_now at 1.
  destruct (clock w - start <? tm) eqn:Et.
  - apply Z.ltb_lt in Et.
    destruct (poll_once_spec w) as (b & w1 & l1 & E & Hc & Ht & Hfalse).
    rewrite (bind_run _ _ _ _ _ _ E). destruct b.
    + do 3 eexists. split; [reflexivity|]. split; [|discriminate].
      intros _. destruct (Ht eq_refl) as (d & -> & Hd).
      exists [], d. simpl. split; [reflexivity|]. split; [assumption|].
      intros d' [].
    + destruct (Hfalse eq_refl) as [Hc1 Hno].
      destruct (IH w1) as (b & w' & l & El & Hres); [lia | lia |].
      rewrite El. do 3 eexists. split; [reflexivity|].
      destruct Hres as [Htrue Hfls]. split.
      * intros Hb1. destruct (Htrue Hb1) as (pre & d & -> & Hd & Hpre).
        exists (l1 ++ pre)%list, d. simpl. split; [|split; [assumption|]].
        -- rewrite app_assoc. reflexivity.
        -- intros d' Hin. apply in_app_or in Hin. destruct Hin; auto.
      * intros Hb1. destruct (Hfls Hb1) as [Hclk Hl]. split; [assumption|].
        intros d Hin. simpl in Hin. apply in_app_or in Hin. destruct Hin; auto.
  - apply Z.ltb_ge in Et. simpl. do 3 eexists. split; [reflexivity|].
    split; [discriminate|]. intros _. split; [lia|]. intros d [].
Qed.

Lemma poll_build_status_spec max_poll_time w :
  exists b w' l,
    poll_build_status max_poll_time w = (Ret b, w', l)
    /\ poll_result (clock w) (max_poll_time * 1000) b w' l.
Proof.
  unfold poll_build_status. unfold bind, time_now.
  destruct (poll_loop_spec (clock w) (max_poll_time * 1000)
              (S (Z.to_nat (max_poll_time / 2 + 1))) w) as (b & w' & l & E & H).
  - lia.
  - rewrite Nat2Z.inj_succ.
    destruct (Z_lt_le_dec max_poll_time 0).
    + lia.
    + rewrite Z2Nat.id by (pose proof (Z.div_pos max_poll_time 2); lia).
      pose proof (Z.mul_succ_div_gt max_poll_time 2). lia.
  - rewrite E. exists b, w', l. split; [reflexivity | assumption].
Qed.

(** The reading of a status text, in the terms of the specification: with
    both "Building:" and "%" in the text, the leftmost progress figure
    decides; otherwise the idle marker does. *)
Definition status_complete (text : string) : bool :=
  if PyStr.contains "Building:" text && PyStr.contains "%" text then
    match Re.search_digits "Building: " "%" text with
    | Some digits =>
        match PyStr.int digits with
        | Some progress => progress =? 100
        | None => false
        end
    | None => false
    end
  else PyStr.contains "Status: Not building" text.

Lemma interpret_status_complete text :
  match interpret_status (JStr text) with
  | Some Complete => true
  | _ => false
  end = status_complete text.
Proof.
  unfold interpret_status, status_complete. simpl.
  destruct (PyStr.contains "Building:" text); simpl.
  - destruct (PyStr.contains "%" text); simpl.
    + destruct (Re.search_digits "Building: " "%" text) as [digits|]; [|reflexivity].
      destruct (PyStr.int digits) as [progress|]; [|reflexivity].
      destruct (progress =? 100); reflexivity.
    + destruct (PyStr.contains "Status: Not building" text); reflexivity.
  - destruct (PyStr.contains "Status: Not building" text); reflexivity.
Qed.

(** A reply that parses to an object whose result is a text is judged
    on that text. *)
Lemma reply_complete_status data fields text :
  PyStr.strip data <> EmptyString ->
  json_loads (PyStr.strip data) = Some (JObj fields) ->
  Py.lookup "result" fields = Some (JStr text) ->
  reply_complete data = status_complete text.
Proof.
  intros Hne Hj Hr. unfold reply_complete.
  destruct (PyStr.strip data) as [|c s]; [congruence|].
  unfold interpret_response. rewrite Hj. simpl. rewrite Hr.
  destruct text as [|a text]; [reflexivity|].
  cbn [Py.truthy]. apply interpret_status_complete.
Qed.

Fixpoint all_digits (s : string) : bool :=
  match s with
  | EmptyString => true
  | String c rest => PyStr.is_digit c && all_digits rest
  end.

Lemma contains_app_r needle a b :
  PyStr.contains needle b = true -> PyStr.contains needle (a ++ b) = true.
Proof.
  intros H. induction a as [|c a IH]; simpl; [assumption|].
  rewrite IH. apply orb_true_r.
Qed.

Lemma take_digits_app ds rest :
  all_digits ds = true ->
  match rest with
  | String c _ => PyStr.is_digit c = false
  | EmptyString => True
  end ->
  Re.take_digits (ds ++ rest) = (ds, rest).
Proof.
  intros Hd Hr. induction ds as [|c ds IH]; cbn [append Re.take_digits].
  - destruct rest as [|c rest]; [reflexivity|].
    cbn [Re.take_digits]. rewrite Hr. reflexivity.
  - cbn [all_digits] in Hd. apply andb_prop in Hd. destruct Hd as [Hc Hd].
    rewrite Hc, (IH Hd). reflexivity.
Qed.

Lemma strip_prefix_app p s : Re.strip_prefix p (p ++ s) = Some s.
Proof.
  induction p as [|c p IH]; cbn [append Re.strip_prefix]; [reflexivity|].
  rewrite Ascii.eqb_refl. exact IH.
Qed.

Lemma status_complete_idle text :
  PyStr.contains "Building:" text && PyStr.contains "%" text = false ->
  status_complete text = PyStr.contains "Status: Not building" text.
Proof. intros H. unfold status_complete. rewrite H. reflexivity. Qed.

Lemma status_complete_progress ds rest :
  all_digits ds = true -> ds <> EmptyString ->
  status_complete ("Building: " ++ ds ++ "%" ++ rest)
  = match PyStr.int ds with
    | Some progress => progress =? 100
    | None => false
    end.
Proof.
  intros Hd Hne. unfold status_complete.
  assert (E1 : PyStr.contains "Building:" ("Building: " ++ ds ++ "%" ++ rest) = true)
    by reflexivity.
  assert (E2 : PyStr.contains "%" ("Building: " ++ ds ++ "%" ++ rest) = true).
  { apply contains_app_r. apply contains_app_r. destruct rest; reflexivity. }
  rewrite E1, E2. cbn [andb].
  assert (E3 : Re.search_digits "Building: " "%" ("Building: " ++ ds ++ "%" ++ rest)
               = Some ds).
  { assert (Em : Re.match_digits_at "Building: " "%"
                   ("Building: " ++ ds ++ "%" ++ rest) = Some (ds, rest)).
    { unfold Re.match_digits_at. rewrite strip_prefix_app.
      rewrite (take_digits_app ds ("%" ++ rest) Hd) by reflexivity.
      destruct ds as [|c ds]; [congruence|].
      rewrite strip_prefix_app. reflexivity. }
    destruct ("Building: " ++ ds ++ "%" ++ rest);
      cbn [Re.search_digits]; rewrite Em; reflexivity. }
  rewrite E3. reflexivity.
Qed.

Example status_not_building : status_complete "Status: Not building" = true.
Proof. reflexivity. Qed.

Example status_building_57 : status_complete "Building: 57%" = false.
Proof. reflexivity. Qed.

Example status_building_100 : status_complete "Building: 100%" = true.
Proof. reflexivity. Qed.

(** C7, as amended: [poll_build_status] always returns.  It returns
    [True] at the first reply that completes the build, which for a
    status text means: the text has both "Building:" and "%" and its
    leftmost "Building: N%" has N = 100, or it has not both and contains
    "Status: Not building".  A text that begins "Building: N%" with N
    other than 100 keeps it polling.  It returns [False] once the budget
    has elapsed without a completing reply. *)
Theorem poll_build_status_terminates_on_completion_or_budget max_poll_time w :
  (exists b w' l,
      poll_build_status max_poll_time w = (Ret b, w', l)
      /\ (b = true ->
          exists pre d,
            l = (pre ++ [EvSocketOpen; EvReply d; EvSocketClose])%list
            /\ reply_complete d = true
            /\ forall d', In (EvReply d') pre -> reply_complete d' = false)
      /\ (b = false ->
          max_poll_time * 1000 <= clock w' - clock w
          /\ forall d, In (EvReply d) l -> reply_complete d = false))
  /\ (forall data fields text,
        PyStr.strip data <> EmptyString ->
        json_loads (PyStr.strip data) = Some (JObj fields) ->
        Py.lookup "result" fields = Some (JStr text) ->
        reply_complete data = status_complete text)
  /\ (forall text,
        PyStr.contains "Building:" text && PyStr.contains "%" text = false ->
        status_complete text = PyStr.contains "Status: Not building" text)
  /\ (forall ds rest,
        all_digits ds = true -> ds <> EmptyString ->
        status_complete ("Building: " ++ ds ++ "%" ++ rest)
        = match PyStr.int ds with
          | Some progress => progress =? 100
          | None => false
          end).
Proof.
  split; [|split; [|split]].
  - destruct (poll_build_status_spec max_poll_time w) as (b & w' & l & E & H).
    exists b, w', l. split; [assumption | exact H].
  - exact reply_complete_status.
  - exact status_complete_idle.
  - exact status_complete_progress.
Qed.

(** ** verify_plugin_installation *)

(** On Windows the two files are compared: the result is [True] exactly
    when both exist, both timestamps can be printed, the installed file
    is not more than 5 seconds older than the built one and the sizes
    are equal; two different sizes never give [True]. *)
Lemma verify_plugin_installation_on_windows built installed :
  on_windows = true ->
  (forall b i, built = Some b -> installed = Some i -> size b <> size i ->
               verify_plugin_installation built installed <> Ret true)
  /\ (verify_plugin_installation built installed = Ret true <->
      exists b i, built = Some b /\ installed = Some i
                  /\ ctime_error (mtime b) = None
                  /\ ctime_error (mtime i) = None
                  /\ PrimFloat.ltb (mtime i) (PrimFloat.sub (mtime b) 5%float)
                     = false
                  /\ size b = size i).
Proof.
  intros Hw. unfold verify_plugin_installation. rewrite Hw. split.
  - intros b i -> -> Hs. cbv zeta.
    destruct (ctime_error (mtime b)); [discriminate|].
    destruct (ctime_error (mtime i)); [discriminate|].
    destruct (PrimFloat.ltb _ _); [discriminate|].
    destruct (size b =? size i) eqn:E; [|discriminate].
    apply Z.eqb_eq in E. contradiction.
  - split.
    + destruct built as [b|]; [|discriminate].
      destruct installed as [i|]; [|discriminate]. cbv zeta.
      destruct (ctime_error (mtime b)) eqn:Eb; [discriminate|].
      destruct (ctime_error (mtime i)) eqn:Ei; [discriminate|].
      destruct (PrimFloat.ltb _ _) eqn:Et; [discriminate|].
      destruct (size b =? size i) eqn:Es; [|discriminate].
      intros _. exists b, i. apply Z.eqb_eq in Es. auto 10.
    + intros (b & i & -> & -> & Eb & Ei & Ht & Hs). cbv zeta.
      rewrite Eb, Ei, Ht. apply Z.eqb_eq in Hs. rewrite Hs. reflexivity.
Qed.

(** C3: off Windows nothing is verified.  [verify_plugin_installation]
    returns [True] for every pair of descriptors, whatever their sizes
    and timestamps and whether the files exist or not, where the claim
    wants [False] for two different sizes. *)
Theorem verify_plugin_installation_skipped_off_windows built installed :
  on_windows = false ->
  verify_plugin_installation built installed = Ret true.
Proof.
  intros Hw. unfold verify_plugin_installation. rewrite Hw. reflexivity.
Qed.

(** ** bump_version, regenerate_version_files and the version stage *)

(** The version file cannot be read, or holds no patch field. *)
Definition version_unreadable_or_unparsable (w : World) : Prop :=
  content (fs w version_file) = None
  \/ readable (fs w version_file) = false
  \/ exists text, content (fs w version_file) = Some text
                  /\ Re.search_digits patch_key EmptyString text = None.

Lemma bump_version_without_patch w :
  version_unreadable_or_unparsable w -> bump_version w = (Ret tt, w, []).
Proof.
  unfold bump_version, catch, bind, read_file.
  intros [H | [H | (text & Hc & Hs)]].
  - rewrite H. reflexivity.
  - rewrite H. destruct (content (fs w version_file)); reflexivity.
  - rewrite Hc. destruct (readable (fs w version_file)); [|reflexivity].
    rewrite Hs. reflexivity.
Qed.

Lemma regenerate_without_patch w :
  version_unreadable_or_unparsable w ->
  regenerate_version_files w = (Ret false, w, []).
Proof.
  unfold regenerate_version_files, catch, bind, read_file.
  intros [H | [H | (text & Hc & Hs)]].
  - rewrite H. reflexivity.
  - rewrite H. destruct (content (fs w version_file)); reflexivity.
  - rewrite Hc. destruct (readable (fs w version_file)); [|reflexivity].
    rewrite Hs.
    destruct (Re.search_digits "PLUGIN_VERSION_MAJOR " EmptyString text);
      destruct (Re.search_digits "PLUGIN_VERSION_MINOR " EmptyString text);
      reflexivity.
Qed.

(** C6, as amended: when the version file cannot be read or its patch
    field cannot be found, the pipeline exits with status 1 in the
    version stage (the regeneration step refuses), leaving the files as
    they were and running nothing of what follows: no configuration, no
    build. *)
Theorem version_stage_aborts_on_read_or_parse_failure (rest : M unit) w :
  version_unreadable_or_unparsable w ->
  main_from_version_bump rest w = (Raise (SystemExit 1), w, []).
Proof.
  intros H. unfold main_from_version_bump.
  rewrite (bind_run _ _ _ _ _ _ (bump_version_without_patch w H)).
  rewrite (bind_run _ _ _ _ _ _ (regenerate_without_patch w H)).
  reflexivity.
Qed.

(* ================================================================ *)
(** * Further properties of the modelled code *)

(** ** run_command *)

(** [run_command] never raises: it returns a boolean or blocks in a read,
    and the clock does not go back.  A command that cannot be started
    gives [False]. *)
Theorem run_command_never_raises cmd timeout w :
  (exists w' l,
      clock w <= clock w'
      /\ (run_command cmd timeout w = (Hang, w', l)
          \/ exists b, run_command cmd timeout w = (Ret b, w', l)))
  /\ (match children w with
      | Some _ :: _ => True
      | _ => exists w', run_command cmd timeout w = (Ret false, w', [])
      end).
Proof.
  split.
  - destruct (run_command cmd timeout w) as [[o w'] l] eqn:E.
    exists w', l. apply run_command_spec in E. destruct E as (_ & Hc & Ho).
    split; [assumption|]. destruct Ho as [-> | [b ->]]; eauto.
  - destruct (children w) as [|[c|] rest] eqn:Ec; [|exact I|].
    + exists w. unfold run_command.
      erewrite bind_run by (rewrite run_command_capture_eq, Ec; reflexivity).
      reflexivity.
    + exists (set_children rest w). unfold run_command.
      erewrite bind_run by (rewrite run_command_capture_eq, Ec; reflexivity).
      reflexivity.
Qed.

(** [run_command] returns [True] only for a child that was started and
    exited with code 0; and for a child that exits and whose pipe is
    closed by every process that holds it, [run_command] does return,
    with [False] when the code is not 0.  (Without the closing of the
    pipe the reads can block after the child's exit.) *)
Theorem run_command_follows_exit_code cmd timeout w :
  (forall w' l,
      run_command cmd timeout w = (Ret true, w', l) ->
      exists c rest d, children w = Some c :: rest /\ finish c = Some (d, 0))
  /\ (forall c rest d rc,
        children w = Some c :: rest -> finish c = Some (d, rc) ->
        closes c <> None ->
        exists b w' l,
          run_command cmd timeout w = (Ret b, w', l) /\ (rc <> 0 -> b = false)).
Proof.
  split.
  - intros w' l H. exact (run_command_true_inv _ _ _ _ _ H).
  - intros c rest d rc Hc Hf He.
    destruct (run_command_capture_returns cmd timeout w) as (b & lines & w' & l & E).
    { rewrite Hc. split; [exact He | left; congruence]. }
    exists b, w', l. rewrite (run_command_of_capture _ _ _ _ _ _ E).
    split; [reflexivity|]. intros Hrc. destruct b; [|reflexivity]. exfalso.
    pose proof (run_command_of_capture _ _ _ _ _ _ E) as Hr. simpl in Hr.
    apply run_command_true_inv in Hr. destruct Hr as (c0 & rest0 & d0 & Hc0 & Hf0).
    rewrite Hc in Hc0. injection Hc0 as <- _. rewrite Hf in Hf0.
    injection Hf0 as _ ->. congruence.
Qed.

(** ** kill_qt_creator *)

(** What [run_command] leaves alone. *)
Definition same_tables (w w' : World) : Prop :=
  proc_table w' = proc_table w /\ conns w' = conns w /\ fs w' = fs w.

Lemma stream_loop_frame fuel : forall start tm p lines w o w' l,
  stream_loop fuel start tm p lines w = (o, w', l) ->
  same_tables w w' /\ children w' = children w.
Proof.
  unfold same_tables.
  induction fuel as [|fuel IH]; intros start tm p lines w o w' l H.
  - inv H. auto.
  - apply stream_loop_turn in H.
    destruct H as [(rc & _ & _ & -> & _)
                  | [(_ & _ & [(_ & _ & -> & _) | (now' & _ & _ & -> & _)])
                    | (_ & _ & [(_ & _ & -> & _)
                               | (line & p' & now' & l2 & _ & El & _)])]];
      auto.
    apply IH in El. exact El.
Qed.

Lemma run_command_frame cmd timeout w o w' l :
  run_command cmd timeout w = (o, w', l) -> same_tables w w'.
Proof.
  intros H.
  destruct (run_command_capture cmd timeout w) as [[o1 w1] l1] eqn:E.
  rewrite (run_command_of_capture _ _ _ _ _ _ E) in H. inv H.
  rewrite run_command_capture_eq in E. unfold same_tables.
  destruct (children w) as [|[c|] rest].
  - inv E. auto.
  - cbv zeta in E.
    match type of E with
    | context [stream_loop ?a ?b ?c ?d ?e ?f] =>
        destruct (stream_loop a b c d e f) as [[o2 w2] l2] eqn:El
    end.
    apply stream_loop_frame in El. destruct El as [Hs _]. simpl in Hs.
    destruct o2 as [r|e| |].
    + destruct r as [lines|rc p lines]; [inv E; exact Hs|].
      destruct (read_rest p (clock w2)) as [[text now']|]; inv E; exact Hs.
    + destruct (is_exception e); inv E; exact Hs.
    + inv E. exact Hs.
    + inv E. exact Hs.
  - inv E. simpl. auto.
Qed.

(** The first command of the world comes to an end: its child exits (of
    its own accord, or when terminated) and the pipe is closed, or no
    child can be started. *)
Definition first_command_ends (w : World) : Prop :=
  match children w with
  | Some c :: _ => comes_to_an_end c
  | _ => True
  end.

Lemma kill_with_returns site cmd w :
  first_command_ends w ->
  exists result w' l,
    kill_with site cmd w = (Ret result, w', l)
    /\ same_tables w w' /\ clock w <= clock w'.
Proof.
  intros Hf.
  destruct (run_command_capture_returns cmd None w Hf) as (b & lines & w' & l & E).
  pose proof (run_command_of_capture _ _ _ _ _ _ E) as Hr. simpl in Hr.
  exists b, w', (l ++ [EvKillResult site b])%list.
  split; [unfold kill_with; rewrite (bind_run _ _ _ _ _ _ Hr); reflexivity|].
  split; [exact (run_command_frame _ _ _ _ _ _ Hr)|].
  apply run_command_spec in Hr. destruct Hr as (_ & Hc & _). exact Hc.
Qed.

(** The query of the process table cannot be run. *)
Definition liveness_query_fails (w : World) : Prop :=
  match proc_table w with
  | Some _ :: _ => False
  | _ => True
  end.

Lemma is_process_running_query_fails name w :
  liveness_query_fails w ->
  exists w', is_process_running name w = (Ret false, w', [EvLiveness name false])
             /\ clock w' = clock w.
Proof.
  unfold liveness_query_fails, is_process_running, catch_all, bind, subprocess_run,
    tell, ret.
  destruct on_windows; cbv beta;
    (destruct (proc_table w) as [|[r|] rest]; [|contradiction|]; intros _;
     simpl; eexists; split; reflexivity).
Qed.

(** When the query of the process table raises (pgrep or tasklist cannot
    be run), [is_process_running] answers [False], and [kill_qt_creator]
    reports the process as killed after its first command, whatever that
    command did. *)
Theorem kill_qt_creator_trusts_failed_liveness_query config timeout_seconds w :
  0 < timeout_seconds ->
  first_command_ends w ->
  liveness_query_fails w ->
  exists w' l,
    kill_qt_creator config timeout_seconds w = (Ret true, w', l)
    /\ ends_with_negative_check (process_name config) l.
Proof.
  intros Ht Hf Hq.
  destruct (kill_with_returns ConfiguredKill (kill_command config) w Hf)
    as (result & w1 & l1 & Ek & (Hp & _ & _) & _).
  assert (Hq2 : liveness_query_fails
                  (set_clock (clock w1 + Z.max 0 1000) w1)).
  { unfold liveness_query_fails in *. simpl. rewrite Hp. exact Hq. }
  destruct (is_process_running_query_fails (process_name config) _ Hq2)
    as (w2 & Er & _).
  assert (Ea : kill_attempt config (clock w) (timeout_seconds * 1000) w
               = (Ret (Some true), w2,
                  (l1 ++ [EvSleep 1000] ++ [EvLiveness (process_name config) false]
                      ++ [])%list)).
  { unfold kill_attempt. rewrite (bind_run _ _ _ _ _ _ Ek).
    rewrite reports_success_false.
    rewrite (bind_run _ _ _ _ _ _ (eq_refl : sleep 1000 w1 = (Ret tt, _, _))).
    rewrite (bind_run _ _ _ _ _ _ Er). reflexivity. }
  exists w2. eexists. split.
  - unfold kill_qt_creator.
    rewrite (bind_run _ _ _ _ _ _ (eq_refl : time_now w = (Ret (clock w), w, []))).
    cbn [kill_loop].
    rewrite (bind_run _ _ _ _ _ _ (eq_refl : time_now w = (Ret (clock w), w, []))).
    replace (clock w - clock w <? timeout_seconds * 1000) with true
      by (symmetry; apply Z.ltb_lt; lia).
    rewrite (bind_run _ _ _ _ _ _ Ea). reflexivity.
  - rewrite ?app_nil_r. simpl.
    repeat apply ends_with_negative_check_app.
    exists [EvSleep 1000]. reflexivity.
Qed.

Lemma kill_attempt_false config start tm w w' l :
  kill_attempt config start tm w = (Ret (Some false), w', l) ->
  tm <= clock w' - start.
Proof.
  unfold kill_attempt. intros H.
  explore_with ltac:(idtac; methods_specs); try discriminate;
    match goal with
    | E : (_ >=? _) = true |- _ => apply Z.geb_le in E; simpl in *; lia
    end.
Qed.

Lemma kill_loop_false config start tm fuel : forall w w' l,
  kill_loop fuel config start tm w = (Ret false, w', l) ->
  tm <= clock w' - start.
Proof.
  induction fuel as [|fuel IH]; intros w w' l H; [discriminate|].
  simpl in H. explore.
  - match goal with
    | E : kill_attempt _ _ _ _ = _ |- _ => apply kill_attempt_false in E
    end.
    assumption.
  - match goal with
    | E : kill_loop _ _ _ _ _ = _ |- _ => apply IH in E
    end.
    assumption.
  - match goal with
    | E : (_ <? _) = false |- _ => apply Z.ltb_ge in E
    end.
    assumption.
Qed.

(** [kill_qt_creator] answers [False] only when its time budget is
    spent: all of [timeout_seconds] has gone by since the call. *)
Theorem kill_qt_creator_fails_only_after_budget config timeout_seconds w w' l :
  kill_qt_creator config timeout_seconds w = (Ret false, w', l) ->
  timeout_seconds * 1000 <= clock w' - clock w.
Proof.
  intros H. unfold kill_qt_creator in H. explore.
  match goal with
  | E : kill_loop _ _ _ _ _ = _ |- _ => apply kill_loop_false in E
  end.
  assumption.
Qed.

Lemma kill_attempt_outcome config start tm w o w' l :
  kill_attempt config start tm w = (o, w', l) ->
  (exists r, o = Ret r) \/ o = Hang
  \/ (on_windows = false /\ o = Raise AttributeError).
Proof.
  unfold kill_attempt. intros H.
  explore_with ltac:(idtac; methods_specs); simpl; eauto.
Qed.

Lemma kill_loop_outcome config start tm fuel : forall w o w' l,
  kill_loop fuel config start tm w = (o, w', l) ->
  (exists b, o = Ret b) \/ o = Hang \/ o = OutOfFuel
  \/ (on_windows = false /\ o = Raise AttributeError).
Proof.
  induction fuel as [|fuel IH]; intros w o w' l H.
  - inv H. auto.
  - simpl in H. explore; eauto;
      try (match goal with
           | E : kill_loop _ _ _ _ _ = _ |- _ => apply IH in E; exact E
           end).
    match goal with
    | E : kill_attempt _ _ _ _ = _ |- _ =>
        apply kill_attempt_outcome in E;
        destruct E as [[r E] | [E | [Hw E]]]; subst; simpl; auto;
        try discriminate
    end.
Qed.

(** [kill_qt_creator] ends in one of three ways: it returns a boolean, it
    blocks inside a command, or, on a system other than Windows, it raises
    [AttributeError].  On Windows it never raises. *)
Theorem kill_qt_creator_outcomes config timeout_seconds w :
  let o := fst (fst (kill_qt_creator config timeout_seconds w)) in
  (exists b, o = Ret b) \/ o = Hang
  \/ (on_windows = false /\ o = Raise AttributeError).
Proof.
  clear json_loads. cbv zeta.
  pose proof (kill_qt_creator_total config timeout_seconds w) as Hn.
  destruct (kill_qt_creator config timeout_seconds w) as [[o w'] l] eqn:E.
  simpl in *. unfold kill_qt_creator in E. explore.
  match goal with
  | E : kill_loop _ _ _ _ _ = _ |- _ => apply kill_loop_outcome in E
  end.
  intuition congruence.
Qed.

(** ** quit_qt_creator_gracefully *)

(** The answers of the liveness checks of a run, oldest first. *)
Definition liveness_results (l : list event) : list bool :=
  flat_map (fun e => match e with EvLiveness _ b => [b] | _ => [] end) l.

Lemma liveness_results_app l1 l2 :
  liveness_results (l1 ++ l2)
  = (liveness_results l1 ++ liveness_results l2)%list.
Proof. apply flat_map_app. Qed.

Lemma is_process_running_returns name w :
  exists b w',
    is_process_running name w = (Ret b, w', [EvLiveness name b])
    /\ clock w' = clock w.
Proof.
  destruct (is_process_running name w) as [[o w'] l] eqn:E.
  apply is_process_running_spec in E. destruct E as (b & -> & -> & Hc).
  eauto.
Qed.

Lemma test_mcp_connection_eq w :
  test_mcp_connection w =
  match conns w with
  | [] => (Ret false, w, [EvSocketOpen; EvSocketClose])
  | c :: rest =>
      let w1 := set_conns rest w in
      match connect c with
      | ConnOk => (Ret true, w1, [EvSocketOpen; EvSocketClose])
      | ConnRefused => (Ret false, w1, [EvSocketOpen; EvSocketClose])
      | ConnTimeout =>
          (Ret false, set_clock (clock w + 5000) w1,
           [EvSocketOpen; EvSleep 5000; EvSocketClose])
      end
  end.
Proof.
  unfold test_mcp_connection, catch_all, bind, socket_open, socket_connect_ex,
    socket_close, sleep, ret, tell.
  destruct (conns w) as [|c rest]; simpl; [reflexivity|].
  destruct (connect c); reflexivity.
Qed.

Lemma test_mcp_connection_spec w :
  exists b w' l,
    test_mcp_connection w = (Ret b, w', l)
    /\ clock w <= clock w' /\ liveness_results l = []
    /\ (forall d, ~ In (EvReply d) l)
    /\ (b = true -> exists c rest, conns w = c :: rest /\ connect c = ConnOk).
Proof.
  clear platform json_loads.
  rewrite test_mcp_connection_eq.
  destruct (conns w) as [|c rest].
  - do 3 eexists. split; [reflexivity|]. split; [lia|]. split; [reflexivity|].
    split; [|discriminate]. simpl. intros d [H | [H | []]]; discriminate.
  - cbv zeta. destruct (connect c) eqn:Ec; do 3 eexists;
      (split; [reflexivity|]); (split; [simpl; lia|]);
      (split; [reflexivity|]); (split; [|try discriminate; eauto]);
      simpl; intros d H; repeat (destruct H as [H | H]; try discriminate);
      contradiction.
Qed.

(** The loop of at most [n] liveness checks one second apart. *)
Lemma wait_for_quit_spec name n : forall w,
  exists b w' l,
    wait_for_quit n name w = (Ret b, w', l)
    /\ (b = true ->
        exists k, (k < n)%nat
                  /\ liveness_results l = (repeat true k ++ [false])%list)
    /\ (b = false ->
        liveness_results l = repeat true n
        /\ clock w' = clock w + 1000 * Z.of_nat n).
Proof.
  induction n as [|n IH]; intros w.
  - exists false, w, []. split; [reflexivity|]. split; [discriminate|].
    intros _. split; [reflexivity|]. simpl. lia.
  - destruct (is_process_running_returns name w) as (running & w1 & E1 & Hc1).
    cbn [wait_for_quit]. rewrite (bind_run _ _ _ _ _ _ E1).
    destruct running; cbn [negb].
    + destruct (IH (set_clock (clock w1 + Z.max 0 1000) w1))
        as (b & w2 & l2 & E2 & Ht & Hf).
      rewrite (bind_run _ _ _ _ _ _
                 (eq_refl : sleep 1000 w1 = (Ret tt, _, [EvSleep 1000]))).
      rewrite E2. do 3 eexists. split; [reflexivity|]. split.
      * intros Hb. destruct (Ht Hb) as (k & Hk & Hl). exists (S k).
        split; [lia|]. simpl. rewrite Hl. reflexivity.
      * intros Hb. destruct (Hf Hb) as (Hl & Hc). split.
        -- simpl. rewrite Hl. reflexivity.
        -- rewrite Hc. unfold set_clock. cbn [clock]. rewrite Hc1. lia.
    + do 3 eexists. split; [reflexivity|]. split; [|discriminate].
      intros _. exists 0%nat. split; [lia|]. reflexivity.
Qed.

(** [quit_qt_creator_gracefully] always returns (it never raises and
    nothing in it can block for ever).  It answers [True] only when one of
    at most ten liveness checks found the process gone, every check before
    it having found it running; it answers [False] either without any
    liveness check (the server did not accept the connection, and no quit
    command was sent) or after ten checks that all found the process
    running, ten seconds or more after the call. *)
Theorem quit_qt_creator_gracefully_checks_at_most_ten_times config w :
  exists b w' l,
    quit_qt_creator_gracefully config w = (Ret b, w', l)
    /\ (b = true ->
        exists k, (k < 10)%nat
                  /\ liveness_results l = (repeat true k ++ [false])%list)
    /\ (b = false ->
        (liveness_results l = [] /\ forall d, ~ In (EvReply d) l)
        \/ (liveness_results l = repeat true 10
            /\ clock w + 10000 <= clock w')).
Proof.
  destruct (test_mcp_connection_spec w) as (r & w1 & l1 & E1 & Hc1 & Hl1 & Hr1 & _).
  unfold quit_qt_creator_gracefully. rewrite (bind_run _ _ _ _ _ _ E1).
  destruct r.
  - destruct (send_mcp_command_socket_spec quit_query "quit" w1)
      as (s & w2 & l2 & E2 & Hc2 & Hs).
    rewrite (bind_run _ _ _ _ _ _ E2).
    destruct (wait_for_quit_spec (process_name config) 10 w2)
      as (b & w3 & l3 & E3 & Ht & Hf).
    rewrite E3. do 3 eexists. split; [reflexivity|].
    assert (Hl2 : liveness_results l2 = []).
    { destruct (first_reply w1).
      - destruct Hs as [_ ->]. reflexivity.
      - rewrite send_mcp_command_socket_eq in E2. clear - E2.
        destruct (conns w1) as [|c rest]; [inv E2; reflexivity|].
        cbv zeta in E2.
        destruct (connect c); [destruct (send_ok c); [destruct (recv c)|]| |];
          inv E2; reflexivity. }
    rewrite !liveness_results_app, Hl1, Hl2. simpl app.
    split.
    + exact Ht.
    + intros Hb. right. destruct (Hf Hb) as (Hl & Hc). split; [exact Hl|].
      rewrite Hc. lia.
  - do 3 eexists. split; [reflexivity|]. split; [discriminate|].
    intros _. left. rewrite app_nil_r. split; assumption.
Qed.

(** ** get_mcp_timeout_for_function *)

Lemma timeout_of_string_values v :
  In (timeout_of_string v) [1; 5; 60; 120; 1200].
Proof.
  unfold timeout_of_string.
  repeat match goal with
         | |- context [if ?c then _ else _] => destruct c
         end; simpl; auto 6.
Qed.

Lemma scan_tools_values tools f seconds :
  scan_tools tools f = Found seconds -> In seconds [1; 5; 60; 120; 1200].
Proof.
  induction tools as [|tool rest IH]; simpl; [discriminate|].
  destruct (Py.get tool "name" JNull) as [n|]; [|discriminate].
  destruct (Py.eq_str n f); [|exact IH].
  destruct (Py.get tool "timeout" (JStr "default")) as [ts|]; [|discriminate].
  intros H. injection H as <-. apply timeout_of_string_values.
Qed.

Lemma map_get_values key :
  In (map_get key timeout_map 5) [1; 5; 60; 120; 1200].
Proof.
  unfold timeout_map. simpl.
  repeat match goal with
         | |- context [if ?c then _ else _] => destruct c
         end; simpl; auto 6.
Qed.

(** Whatever [mcp.json] holds (or if it is missing or broken), the
    timeout that [get_mcp_timeout_for_function] gives for any method is
    one of 1, 5, 60, 120 and 1200 seconds; the function never raises and
    changes nothing. *)
Theorem get_mcp_timeout_is_bounded f w :
  exists seconds,
    get_mcp_timeout_for_function f w = (Ret seconds, w, [])
    /\ In seconds [1; 5; 60; 120; 1200].
Proof.
  clear platform.
  exists (timeout_value f w). split; [apply get_mcp_timeout_eq|].
  unfold timeout_value.
  destruct (schema_status f w) as [seconds| |] eqn:E;
    try apply map_get_values.
  unfold schema_status in E.
  destruct (content (fs w "mcp.json")) as [text|]; [|discriminate].
  destruct (readable (fs w "mcp.json")); [|discriminate].
  destruct (json_loads text) as [mcp_data|]; [|discriminate].
  unfold schema_lookup in E.
  destruct (tools_of mcp_data) as [tools|]; [|discriminate].
  destruct (iterate tools) as [items|]; [|discriminate].
  exact (scan_tools_values _ _ _ E).
Qed.

(** ** test_installation and the last step of main *)

(** The log holds a reply of the server that reports a version whose
    patch component is at least 1. *)
Definition recent_version_replied (l : list event) : Prop :=
  exists data response n,
    In (EvReply data) l
    /\ json_loads (PyStr.strip data) = Some response
    /\ reports_patch response n /\ 1 <= n.

Lemma recent_version_replied_app l1 l2 :
  recent_version_replied l2 -> recent_version_replied (l1 ++ l2).
Proof.
  intros (data & response & n & Hi & H). exists data, response, n.
  split; [apply in_or_app; right; exact Hi | exact H].
Qed.

Lemma test_mcp_version_returns w :
  exists b w' l,
    test_mcp_version w = (Ret b, w', l)
    /\ clock w <= clock w'
    /\ (b = true -> recent_version_replied l).
Proof.
  destruct (send_mcp_command_socket_spec initialize_query "initialize" w)
    as (s & w' & l & E & Hc & H).
  exists (version_verdict s), w', l.
  split; [apply test_mcp_version_eq; exact E|]. split; [exact Hc|].
  unfold version_verdict. intros Hv.
  destruct (first_reply w) as [data|].
  - destruct H as [-> ->].
    destruct (PyStr.strip data) as [|c s'] eqn:Es; [discriminate|].
    destruct (json_loads (String c s')) as [response|] eqn:Ej; [|discriminate].
    destruct (check_initialize_response response) as [b|] eqn:Ec; [|discriminate].
    subst b. apply check_initialize_response_true in Ec.
    destruct Ec as (n & Hp & Hn & _).
    exists data, response, n. rewrite Es. simpl. auto.
  - destruct H as [-> _]. discriminate.
Qed.

Lemma installation_attempts_spec n : forall w,
  exists b w' l,
    installation_attempts n w = (Ret b, w', l)
    /\ clock w <= clock w'
    /\ (b = true -> recent_version_replied l).
Proof.
  induction n as [|n IH]; intros w.
  - exists false, w, []. split; [reflexivity|]. split; [lia|]. discriminate.
  - destruct (test_mcp_connection_spec w) as (r & w1 & l1 & E1 & Hc1 & _).
    cbn [installation_attempts]. rewrite (bind_run _ _ _ _ _ _ E1).
    destruct r.
    + destruct (test_mcp_version_returns w1) as (b & w2 & l2 & E2 & Hc2 & Hb).
      rewrite E2. do 3 eexists. split; [reflexivity|]. split; [lia|].
      intros Ht. apply recent_version_replied_app. auto.
    + assert (Hs : exists w2 l2,
                 (if (1 <=? n)%nat then sleep 500 else ret tt) w1
                 = (Ret tt, w2, l2)
                 /\ clock w1 <= clock w2
                 /\ forall l3, recent_version_replied l3 ->
                               recent_version_replied (l2 ++ l3)).
      { destruct (1 <=? n)%nat; do 2 eexists;
          (split; [reflexivity|]); (split; [simpl; lia|]);
          intros l3 H; apply recent_version_replied_app; exact H. }
      destruct Hs as (w2 & l2 & E2 & Hc2 & Hl2).
      rewrite (bind_run _ _ _ _ _ _ E2).
      destruct (IH w2) as (b & w3 & l3 & E3 & Hc3 & Hb).
      rewrite E3. do 3 eexists. split; [reflexivity|]. split; [lia|].
      intros Ht. apply recent_version_replied_app. auto.
Qed.

(** With nothing listening on the port, the two attempts are made half a
    second apart and nothing is sent. *)
Lemma installation_attempts_unreachable w :
  conns w = [] ->
  test_installation w
  = (Ret false, set_clock (clock w + 500) w,
     [EvSocketOpen; EvSocketClose; EvSleep 500; EvSocketOpen; EvSocketClose]).
Proof.
  intros Hc. unfold test_installation. cbn [installation_attempts].
  assert (E1 : test_mcp_connection w
               = (Ret false, w, [EvSocketOpen; EvSocketClose])).
  { rewrite test_mcp_connection_eq, Hc. reflexivity. }
  rewrite (bind_run _ _ _ _ _ _ E1). cbn [Nat.leb].
  rewrite (bind_run _ _ _ _ _ _
             (eq_refl : sleep 500 w = (Ret tt, _, [EvSleep 500]))).
  assert (E2 : test_mcp_connection (set_clock (clock w + Z.max 0 500) w)
               = (Ret false, set_clock (clock w + Z.max 0 500) w,
                  [EvSocketOpen; EvSocketClose])).
  { rewrite test_mcp_connection_eq. simpl. rewrite Hc. reflexivity. }
  rewrite (bind_run _ _ _ _ _ _ E2). reflexivity.
Qed.

(** [test_installation] always returns; it answers [True] only when the
    server replied to the initialize call with a version whose patch
    component reads as an integer of at least 1.  With nothing listening
    it answers [False] after two attempts, half a second after the
    call. *)
Theorem test_installation_needs_recent_version_reply w :
  exists b w' l,
    test_installation w = (Ret b, w', l)
    /\ (b = true -> recent_version_replied l)
    /\ (conns w = [] -> b = false /\ clock w' = clock w + 500).
Proof.
  destruct (installation_attempts_spec 2 w) as (b & w' & l & E & _ & Hb).
  exists b, w', l. split; [exact E|]. split; [exact Hb|].
  intros Hc. pose proof (installation_attempts_unreachable w Hc) as E0.
  unfold test_installation in E0. rewrite E0 in E.
  injection E as <- <- _. split; reflexivity.
Qed.

(** The last step of [main] always ends the program with exit status 0
    or 1, fifteen seconds or more after it began; the status is 0 only
    when the server replied with a version of patch component at least
    1. *)
Theorem main_exit_status_follows_version_reply w :
  exists status w' l,
    main_test_installation w = (Raise (SystemExit status), w', l)
    /\ (status = 0 \/ status = 1)
    /\ clock w + 15000 <= clock w'
    /\ (status = 0 -> recent_version_replied l).
Proof.
  unfold main_test_installation.
  rewrite (bind_run _ _ _ _ _ _
             (eq_refl : sleep 15000 w = (Ret tt, _, [EvSleep 15000]))).
  destruct (installation_attempts_spec 2 (set_clock (clock w + Z.max 0 15000) w))
    as (b & w' & l & E & Hc & Hb).
  unfold test_installation. rewrite (bind_run _ _ _ _ _ _ E).
  simpl in Hc.
  destruct b.
  - exists 0, w'. eexists. split; [reflexivity|]. split; [auto|].
    split; [lia|]. intros _. rewrite app_nil_r.
    apply (recent_version_replied_app [EvSleep 15000]). auto.
  - exists 1, w'. eexists. split; [reflexivity|]. split; [auto|].
    split; [lia|]. discriminate.
Qed.

(** ** regenerate_version_files *)

(** [regenerate_version_files] never raises.  When it answers [True],
    all five fields were found in [version.cmake] and [version.h] now
    holds the header built from exactly those fields, every other file
    (the version file among them) being as before; when it answers
    [False], nothing was written. *)
Theorem regenerate_version_files_writes_header w :
  exists b w',
    regenerate_version_files w = (Ret b, w', [])
    /\ (b = true ->
        exists text major minor patch name json_file,
          content (fs w version_file) = Some text
          /\ Re.search_digits "PLUGIN_VERSION_MAJOR " EmptyString text = Some major
          /\ Re.search_digits "PLUGIN_VERSION_MINOR " EmptyString text = Some minor
          /\ Re.search_digits patch_key EmptyString text = Some patch
          /\ Re.search_quoted "PLUGIN_NAME_VERSIONED " text = Some name
          /\ Re.search_quoted "PLUGIN_JSON_FILE " text = Some json_file
          /\ content (fs w' "version.h")
             = Some (version_h_content major minor patch name json_file)
          /\ forall p, p <> "version.h" -> fs w' p = fs w p)
    /\ (b = false -> w' = w).
Proof.
  clear platform json_loads.
  unfold regenerate_version_files, catch, bind, read_file, write_file, ret.
  destruct (content (fs w version_file)) as [text|] eqn:Ec;
    [|exists false, w; simpl; repeat split; discriminate || auto].
  destruct (readable (fs w version_file)) eqn:Er;
    [|exists false, w; simpl; repeat split; discriminate || auto].
  destruct (Re.search_digits "PLUGIN_VERSION_MAJOR " EmptyString text)
    as [major|] eqn:E1;
    [|exists false, w; simpl; repeat split; discriminate || auto].
  destruct (Re.search_digits "PLUGIN_VERSION_MINOR " EmptyString text)
    as [minor|] eqn:E2;
    [|exists false, w; simpl; repeat split; discriminate || auto].
  destruct (Re.search_digits patch_key EmptyString text) as [patch|] eqn:E3;
    [|exists false, w; simpl; repeat split; discriminate || auto].
  destruct (Re.search_quoted "PLUGIN_NAME_VERSIONED " text) as [name|] eqn:E4;
    [|exists false, w; simpl; repeat split; discriminate || auto].
  destruct (Re.search_quoted "PLUGIN_JSON_FILE " text) as [json_file|] eqn:E5;
    [|exists false, w; simpl; repeat split; discriminate || auto].
  destruct (writable (fs w "version.h")) eqn:Ew;
    [|exists false, w; simpl; repeat split; discriminate || auto].
  eexists true, _. cbn [is_exception app]. split; [reflexivity|].
  split; [|discriminate]. intros _.
  exists text, major, minor, patch, name, json_file.
  do 6 (split; [assumption || reflexivity|]).
  cbn [fs set_fs]. split.
  - rewrite String.eqb_refl. reflexivity.
  - intros p Hp. apply String.eqb_neq in Hp. rewrite Hp. reflexivity.
Qed.

(** ** Step 1 of main: Qt Creator must not be running *)

(** Step 1 of [main]; [rest] is everything from step 2 on.
    [kill_qt_creator] is called with its default budget of 30 seconds. *)
Definition main_ensure_stopped (config : DeploymentConfig) (rest : M unit)
  : M unit :=
  running <- is_process_running (process_name config) ;;
  (if running then
     killed <- kill_qt_creator config 30 ;;
     if negb killed then sys_exit 1
     else
       running <- is_process_running (process_name config) ;;
       if running then sys_exit 1 else ret tt
   else ret tt) ;;;
  running <- is_process_running (process_name config) ;;
  if running then sys_exit 1 else rest.

Lemma kill_qt_creator_outcome_inv config timeout_seconds w o w' l :
  kill_qt_creator config timeout_seconds w = (o, w', l) ->
  (exists b, o = Ret b) \/ o = Hang
  \/ (on_windows = false /\ o = Raise AttributeError).
Proof.
  clear json_loads. intros E.
  pose proof (kill_qt_creator_total config timeout_seconds w) as Hn.
  rewrite E in Hn. simpl in Hn. unfold kill_qt_creator in E. explore.
  match goal with
  | E : kill_loop _ _ _ _ _ = _ |- _ => apply kill_loop_outcome in E
  end.
  intuition congruence.
Qed.

Ltac stop_specs :=
  match goal with
  | H : sys_exit _ _ = _ |- _ => unfold sys_exit, raise in H; inv H
  | H : kill_qt_creator _ _ _ = _ |- _ =>
      apply kill_qt_creator_outcome_inv in H;
      destruct H as [[? ?] | [? | [? ?]]]
  end.

(** What follows step 1 of [main] runs only straight after a liveness
    check that found Qt Creator not running.  Otherwise the program
    exits with status 1, blocks inside a kill command or, on a system
    other than Windows, ends with [AttributeError]. *)
Theorem build_starts_only_after_negative_liveness_check
    config (rest : M unit) w o w' l :
  main_ensure_stopped config rest w = (o, w', l) ->
  (exists w1 l1 l2,
      rest w1 = (o, w', l2) /\ l = (l1 ++ l2)%list
      /\ ends_with_negative_check (process_name config) l1)
  \/ o = Raise (SystemExit 1) \/ o = Hang
  \/ (on_windows = false /\ o = Raise AttributeError).
Proof.
  clear json_loads.
  unfold main_ensure_stopped. intros H.
  explore_with ltac:(idtac; stop_specs); auto.
  all: left; rewrite ?app_nil_r, ?app_nil_l, !app_assoc;
    match goal with
    | E : _ ?w1 = (_, _, ?l2) |- _ =>
        exists w1; eexists; exists l2; split; [exact E|]
    end;
    (split; [reflexivity|]); eexists; reflexivity.
Qed.

(** ** monitor_build_process *)

(** The probe of the free memory inside the loop: on Windows one more
    call of [subprocess.run]; whatever it gives or raises is swallowed by
    the bare [except], and its figures are only printed. *)
Definition memory_probe : M unit :=
  catch_all
    (if on_windows then _ <- subprocess_run ;; ret tt else ret tt)
    (ret tt).

Fixpoint monitor_loop (fuel : nat) (name : string) (start max_ms : Z) : M bool :=
  match fuel with
  | O => out_of_fuel
  | S fuel' =>
      now <- time_now ;;
      if now - start <? max_ms then
        running <- is_process_running name ;;
        if negb running then ret false
        else
          memory_probe ;;;
          sleep 5000 ;;;
          monitor_loop fuel' name start max_ms
      else ret true
  end.

(** [monitor_build_process(process_name, max_monitor_time)], the time in
    seconds.  Every turn that does not return sleeps five seconds, which
    bounds the turns. *)
Definition monitor_build_process (name : string) (max_monitor_time : Z) : M bool :=
  start <- time_now ;;
  monitor_loop (S (Z.to_nat (max_monitor_time / 5 + 1))) name start
    (max_monitor_time * 1000).

Lemma memory_probe_spec w :
  exists w', memory_probe w = (Ret tt, w', []) /\ clock w' = clock w.
Proof.
  clear json_loads.
  unfold memory_probe, catch_all, bind, subprocess_run, ret.
  destruct on_windows; [|eauto].
  destruct (proc_table w) as [|[r|] rest]; simpl; eauto.
Qed.

Lemma monitor_loop_spec name start tm fuel : forall w,
  (1 <= fuel)%nat ->
  tm - (clock w - start) <= 5000 * (Z.of_nat fuel - 1) ->
  exists b w' l,
    monitor_loop fuel name start tm w = (Ret b, w', l)
    /\ (b = false -> ends_with_negative_check name l)
    /\ (b = true ->
        tm <= clock w' - start /\ Forall (eq true) (liveness_results l)).
Proof.
  induction fuel as [|fuel IH]; intros w Hf Hb; [lia|].
  cbn [monitor_loop].
  rewrite (bind_run _ _ _ _ _ _ (eq_refl : time_now w = (Ret (clock w), w, []))).
  destruct (clock w - start <? tm) eqn:Et.
  - apply Z.ltb_lt in Et.
    destruct (is_process_running_returns name w) as (running & w1 & E1 & Hc1).
    rewrite (bind_run _ _ _ _ _ _ E1).
    destruct running; cbn [negb].
    + destruct (memory_probe_spec w1) as (w2 & E2 & Hc2).
      rewrite (bind_run _ _ _ _ _ _ E2).
      rewrite (bind_run _ _ _ _ _ _
                 (eq_refl : sleep 5000 w2 = (Ret tt, _, [EvSleep 5000]))).
      destruct (IH (set_clock (clock w2 + Z.max 0 5000) w2))
        as (b & w3 & l3 & E3 & Hfalse & Htrue).
      { lia. }
      { unfold set_clock. cbn [clock]. lia. }
      rewrite E3. do 3 eexists. split; [reflexivity|]. split.
      * intros Hb'. repeat apply ends_with_negative_check_app. auto.
      * intros Hb'. destruct (Htrue Hb') as [Hc Hl]. split; [exact Hc|].
        rewrite !liveness_results_app. cbn [liveness_results flat_map app].
        constructor; [reflexivity | exact Hl].
    + do 3 eexists. split; [reflexivity|]. split; [|discriminate].
      intros _. exists []. reflexivity.
  - apply Z.ltb_ge in Et. do 3 eexists. split; [reflexivity|].
    split; [discriminate|]. intros _. split; [exact Et | constructor].
Qed.

(** [monitor_build_process] always returns: it never raises and never
    blocks.  It answers [False] only straight after a liveness check that
    found the process gone; it answers [True] only when the monitoring
    time has gone by since the call, every liveness check having found
    the process running. *)
Theorem monitor_build_process_reports_stop_or_time_out name max_monitor_time w :
  exists b w' l,
    monitor_build_process name max_monitor_time w = (Ret b, w', l)
    /\ (b = false -> ends_with_negative_check name l)
    /\ (b = true ->
        max_monitor_time * 1000 <= clock w' - clock w
        /\ Forall (eq true) (liveness_results l)).
Proof.
  unfold monitor_build_process.
  rewrite (bind_run _ _ _ _ _ _ (eq_refl : time_now w = (Ret (clock w), w, []))).
  destruct (monitor_loop_spec name (clock w) (max_monitor_time * 1000)
              (S (Z.to_nat (max_monitor_time / 5 + 1))) w)
    as (b & w' & l & E & Hfalse & Htrue).
  { lia. }
  { rewrite Nat2Z.inj_succ.
    destruct (Z_lt_le_dec max_monitor_time 0).
    - lia.
    - rewrite Z2Nat.id by (pose proof (Z.div_pos max_monitor_time 5); lia).
      pose proof (Z.mul_succ_div_gt max_monitor_time 5). lia. }
  rewrite E. exists b, w', l. split; [reflexivity|]. split; assumption.
Qed.
End Pipeline.

(* ================================================================== *)
(** * Concrete runs *)

Definition nl : string := String newline EmptyString.

Definition no_file : file := mkFile None false false.

(** A world at time zero with no child, no process table entry, no
    listening server and no file. *)
Definition world0 : World := mkWorld 0 [] [] [] (fun _ => no_file).

Definition with_file (path : string) (f : file) (w : World) : World :=
  set_fs (fun p => if String.eqb p path then f else fs w p) w.

(** [json.loads] restricted to the documents of a table. *)
Definition loads_table (table : list (string * json)) (text : string) : option json :=
  Py.lookup text table.

Definition linux_config : DeploymentConfig :=
  mkConfig "qtcreator" (Argv ["pkill"; "-f"; "qtcreator"]).

(** A command that writes nothing and after a millisecond exits with the
    given code, the pipe closing with it. *)
Definition quick_child (rc : Z) : option child :=
  Some (mkChild [] (Some (1%N, rc)) (Some 1%N) (Some 0%N)).

(** Everything can be printed. *)
Definition any_text (v : json) : bool := true.

Definition listed : option completed_process := Some (mkCompleted 0 ("4711" ++ nl)).
Definition not_listed : option completed_process := Some (mkCompleted 1 EmptyString).

(** ** C1 *)

Definition world_killed : World :=
  set_proc_table [not_listed] (set_children [quick_child 1] world0).

Example kill_after_failed_command :
  kill_qt_creator "Linux" linux_config 30 world_killed
  = (Ret true, set_clock 1011 world0,
     [EvSleep 10; EvKillResult ConfiguredKill false; EvSleep 1000;
      EvLiveness "qtcreator" false]).
Proof. vm_compute. reflexivity. Qed.

Lemma success_only_after_negative_liveness_check_witness :
  ends_with_negative_check "qtcreator"
    (snd (kill_qt_creator "Linux" linux_config 30 world_killed)).
Proof.
  apply (success_only_after_negative_liveness_check "Linux" (loads_table [])
           linux_config 30 world_killed
           (snd (fst (kill_qt_creator "Linux" linux_config 30 world_killed)))).
  left. vm_compute. reflexivity.
Defined.

(** ** C10 *)

Definition world_pkill_succeeds : World :=
  set_proc_table [listed] (set_children [quick_child 0; quick_child 0] world0).

Lemma unix_kill_success_raises_attribute_error_witness :
  fst (fst (kill_qt_creator "Linux" linux_config 30 world_pkill_succeeds))
  = Raise AttributeError.
Proof.
  apply (unix_kill_success_raises_attribute_error "Linux" linux_config 30
           world_pkill_succeeds _
           (snd (fst (kill_qt_creator "Linux" linux_config 30 world_pkill_succeeds)))
           (snd (kill_qt_creator "Linux" linux_config 30 world_pkill_succeeds))).
  - reflexivity.
  - vm_compute. reflexivity.
  - left. vm_compute. tauto.
Defined.

(** ** C2 *)

(** A copy that reports, after five milliseconds, that nothing was
    copied, and a millisecond later exits with code 0. *)
Definition copied_nothing : child :=
  mkChild [(5%N, "0 File(s) copied" ++ nl)] (Some (6%N, 0)) (Some 1%N) (Some 0%N).

Definition world_copy : World := set_children [Some copied_nothing] world0.



(** The same child under the two commands, in full. *)
Example xcopy_zero_copied_run :
  run_command_capture (Shell "XCOPY build plugins /Y") None world_copy
  = (Ret (false, ["0 File(s) copied"]), set_clock 15 world0, [EvSleep 10])
  /\ run_command_capture (Argv ["robocopy"; "build"; "plugins"]) None world_copy
     = (Ret (true, ["0 File(s) copied"]), set_clock 15 world0, [EvSleep 10]).
Proof. split; vm_compute; reflexivity. Qed.

(** A copy that fails with code 4 under a command without "xcopy". *)
Example failed_copy_run :
  fst (fst (run_command (Shell "robocopy build plugins") None
              (set_children [quick_child 4] world0)))
  = Ret false.
Proof. vm_compute. reflexivity. Qed.

(** Lines ended by carriage returns, as a Windows tool writes them, and a
    marker in the part that is read after the loop. *)
Example carriage_returns_end_lines :
  fst (fst (run_command_capture (Shell "xcopy a b") None
              (set_children
                 [Some (mkChild
                          [(1%N, "a.dll" ++ String carriage_return nl);
                           (1%N, "0 File(s) copied" ++ String carriage_return nl)]
                          (Some (1%N, 0)) (Some 0%N) (Some 0%N))]
                 world0)))
  = Ret (false, ["a.dll"; "0 File(s) copied"]).
Proof. vm_compute. reflexivity. Qed.

(** ** C5 *)

(** A child that writes nothing, never exits and keeps the pipe open. *)
Definition silent_child : option child :=
  Some (mkChild [] None None (Some 0%N)).

Definition world_silent : World := set_children [silent_child] world0.

(** C5: a child that writes nothing and never exits, a timeout of one
    second: [run_command] blocks in its first [readline] and never returns,
    so the timeout never fires. *)
Theorem run_command_never_times_out_on_silent_child :
  fst (fst (run_command (Argv ["sleep"; "100000"]) (Some 1) world_silent)) = Hang.
Proof. vm_compute. reflexivity. Qed.

(** The timeout is looked at only between two reads: a child that writes
    a line every two seconds under a timeout of one second is not stopped
    until a read returns. *)
Example timeout_checked_between_reads :
  run_command (Shell "slow") (Some 1)
    (set_children
       [Some (mkChild [(2000%N, "a" ++ nl); (2000%N, "b" ++ nl)] None None
                (Some 0%N))]
       world0)
  = (Ret false, set_clock 2010 world0, [EvSleep 10]).
Proof. vm_compute. reflexivity. Qed.

(** The reads end with the pipe, not with the child.  A child that exits
    at once with code 0 while a process it started keeps the pipe open:
    the loop is not entered and [read] never returns. *)
Example exited_child_with_open_pipe_blocks :
  fst (fst (run_command (Shell "start /b server") (Some 1)
              (set_children [Some (mkChild [] (Some (0%N, 0)) None (Some 0%N))]
                 world0)))
  = Hang.
Proof. vm_compute. reflexivity. Qed.

(** A child that closes its output at once and exits with code 0 after
    fifty milliseconds: every [readline] returns the empty string and the
    loop turns every ten milliseconds until the exit. *)
Example closed_pipe_running_child :
  run_command (Shell "quiet") (Some 1)
    (set_children [Some (mkChild [] (Some (50%N, 0)) (Some 0%N) (Some 0%N))]
       world0)
  = (Ret true, set_clock 50 world0,
     [EvSleep 10; EvSleep 10; EvSleep 10; EvSleep 10; EvSleep 10]).
Proof. vm_compute. reflexivity. Qed.

(** The same child never exiting and deaf to the termination signal: the
    timeout fires after a second and [wait] never returns. *)
Example unterminated_child_blocks_in_wait :
  fst (fst (run_command (Shell "quiet") (Some 1)
              (set_children [Some (mkChild [] None (Some 0%N) None)] world0)))
  = Hang.
Proof. vm_compute. reflexivity. Qed.

(** ** C8 *)

Lemma socket_left_open_on_failure_witness :
  exists w' l,
    send_mcp_command_socket (loads_table []) quit_query "quit" world0
    = (Ret EmptyString, w', l)
    /\ In EvSocketOpen l /\ ~ In EvSocketClose l.
Proof.
  apply (socket_left_open_on_failure (loads_table []) quit_query "quit" world0).
  reflexivity.
Defined.

Example refused_connection_leaves_socket_open :
  send_mcp_command_socket (loads_table []) quit_query "quit" world0
  = (Ret EmptyString, world0, [EvSocketOpen]).
Proof. vm_compute. reflexivity. Qed.

Example timed_out_reply_leaves_socket_open :
  send_mcp_command_socket (loads_table []) quit_query "quit"
    (set_conns [mkConn ConnOk true RecvTimeout] world0)
  = (Ret EmptyString, set_clock 1000 world0, [EvSocketOpen; EvSleep 1000]).
Proof. vm_compute. reflexivity. Qed.

Example answered_request_closes_socket :
  send_mcp_command_socket (loads_table []) quit_query "quit"
    (set_conns [mkConn ConnOk true (RecvData ("ok" ++ nl))] world0)
  = (Ret "ok", world0, [EvSocketOpen; EvReply ("ok" ++ nl); EvSocketClose]).
Proof. vm_compute. reflexivity. Qed.

(** ** C9 *)

(** A schema with one tool, build, of one minute. *)
Definition schema_text : string :=
  "{" ++ quoted "mcp" ++ ":{" ++ quoted "tools" ++ ":[{"
  ++ quoted "name" ++ ":" ++ quoted "build" ++ ","
  ++ quoted "timeout" ++ ":" ++ quoted "1 minute" ++ "}]}}".

Definition build_tool : list (string * json) :=
  [("name", JStr "build"); ("timeout", JStr "1 minute")].

Definition schema_value : json :=
  JObj [("mcp", JObj [("tools", JArr [JObj build_tool])])].

Definition schema_loads : string -> option json :=
  loads_table [(schema_text, schema_value)].

Definition world_schema : World :=
  with_file "mcp.json" (mkFile (Some schema_text) true false) world0.

(** The schema says one minute for build where the hardcoded map says
    twenty: the schema decides. *)
Lemma get_mcp_timeout_schema_first_witness :
  get_mcp_timeout_for_function schema_loads "build" world_schema
  = (Ret 60, world_schema, []).
Proof.
  destruct (proj1 (get_mcp_timeout_schema_first schema_loads "build" world_schema)
              [] build_tool [])
    as (seconds & E & _ & H & _).
  - exists schema_text,
      [("mcp", JObj [("tools", JArr [JObj build_tool])])],
      [("tools", JArr [JObj build_tool])].
    repeat split; reflexivity.
  - constructor.
  - reflexivity.
  - rewrite E, (H eq_refl). reflexivity.
Defined.

Example timeout_without_schema :
  get_mcp_timeout_for_function schema_loads "build" world0 = (Ret 1200, world0, [])
  /\ get_mcp_timeout_for_function schema_loads "getBuildStatus" world0
     = (Ret 5, world0, []).
Proof. split; reflexivity. Qed.

(** The same entry behind an element that is not an object. *)
Definition stray_schema_text : string :=
  "{" ++ quoted "mcp" ++ ":{" ++ quoted "tools" ++ ":[" ++ quoted "build tools" ++ ",{"
  ++ quoted "name" ++ ":" ++ quoted "build" ++ ","
  ++ quoted "timeout" ++ ":" ++ quoted "1 minute" ++ "}]}}".

Definition stray_schema_value : json :=
  JObj [("mcp", JObj [("tools", JArr [JStr "build tools"; JObj build_tool])])].

Definition stray_schema_loads : string -> option json :=
  loads_table [(stray_schema_text, stray_schema_value)].

Definition world_stray_schema : World :=
  with_file "mcp.json" (mkFile (Some stray_schema_text) true false) world0.

(** The schema file is readable and holds an entry of one minute for
    build, yet the answer is the twenty minutes of the hardcoded map: the
    string before the entry has no [get], and the bare handler swallows
    the exception. *)
Lemma schema_entry_behind_stray_element_is_not_used :
  content (fs world_stray_schema "mcp.json") = Some stray_schema_text
  /\ readable (fs world_stray_schema "mcp.json") = true
  /\ stray_schema_loads stray_schema_text
     = Some (JObj [("mcp", JObj [("tools", JArr [JStr "build tools";
                                                 JObj build_tool])])])
  /\ get_mcp_timeout_for_function stray_schema_loads "build" world_stray_schema
     = (Ret 1200, world_stray_schema, []).
Proof. repeat split; reflexivity. Qed.

Example timeout_texts :
  map (fun text => timeout_of_string (JStr text))
    ["default"; "1 minute"; "2 minutes"; "20 minutes"; "5 minutes"]
  = [5; 60; 120; 1200; 5]
  /\ map (fun f => map_get f timeout_map 5)
       ["build"; "debug"; "loadSession"; "get_plugin_version"; "initialize";
        "quit"; "getBuildStatus"]
     = [1200; 60; 120; 1; 1; 1; 5].
Proof. split; reflexivity. Qed.

(** ** C3 *)

Definition ten_mebibytes : Z := 10485760.

(** Every timestamp can be printed. *)
Definition ctime_accepts_all (t : PrimFloat.float) : option exn := None.

(** The cases of the specification, on Windows. *)
Example verify_same_size_two_seconds :
  verify_plugin_installation "Windows" ctime_accepts_all
    (Some (mkArtifact 1000 ten_mebibytes)) (Some (mkArtifact 998 ten_mebibytes))
  = Ret true.
Proof. reflexivity. Qed.

Example verify_same_size_thirty_seconds :
  verify_plugin_installation "Windows" ctime_accepts_all
    (Some (mkArtifact 1000 ten_mebibytes)) (Some (mkArtifact 970 ten_mebibytes))
  = Ret false.
Proof. reflexivity. Qed.

Example verify_sizes_differ_on_windows :
  verify_plugin_installation "Windows" ctime_accepts_all
    (Some (mkArtifact 1000 ten_mebibytes)) (Some (mkArtifact 998 1024))
  = Ret false.
Proof. reflexivity. Qed.

(** A timestamp that [time.ctime] refuses: the exception leaves the
    function. *)
Example verify_raises_on_unprintable_timestamp :
  verify_plugin_installation "Windows"
    (fun t => if PrimFloat.ltb 1e17 t then Some OverflowError else None)
    (Some (mkArtifact 1e18 ten_mebibytes)) (Some (mkArtifact 1e18 ten_mebibytes))
  = Raise OverflowError.
Proof. reflexivity. Qed.

(** On Linux the two sizes differ, the timestamps are two seconds apart,
    and the answer is [True]. *)
Lemma verify_plugin_installation_skipped_off_windows_witness :
  verify_plugin_installation "Linux" ctime_accepts_all
    (Some (mkArtifact 1000 ten_mebibytes)) (Some (mkArtifact 998 1024))
  = Ret true.
Proof.
  apply (verify_plugin_installation_skipped_off_windows "Linux" ctime_accepts_all
           (Some (mkArtifact 1000 ten_mebibytes)) (Some (mkArtifact 998 1024))).
  reflexivity.
Defined.

(** Neither file exists, on macOS. *)
Example verify_missing_files_on_macos :
  verify_plugin_installation "Darwin" ctime_accepts_all None None = Ret true.
Proof. reflexivity. Qed.

(** ** C4 and C6: the version stage *)

Definition cmake_line (key value : string) : string :=
  "set(" ++ key ++ " " ++ value ++ ")" ++ nl.

Definition version_cmake (patch : string) : string :=
  cmake_line "PLUGIN_VERSION_MAJOR" "1"
  ++ cmake_line "PLUGIN_VERSION_MINOR" "31"
  ++ cmake_line "PLUGIN_VERSION_PATCH" patch
  ++ cmake_line "PLUGIN_NAME_VERSIONED" (quoted "Qt_MCP_Plugin")
  ++ cmake_line "PLUGIN_JSON_FILE" (quoted "Qt_MCP_Plugin.json").

Definition initialize_reply (version : string) : string :=
  "{" ++ quoted "jsonrpc" ++ ":" ++ quoted "2.0" ++ "," ++ quoted "id" ++ ":1,"
  ++ quoted "result" ++ ":{" ++ quoted "serverInfo" ++ ":{"
  ++ quoted "name" ++ ":" ++ quoted "Qt MCP Plugin" ++ ","
  ++ quoted "version" ++ ":" ++ quoted version ++ "}}}".

Definition initialize_value (version : string) : json :=
  JObj [("jsonrpc", JStr "2.0"); ("id", JNum 1);
        ("result",
         JObj [("serverInfo",
                JObj [("name", JStr "Qt MCP Plugin"); ("version", JStr version)])])].

Definition initialize_loads : string -> option json :=
  loads_table [(initialize_reply "1.31.3", initialize_value "1.31.3");
               (initialize_reply "1.31.0", initialize_value "1.31.0")].

Definition server_reporting (version : string) : conn :=
  mkConn ConnOk true (RecvData (initialize_reply version ++ nl)).

(** The version file says patch 4 and can be written; the server that
    answers after the launch is a stale one reporting 1.31.3. *)
Definition world_stale : World :=
  set_conns [mkConn ConnOk true RecvError; server_reporting "1.31.3"]
    (with_file "version.h" (mkFile None false true)
       (with_file version_file (mkFile (Some (version_cmake "4")) true true) world0)).

(** The version stage followed by the test of the running plugin (the
    stages in between do not touch the version file). *)
Definition stale_run : outcome unit * World * list event :=
  main_from_version_bump (main_test_installation initialize_loads any_text)
    world_stale.

(** The pipeline bumps the version to 1.31.5, the server reports 1.31.3,
    and the check passes: the pipeline exits with status 0. *)
Lemma stale_version_passes_check :
  content (fs (snd (fst stale_run)) version_file) = Some (version_cmake "5")
  /\ fst (fst stale_run) = Raise (SystemExit 0)
  /\ snd stale_run
     = [EvSleep 15000; EvSocketOpen; EvSocketClose;
        EvSocketOpen; EvReply (initialize_reply "1.31.3" ++ nl); EvSocketClose].
Proof. vm_compute. repeat split; reflexivity. Qed.

Example version_1_31_3_passes :
  fst (fst (test_mcp_version initialize_loads any_text
              (set_conns [server_reporting "1.31.3"] world0))) = Ret true.
Proof. vm_compute. reflexivity. Qed.

Example version_1_31_0_fails :
  fst (fst (test_mcp_version initialize_loads any_text
              (set_conns [server_reporting "1.31.0"] world0))) = Ret false.
Proof. vm_compute. reflexivity. Qed.

(** A name that the standard output cannot encode: the announcement
    raises and the check fails, whatever the version. *)
Example unprintable_name_fails :
  fst (fst (test_mcp_version initialize_loads
              (fun v => negb (Py.eq_str v "Qt MCP Plugin"))
              (set_conns [server_reporting "1.31.3"] world0))) = Ret false.
Proof. vm_compute. reflexivity. Qed.

(** [int] does not skip the separators U+001C to U+001F, which
    [str.strip] removes: a patch component that begins with one is not a
    number, and the check fails. *)
Definition separator_3 : string := String (ascii_of_N 28) "3".

Example int_keeps_separators :
  PyStr.strip separator_3 = "3"
  /\ PyStr.int separator_3 = None
  /\ PyStr.int (" 3" ++ nl) = Some 3
  /\ fst (fst (test_mcp_version
                 (loads_table
                    [(initialize_reply ("1.31." ++ separator_3),
                      initialize_value ("1.31." ++ separator_3))])
                 any_text
                 (set_conns [server_reporting ("1.31." ++ separator_3)] world0)))
     = Ret false.
Proof. vm_compute. repeat split; reflexivity. Qed.

Example regenerated_header :
  content (fs (snd (fst stale_run)) "version.h")
  = Some (version_h_content "1" "31" "5" "Qt_MCP_Plugin" "Qt_MCP_Plugin.json").
Proof. vm_compute. reflexivity. Qed.

(** The version file can be read but not written: the bump fails, and the
    pipeline goes on to the configuration all the same. *)
Definition world_read_only : World :=
  with_file "version.h" (mkFile None false true)
    (with_file version_file (mkFile (Some (version_cmake "4")) true false) world0).

Definition read_only_run : outcome unit * World * list event :=
  main_from_version_bump (tell (EvStage "Configuring")) world_read_only.

Lemma write_failure_does_not_abort :
  write_file version_file (version_cmake "5") world_read_only
  = (Raise OSError, world_read_only, [])
  /\ content (fs (snd (fst read_only_run)) version_file) = Some (version_cmake "4")
  /\ fst (fst read_only_run) = Ret tt
  /\ snd read_only_run = [EvStage "Configuring"].
Proof. vm_compute. repeat split; reflexivity. Qed.

Definition world_no_patch : World :=
  with_file "version.h" (mkFile None false true)
    (with_file version_file
       (mkFile (Some (cmake_line "PLUGIN_VERSION_MAJOR" "1")) true true) world0).

Lemma version_stage_aborts_on_read_or_parse_failure_witness :
  main_from_version_bump (tell (EvStage "Configuring")) world_no_patch
  = (Raise (SystemExit 1), world_no_patch, []).
Proof.
  apply (version_stage_aborts_on_read_or_parse_failure
           (tell (EvStage "Configuring")) world_no_patch).
  right. right. exists (cmake_line "PLUGIN_VERSION_MAJOR" "1").
  split; reflexivity.
Defined.

Example missing_version_file_aborts :
  main_from_version_bump (tell (EvStage "Configuring")) world0
  = (Raise (SystemExit 1), world0, []).
Proof. reflexivity. Qed.

(** ** C7 *)

Definition status_reply (text : string) : string :=
  "{" ++ quoted "jsonrpc" ++ ":" ++ quoted "2.0" ++ "," ++ quoted "id" ++ ":1,"
  ++ quoted "result" ++ ":" ++ quoted text ++ "}".

Definition status_value (text : string) : json :=
  JObj [("jsonrpc", JStr "2.0"); ("id", JNum 1); ("result", JStr text)].

Definition idle_after_57 : string :=
  "Status: Not building (stopped at Building: 57%)".

Definition status_loads : string -> option json :=
  loads_table (map (fun text => (status_reply text, status_value text))
                 [idle_after_57; "Building: 57%"; "Building: 100%";
                  "Status: Not building"]).

Definition server_status (text : string) : conn :=
  mkConn ConnOk true (RecvData (status_reply text ++ nl)).

(** Every reply contains "Status: Not building", and the poller gives up
    with [False] when its four seconds are over. *)
Lemma idle_marker_after_progress_not_complete :
  PyStr.contains "Status: Not building" idle_after_57 = true
  /\ poll_build_status status_loads 4
       (set_conns [server_status idle_after_57; server_status idle_after_57] world0)
     = (Ret false, set_clock 4000 world0,
        [EvSocketOpen; EvReply (status_reply idle_after_57 ++ nl); EvSocketClose;
         EvSleep 2000;
         EvSocketOpen; EvReply (status_reply idle_after_57 ++ nl); EvSocketClose;
         EvSleep 2000]).
Proof. split; vm_compute; reflexivity. Qed.

Example poll_until_complete :
  poll_build_status status_loads 1200
    (set_conns [server_status "Building: 57%"; server_status "Building: 100%"] world0)
  = (Ret true, set_clock 2000 world0,
     [EvSocketOpen; EvReply (status_reply "Building: 57%" ++ nl); EvSocketClose;
      EvSleep 2000;
      EvSocketOpen; EvReply (status_reply "Building: 100%" ++ nl); EvSocketClose]).
Proof. vm_compute. reflexivity. Qed.

Example poll_idle :
  fst (fst (poll_build_status status_loads 1200
              (set_conns [server_status "Status: Not building"] world0)))
  = Ret true.
Proof. vm_compute. reflexivity. Qed.

Example poll_gives_up_without_server :
  poll_build_status status_loads 6 world0
  = (Ret false, set_clock 6000 world0,
     [EvSocketOpen; EvSleep 2000; EvSocketOpen; EvSleep 2000;
      EvSocketOpen; EvSleep 2000]).
Proof. vm_compute. reflexivity. Qed.

(* ================================================================== *)
(** * Decimal numerals *)

From Stdlib Require DecimalPos.

(* ================================================================ *)
(** * bump_version: the patch number read back is the old one plus one *)

Definition starts_with_digit (s : string) : bool :=
  match s with
  | String c _ => PyStr.is_digit c
  | EmptyString => false
  end.

Lemma append_assoc_s (a b c : string) : (a ++ b) ++ c = a ++ b ++ c.
Proof. induction a as [|x a IH]; cbn [append]; [reflexivity|]. rewrite IH. reflexivity. Qed.

Lemma append_empty_inv (a b : string) :
  a ++ b = EmptyString -> a = EmptyString /\ b = EmptyString.
Proof. destruct a; cbn [append]; [auto | discriminate]. Qed.

Lemma strip_prefix_inv p : forall s r,
  Re.strip_prefix p s = Some r -> s = p ++ r.
Proof.
  induction p as [|a p IH]; intros s r H; cbn [Re.strip_prefix] in H.
  - injection H as ->. reflexivity.
  - destruct s as [|b s]; [discriminate|].
    destruct (Ascii.eqb a b) eqn:E; [|discriminate].
    apply Ascii.eqb_eq in E. subst b. cbn [append]. f_equal. apply IH. exact H.
Qed.

Lemma take_digits_inv s : forall d r,
  Re.take_digits s = (d, r) ->
  s = d ++ r /\ all_digits d = true /\ starts_with_digit r = false.
Proof.
  induction s as [|c s IH]; intros d r H; cbn [Re.take_digits] in H.
  - injection H as <- <-. auto.
  - destruct (PyStr.is_digit c) eqn:Ec.
    + destruct (Re.take_digits s) as [d0 r0]. injection H as <- <-.
      destruct (IH d0 r0 eq_refl) as (-> & Hd & Hr).
      cbn [append all_digits]. rewrite Ec, Hd. auto.
    + injection H as <- <-. cbn [append all_digits starts_with_digit].
      rewrite Ec. auto.
Qed.

Lemma take_digits_found d post :
  all_digits d = true -> starts_with_digit post = false ->
  Re.take_digits (d ++ post) = (d, post).
Proof.
  intros Hd Hp. apply take_digits_app; [exact Hd|].
  destruct post; [exact I | exact Hp].
Qed.

Lemma match_digits_at_found lit d post :
  all_digits d = true -> d <> EmptyString -> starts_with_digit post = false ->
  Re.match_digits_at lit EmptyString (lit ++ d ++ post) = Some (d, post).
Proof.
  intros Hd Hne Hp. unfold Re.match_digits_at.
  rewrite strip_prefix_app, (take_digits_found d post Hd Hp).
  destruct d; [congruence | reflexivity].
Qed.

Lemma match_digits_at_inv lit s d tail :
  Re.match_digits_at lit EmptyString s = Some (d, tail) ->
  s = lit ++ d ++ tail /\ all_digits d = true /\ d <> EmptyString
  /\ starts_with_digit tail = false.
Proof.
  unfold Re.match_digits_at.
  destruct (Re.strip_prefix lit s) as [after_lit|] eqn:Es; [|discriminate].
  destruct (Re.take_digits after_lit) as [d0 r0] eqn:Et.
  apply strip_prefix_inv in Es. apply take_digits_inv in Et.
  destruct Et as (-> & Hd & Hr).
  destruct d0 as [|c d0]; [discriminate|].
  cbn [Re.strip_prefix]. intros H. injection H as <- <-.
  subst s. repeat split; auto. discriminate.
Qed.

(** Whether a digit follows the prefix [p] of [s]. *)
Definition digit_after (p s : string) : bool :=
  match Re.strip_prefix p s with
  | Some rem => starts_with_digit rem
  | None => false
  end.

Lemma match_digits_at_none lit s :
  Re.match_digits_at lit EmptyString s = None <-> digit_after lit s = false.
Proof.
  unfold Re.match_digits_at, digit_after.
  destruct (Re.strip_prefix lit s) as [rem|]; [|tauto].
  destruct rem as [|c rem]; cbn [Re.take_digits starts_with_digit]; [tauto|].
  destruct (PyStr.is_digit c).
  - destruct (Re.take_digits rem) as [d0 r0]. cbn [Re.strip_prefix].
    split; discriminate.
  - tauto.
Qed.

Lemma digit_after_ext p : forall y R R',
  (String.length p < String.length y)%nat ->
  digit_after p (y ++ R) = digit_after p (y ++ R').
Proof.
  unfold digit_after.
  induction p as [|a p IH]; intros y R R' H; destruct y as [|c y];
    cbn [String.length] in H; try lia; cbn [append Re.strip_prefix].
  - reflexivity.
  - destruct (Ascii.eqb a c); [apply IH; lia | reflexivity].
Qed.

(** No match of the pattern starts inside [pre] when [Y] follows it. *)
Definition no_match_before (lit pre Y : string) : Prop :=
  forall a b, pre = a ++ b -> b <> EmptyString ->
              Re.match_digits_at lit EmptyString (b ++ Y) = None.

Lemma no_match_before_tail lit c pre Y :
  no_match_before lit (String c pre) Y -> no_match_before lit pre Y.
Proof.
  intros H a b Hab Hb. apply (H (String c a) b); [|exact Hb].
  cbn [append]. rewrite Hab. reflexivity.
Qed.

Lemma no_match_before_head lit c pre Y :
  no_match_before lit (String c pre) Y ->
  Re.match_digits_at lit EmptyString (String c (pre ++ Y)) = None.
Proof.
  intros H. apply (H EmptyString (String c pre)); [reflexivity | discriminate].
Qed.

Lemma no_match_before_ext lit pre R R' :
  no_match_before lit pre (lit ++ R) -> no_match_before lit pre (lit ++ R').
Proof.
  intros H a b Hab Hb. apply match_digits_at_none.
  pose proof (H a b Hab Hb) as E. apply match_digits_at_none in E.
  rewrite <- E. rewrite <- !append_assoc_s. apply digit_after_ext.
  rewrite length_append. destruct b; [congruence|]. cbn [String.length]. lia.
Qed.

Lemma search_digits_skip lit pre : forall Y,
  no_match_before lit pre Y ->
  Re.search_digits lit EmptyString (pre ++ Y)
  = Re.search_digits lit EmptyString Y.
Proof.
  induction pre as [|c pre IH]; intros Y H; [reflexivity|].
  cbn [append Re.search_digits].
  rewrite (no_match_before_head _ _ _ _ H).
  apply IH. exact (no_match_before_tail _ _ _ _ H).
Qed.

Lemma search_digits_here lit d post :
  all_digits d = true -> d <> EmptyString -> starts_with_digit post = false ->
  Re.search_digits lit EmptyString (lit ++ d ++ post) = Some d.
Proof.
  intros Hd Hne Hp.
  pose proof (match_digits_at_found lit d post Hd Hne Hp) as Em.
  destruct (lit ++ d ++ post); cbn [Re.search_digits]; rewrite Em; reflexivity.
Qed.

(** The leftmost match splits the text. *)
Lemma search_digits_first lit s : forall d,
  Re.search_digits lit EmptyString s = Some d ->
  exists pre post,
    s = pre ++ lit ++ d ++ post
    /\ all_digits d = true /\ d <> EmptyString
    /\ starts_with_digit post = false
    /\ no_match_before lit pre (lit ++ d ++ post).
Proof.
  induction s as [|c s IH]; intros d H; cbn [Re.search_digits] in H.
  - destruct (Re.match_digits_at lit EmptyString EmptyString)
      as [[d0 t]|] eqn:Em; [|discriminate].
    injection H as ->. apply match_digits_at_inv in Em.
    destruct Em as (Es & Hd & Hne & Ht).
    exists EmptyString, t. repeat split; auto.
    intros a b Hab Hb. symmetry in Hab. apply append_empty_inv in Hab.
    destruct Hab as [_ Hab]. contradiction.
  - destruct (Re.match_digits_at lit EmptyString (String c s))
      as [[d0 t]|] eqn:Em.
    + injection H as ->. apply match_digits_at_inv in Em.
      destruct Em as (Es & Hd & Hne & Ht).
      exists EmptyString, t. repeat split; auto.
      intros a b Hab Hb. symmetry in Hab. apply append_empty_inv in Hab.
      destruct Hab as [_ Hab]. contradiction.
    + apply IH in H. destruct H as (pre & post & -> & Hd & Hne & Hp & Hn).
      exists (String c pre), post. repeat split; auto.
      intros a b Hab Hb. destruct a as [|x a]; cbn [append] in Hab.
      * subst b. exact Em.
      * injection Hab as _ Hab. exact (Hn a b Hab Hb).
Qed.

Lemma sub_digits_skip lit repl x : forall post,
  Re.sub_digits_from lit repl (String.length x) (x ++ post)
  = Re.sub_digits_from lit repl 0 post.
Proof.
  induction x as [|c x IH]; intros post; cbn [String.length append].
  - reflexivity.
  - cbn [Re.sub_digits_from]. apply IH.
Qed.

(** [re.sub] copies the text before the leftmost match and puts the
    replacement in its place. *)
Lemma sub_digits_first lit repl pre : forall d post,
  all_digits d = true -> d <> EmptyString -> starts_with_digit post = false ->
  no_match_before lit pre (lit ++ d ++ post) ->
  Re.sub_digits_from lit repl 0 (pre ++ lit ++ d ++ post)
  = pre ++ repl ++ Re.sub_digits_from lit repl 0 post.
Proof.
  induction pre as [|c pre IH]; intros d post Hd Hne Hp Hn.
  - cbn [append].
    pose proof (match_digits_at_found lit d post Hd Hne Hp) as Em.
    rewrite <- append_assoc_s in Em |- *.
    destruct (lit ++ d) as [|c x] eqn:Ex.
    { apply append_empty_inv in Ex. destruct Ex as [_ Ex]. contradiction. }
    cbn [append] in Em |- *. cbn [Re.sub_digits_from]. rewrite Em.
    assert (El : (String.length lit + String.length d - 1)%nat = String.length x).
    { rewrite <- length_append, Ex. cbn [String.length]. lia. }
    rewrite El, sub_digits_skip. reflexivity.
  - cbn [append Re.sub_digits_from].
    rewrite (no_match_before_head _ _ _ _ Hn). f_equal.
    apply IH; auto. exact (no_match_before_tail _ _ _ _ Hn).
Qed.

Lemma sub_digits_starts lit repl post :
  starts_with_digit post = false -> starts_with_digit repl = false ->
  repl <> EmptyString ->
  starts_with_digit (Re.sub_digits_from lit repl 0 post) = false.
Proof.
  intros Hp Hr Hne. destruct post as [|c post]; [reflexivity|].
  cbn [Re.sub_digits_from].
  destruct (Re.match_digits_at lit EmptyString (String c post)) as [[d t]|].
  - destruct repl; [congruence | exact Hr].
  - exact Hp.
Qed.

(** Reading a run of decimal digits. *)
Lemma int_digits_digit c rest acc b :
  PyStr.is_digit c = true ->
  PyStr.int_digits acc b (String c rest)
  = PyStr.int_digits (10 * acc + PyStr.digit_val c) true rest.
Proof. intros H. cbn [PyStr.int_digits]. rewrite H. reflexivity. Qed.

Lemma is_digit_range c :
  PyStr.is_digit c = true -> (48 <= PyStr.code c <= 57)%N.
Proof.
  unfold PyStr.is_digit, PyStr.in_range. intros H.
  apply andb_prop in H. destruct H as [H1 H2].
  apply N.leb_le in H1. apply N.leb_le in H2. lia.
Qed.

Lemma is_digit_not_int_space c :
  PyStr.is_digit c = true -> PyStr.is_int_space c = false.
Proof.
  intros H. apply is_digit_range in H.
  unfold PyStr.is_int_space, PyStr.in_range.
  repeat match goal with
         | |- context [(?a <=? ?b)%N] =>
             destruct (N.leb_spec a b)
         | |- context [(?a =? ?b)%N] =>
             destruct (N.eqb_spec a b)
         end; cbn [andb orb]; try reflexivity; lia.
Qed.

Lemma int_rstrip_digits s : all_digits s = true -> PyStr.int_rstrip s = s.
Proof.
  induction s as [|c s IH]; intros H; [reflexivity|].
  cbn [all_digits] in H. apply andb_prop in H. destruct H as [Hc Hs].
  cbn [PyStr.int_rstrip PyStr.all_int_space].
  rewrite (is_digit_not_int_space c Hc).
  cbn [andb]. rewrite (IH Hs). reflexivity.
Qed.

Lemma count_digits_all s :
  all_digits s = true ->
  PyStr.count_digits s = N.of_nat (String.length s).
Proof.
  induction s as [|c s IH]; intros H; [reflexivity|].
  cbn [all_digits] in H. apply andb_prop in H. destruct H as [Hc Hs].
  cbn [PyStr.count_digits String.length]. rewrite Hc, (IH Hs). lia.
Qed.

Lemma int_of_digits c s :
  all_digits (String c s) = true ->
  PyStr.int (String c s) = PyStr.int_literal (String c s).
Proof.
  intros H. pose proof H as H0.
  cbn [all_digits] in H. apply andb_prop in H. destruct H as [Hc Hs].
  unfold PyStr.int. cbn [PyStr.int_lstrip].
  rewrite (is_digit_not_int_space c Hc), (int_rstrip_digits _ H0).
  apply is_digit_range in Hc.
  destruct (N.eqb_spec (PyStr.code c) 45); [lia|].
  destruct (N.eqb_spec (PyStr.code c) 43); [lia|]. reflexivity.
Qed.

(** A run of digits is within the limit of [int] when it has at most
    [int_max_str_digits] characters. *)
Lemma int_literal_digits s :
  all_digits s = true ->
  PyStr.int_literal s
  = if (N.of_nat (String.length s) <=? PyStr.int_max_str_digits)%N
    then PyStr.int_digits 0 false s
    else None.
Proof.
  intros H. unfold PyStr.int_literal. rewrite (count_digits_all s H).
  reflexivity.
Qed.

Lemma int_digits_total s : forall acc b,
  all_digits s = true -> (s <> EmptyString \/ b = true) -> 0 <= acc ->
  exists n, PyStr.int_digits acc b s = Some n /\ acc <= n.
Proof.
  induction s as [|c s IH]; intros acc b Hd Hb Ha.
  - destruct Hb as [Hb | ->]; [congruence|]. exists acc. split; [reflexivity | lia].
  - cbn [all_digits] in Hd. apply andb_prop in Hd. destruct Hd as [Hc Hs].
    rewrite (int_digits_digit c s acc b Hc).
    pose proof (is_digit_range c Hc) as Hr.
    destruct (IH (10 * acc + PyStr.digit_val c) true Hs (or_intror eq_refl))
      as (n & E & Hn).
    { unfold PyStr.digit_val. lia. }
    exists n. split; [exact E|]. unfold PyStr.digit_val in Hn. lia.
Qed.

(** The value of a decimal numeral read from the left. *)
Fixpoint uint_val (acc : Z) (d : Decimal.uint) : Z :=
  match d with
  | Decimal.Nil => acc
  | Decimal.D0 l => uint_val (10 * acc + 0) l
  | Decimal.D1 l => uint_val (10 * acc + 1) l
  | Decimal.D2 l => uint_val (10 * acc + 2) l
  | Decimal.D3 l => uint_val (10 * acc + 3) l
  | Decimal.D4 l => uint_val (10 * acc + 4) l
  | Decimal.D5 l => uint_val (10 * acc + 5) l
  | Decimal.D6 l => uint_val (10 * acc + 6) l
  | Decimal.D7 l => uint_val (10 * acc + 7) l
  | Decimal.D8 l => uint_val (10 * acc + 8) l
  | Decimal.D9 l => uint_val (10 * acc + 9) l
  end.

Lemma string_of_uint_digits d :
  all_digits (NilEmpty.string_of_uint d) = true.
Proof.
  induction d; cbn [NilEmpty.string_of_uint all_digits];
    [reflexivity | rewrite IHd; reflexivity ..].
Qed.

Lemma int_digits_string_of_uint d : forall acc b,
  (d <> Decimal.Nil \/ b = true) ->
  PyStr.int_digits acc b (NilEmpty.string_of_uint d) = Some (uint_val acc d).
Proof.
  induction d; intros acc b Hb; cbn [NilEmpty.string_of_uint uint_val];
    try (rewrite int_digits_digit by reflexivity;
         apply IHd; right; reflexivity).
  destruct Hb as [Hb | ->]; [congruence | reflexivity].
Qed.

Lemma of_uint_acc_val d : forall acc,
  Z.pos (Pos.of_uint_acc d acc) = uint_val (Z.pos acc) d.
Proof.
  induction d; intros acc; cbn [Pos.of_uint_acc uint_val];
    [reflexivity | rewrite IHd; f_equal; lia ..].
Qed.

Lemma of_uint_val d : Z.of_N (Pos.of_uint d) = uint_val 0 d.
Proof.
  induction d; cbn [Pos.of_uint uint_val];
    [reflexivity | exact IHd | cbn [Z.of_N]; rewrite of_uint_acc_val; reflexivity ..].
Qed.

(** The decimal numeral of a positive number has no leading zero. *)
Lemma to_uint_leading p :
  match Pos.to_uint p with
  | Decimal.Nil | Decimal.D0 _ => False
  | _ => True
  end.
Proof.
  assert (E : Pos.to_uint p = Decimal.unorm (Pos.to_uint p)).
  { rewrite <- DecimalPos.Unsigned.to_of, DecimalPos.Unsigned.of_to.
    reflexivity. }
  pose proof (DecimalPos.Unsigned.to_uint_nonzero p) as Hz.
  destruct (Pos.to_uint p) as [|l| | | | | | | | |] eqn:Ep; try exact I.
  - discriminate.
  - rewrite DecimalFacts.unorm_D0 in E. unfold Decimal.unorm in E.
    destruct (Decimal.nzhead l) as [|l'| | | | | | | | |] eqn:El;
      try discriminate.
    + injection E as ->. apply Hz. reflexivity.
    + exact (DecimalFacts.nzhead_nonzero l l' El).
Qed.

Lemma pow10_pos k : 0 < 10 ^ Z.of_nat k.
Proof. apply Z.pow_pos_nonneg; lia. Qed.

Lemma pow10_succ k : 10 ^ Z.of_nat (S k) = 10 * 10 ^ Z.of_nat k.
Proof. rewrite Nat2Z.inj_succ, Z.pow_succ_r by lia. reflexivity. Qed.

(** The value of a numeral of [k] digits read after [acc]. *)
Lemma uint_val_bounds d : forall acc,
  acc * 10 ^ Z.of_nat (Decimal.nb_digits d) <= uint_val acc d
  /\ uint_val acc d < (acc + 1) * 10 ^ Z.of_nat (Decimal.nb_digits d).
Proof.
  induction d; intros acc; cbn [uint_val Decimal.nb_digits];
    [rewrite Z.pow_0_r; lia | ..];
    rewrite pow10_succ;
    match goal with
    | |- context [uint_val ?a d] => destruct (IHd a) as [H1 H2]
    end;
    pose proof (pow10_pos (Decimal.nb_digits d)); nia.
Qed.

Lemma to_uint_bounds p :
  10 ^ (Z.of_nat (Decimal.nb_digits (Pos.to_uint p)) - 1) <= Z.pos p
  /\ Z.pos p < 10 ^ Z.of_nat (Decimal.nb_digits (Pos.to_uint p)).
Proof.
  assert (E : Z.pos p = uint_val 0 (Pos.to_uint p)).
  { rewrite <- of_uint_val, DecimalPos.Unsigned.of_to. reflexivity. }
  pose proof (to_uint_leading p) as Hl. rewrite E.
  destruct (Pos.to_uint p) as [|l|l|l|l|l|l|l|l|l|l]; try contradiction;
    cbn [uint_val Decimal.nb_digits];
    replace (Z.of_nat (S (Decimal.nb_digits l)) - 1)
      with (Z.of_nat (Decimal.nb_digits l)) by lia;
    rewrite pow10_succ;
    match goal with
    | |- context [uint_val ?a l] => destruct (uint_val_bounds l a) as [H1 H2]
    end;
    pose proof (pow10_pos (Decimal.nb_digits l)); nia.
Qed.

Lemma string_of_uint_length d :
  String.length (NilEmpty.string_of_uint d) = Decimal.nb_digits d.
Proof.
  induction d; cbn [NilEmpty.string_of_uint String.length Decimal.nb_digits];
    congruence.
Qed.

Lemma string_of_pos p :
  NilZero.string_of_int (Z.to_int (Z.pos p))
  = NilEmpty.string_of_uint (Pos.to_uint p).
Proof.
  cbn [Z.to_int NilZero.string_of_int].
  pose proof (DecimalPos.Unsigned.to_uint_nonnil p) as H.
  unfold NilZero.string_of_uint. destruct (Pos.to_uint p); [congruence | reflexivity ..].
Qed.

(** Forgets the value of the limit, which arithmetic need not expand. *)
Ltac hide_limit :=
  let L := fresh "L" in
  let E := fresh "E" in
  remember (10 ^ 4300) as L eqn:E; clear E.

(** A positive integer is written when it has at most
    [int_max_str_digits] digits, that is, when it is below ten to that
    power. *)
Lemma format_int_pos p :
  format_int (Z.pos p)
  = if Z.pos p <? 10 ^ 4300
    then Some (NilEmpty.string_of_uint (Pos.to_uint p))
    else None.
Proof.
  unfold format_int. cbv zeta. rewrite string_of_pos.
  rewrite (count_digits_all _ (string_of_uint_digits _)), string_of_uint_length.
  destruct (to_uint_bounds p) as [Hlo Hhi].
  set (k := Decimal.nb_digits (Pos.to_uint p)) in *.
  unfold PyStr.int_max_str_digits.
  destruct (N.leb_spec (N.of_nat k) 4300) as [Hk | Hk].
  - assert (10 ^ Z.of_nat k <= 10 ^ 4300) by (apply Z.pow_le_mono_r; lia).
    destruct (Z.ltb_spec (Z.pos p) (10 ^ 4300)) as [Hp | Hp]; [reflexivity|].
    exfalso. hide_limit. lia.
  - assert (10 ^ 4300 <= 10 ^ (Z.of_nat k - 1)) by (apply Z.pow_le_mono_r; lia).
    destruct (Z.ltb_spec (Z.pos p) (10 ^ 4300)) as [Hp | Hp]; [|reflexivity].
    exfalso. hide_limit. lia.
Qed.

(** The decimal text of a positive integer within the limit is a
    non-empty run of digits that [int] reads back as the same integer. *)
Lemma format_int_read_back m :
  0 < m -> m < 10 ^ 4300 ->
  exists text,
    format_int m = Some text
    /\ all_digits text = true /\ text <> EmptyString
    /\ PyStr.int text = Some m.
Proof.
  intros Hm Hlim. destruct m as [|p|p]; try discriminate Hm.
  pose proof (format_int_pos p) as Ef.
  destruct (Z.ltb_spec (Z.pos p) (10 ^ 4300)) as [_ | Hp];
    [|exfalso; hide_limit; lia].
  exists (NilEmpty.string_of_uint (Pos.to_uint p)). split; [exact Ef|].
  pose proof (DecimalPos.Unsigned.to_uint_nonnil p) as Hn.
  pose proof (string_of_uint_digits (Pos.to_uint p)) as Hd.
  assert (Hne : NilEmpty.string_of_uint (Pos.to_uint p) <> EmptyString).
  { destruct (Pos.to_uint p); [congruence | discriminate ..]. }
  split; [exact Hd|]. split; [exact Hne|].
  assert (Hk : (N.of_nat (Decimal.nb_digits (Pos.to_uint p)) <= 4300)%N).
  { unfold format_int in Ef. cbv zeta in Ef. rewrite string_of_pos in Ef.
    rewrite (count_digits_all _ Hd), string_of_uint_length in Ef.
    unfold PyStr.int_max_str_digits in Ef.
    destruct (N.leb_spec (N.of_nat (Decimal.nb_digits (Pos.to_uint p))) 4300);
      [assumption | discriminate]. }
  destruct (NilEmpty.string_of_uint (Pos.to_uint p)) as [|c s] eqn:Es;
    [congruence|].
  rewrite (int_of_digits c s Hd), (int_literal_digits _ Hd), <- Es.
  rewrite string_of_uint_length.
  unfold PyStr.int_max_str_digits.
  destruct (N.leb_spec (N.of_nat (Decimal.nb_digits (Pos.to_uint p))) 4300);
    [|lia].
  rewrite int_digits_string_of_uint by (left; exact Hn).
  rewrite <- of_uint_val, DecimalPos.Unsigned.of_to. reflexivity.
Qed.

(** With a version file that can be read and written and in which the
    patch field is found, [bump_version] rewrites the file so that the
    patch number read back by the same search is the old one plus one,
    and no other file changes, as long as the field has at most 4300
    digits and so has the new number.  Beyond that limit [int], or the
    formatting of the new number, raises [ValueError] and the file stays
    as it is. *)
Theorem bump_version_increments_patch w text digits :
  content (fs w version_file) = Some text ->
  readable (fs w version_file) = true ->
  writable (fs w version_file) = true ->
  Re.search_digits patch_key EmptyString text = Some digits ->
  (4300 < Z.of_nat (String.length digits) ->
   PyStr.int digits = None /\ bump_version w = (Ret tt, w, []))
  /\ (Z.of_nat (String.length digits) <= 4300 ->
      exists n,
        PyStr.int digits = Some n
        /\ (n + 1 < 10 ^ 4300 ->
            exists w' text' digits',
              bump_version w = (Ret tt, w', [])
              /\ content (fs w' version_file) = Some text'
              /\ Re.search_digits patch_key EmptyString text' = Some digits'
              /\ PyStr.int digits' = Some (n + 1)
              /\ forall p, p <> version_file -> fs w' p = fs w p)
        /\ (10 ^ 4300 <= n + 1 -> bump_version w = (Ret tt, w, []))).
Proof.
  intros Hc Hr Hw Hs.
  destruct (search_digits_first _ _ _ Hs)
    as (pre & post & Et & Hd & Hne & Hp & Hn).
  assert (Hlit : PyStr.int digits
                 = if (N.of_nat (String.length digits) <=? 4300)%N
                   then PyStr.int_digits 0 false digits
                   else None).
  { destruct digits as [|c ds]; [congruence|].
    rewrite (int_of_digits c ds Hd). apply (int_literal_digits _ Hd). }
  split.
  - intros Hlen.
    assert (Hi : PyStr.int digits = None).
    { rewrite Hlit.
      destruct (N.leb_spec (N.of_nat (String.length digits)) 4300); [lia|].
      reflexivity. }
    split; [exact Hi|].
    unfold bump_version, catch, bind, read_file, ret, raise.
    rewrite Hc, Hr, Hs, Hi. reflexivity.
  - intros Hlen.
    assert (Hi : exists n, PyStr.int digits = Some n /\ 0 <= n).
    { rewrite Hlit.
      destruct (N.leb_spec (N.of_nat (String.length digits)) 4300); [|lia].
      apply int_digits_total; [exact Hd | left; exact Hne | lia]. }
    destruct Hi as (n & Hi & Hn0).
    assert (Hpos : 0 < n + 1) by lia.
    exists n. split; [exact Hi|]. split.
    + intros Hlim.
      destruct (format_int_read_back (n + 1)) as (new & Ef & Hd' & Hne' & Hi');
        [exact Hpos | exact Hlim |].
      set (repl := patch_key ++ new).
      set (tail := Re.sub_digits_from patch_key repl 0 post).
      assert (Esub : Re.sub_digits patch_key repl text
                     = pre ++ patch_key ++ new ++ tail).
      { unfold Re.sub_digits. rewrite Et.
        rewrite (sub_digits_first patch_key repl pre digits post Hd Hne Hp Hn).
        unfold repl at 1. rewrite append_assoc_s. reflexivity. }
      assert (Htail : starts_with_digit tail = false).
      { apply sub_digits_starts; [exact Hp | reflexivity | discriminate]. }
      exists (set_fs (fun p => if String.eqb p version_file
                               then mkFile (Some (Re.sub_digits patch_key repl text))
                                      true true
                               else fs w p) w).
      exists (Re.sub_digits patch_key repl text), new.
      split.
      { unfold bump_version, catch, bind, read_file, write_file, ret.
        rewrite Hc, Hr, Hs, Hi. cbv beta zeta. rewrite Ef.
        cbv beta zeta. rewrite Hw, ?Hr. reflexivity. }
      split.
      { cbn [fs set_fs]. rewrite String.eqb_refl. reflexivity. }
      split.
      { rewrite Esub. rewrite search_digits_skip.
        - apply search_digits_here; assumption.
        - exact (no_match_before_ext _ _ _ _ Hn). }
      split; [exact Hi'|].
      intros p Hp'. cbn [fs set_fs]. apply String.eqb_neq in Hp'. rewrite Hp'.
      reflexivity.
    + intros Hlim.
      assert (Ef : format_int (n + 1) = None).
      { revert Hpos Hlim. generalize (n + 1). intros m Hpos Hlim.
        destruct m as [|p|p]; try discriminate Hpos.
        rewrite format_int_pos.
        destruct (Z.ltb_spec (Z.pos p) (10 ^ 4300)) as [Hp'|_]; [|reflexivity].
        exfalso. hide_limit. lia. }
      unfold bump_version, catch, bind, read_file, ret, raise.
      rewrite Hc, Hr, Hs, Hi. cbv beta zeta. rewrite Ef. reflexivity.
Qed.

(** [bump_version] never raises, whatever the state of the version file
    (missing, unreadable, without patch field, not writable), takes no
    time and touches no file other than the version file. *)
Theorem bump_version_never_raises w :
  exists w',
    bump_version w = (Ret tt, w', [])
    /\ clock w' = clock w
    /\ forall p, p <> version_file -> fs w' p = fs w p.
Proof.
  unfold bump_version, catch, bind, read_file, write_file, ret, raise.
  destruct (content (fs w version_file)) as [text|];
    [|exists w; repeat split; reflexivity].
  destruct (readable (fs w version_file));
    [|exists w; repeat split; reflexivity].
  destruct (Re.search_digits patch_key EmptyString text) as [digits|];
    [|exists w; repeat split; reflexivity].
  destruct (PyStr.int digits) as [n|];
    [|exists w; repeat split; reflexivity].
  cbv beta zeta.
  destruct (format_int (n + 1)) as [new|];
    [|exists w; repeat split; reflexivity].
  destruct (writable (fs w version_file));
    [|exists w; repeat split; reflexivity].
  eexists. split; [reflexivity|]. split; [reflexivity|].
  intros p Hp. cbn [fs set_fs]. apply String.eqb_neq in Hp. rewrite Hp.
  reflexivity.
Qed.

(* ================================================================== *)
(** * Further concrete runs *)

(** The liveness query cannot be run (no [pgrep]); the kill command
    fails. *)
Definition world_query_fails : World := set_children [quick_child 1] world0.

Lemma kill_qt_creator_trusts_failed_liveness_query_witness :
  exists w' l,
    kill_qt_creator "Linux" linux_config 30 world_query_fails = (Ret true, w', l)
    /\ ends_with_negative_check "qtcreator" l.
Proof.
  apply (kill_qt_creator_trusts_failed_liveness_query "Linux" linux_config 30
           world_query_fails).
  - lia.
  - simpl. split; [discriminate | left; discriminate].
  - simpl. exact I.
Defined.

(** Every kill command fails and the process stays listed. *)
Definition world_unkillable : World :=
  set_proc_table [listed; listed]
    (set_children [quick_child 1; quick_child 1; quick_child 1] world0).

Example kill_gives_up_after_budget :
  fst (fst (kill_qt_creator "Linux" linux_config 3 world_unkillable)) = Ret false.
Proof. vm_compute. reflexivity. Qed.

Lemma kill_qt_creator_fails_only_after_budget_witness :
  3 * 1000
  <= clock (snd (fst (kill_qt_creator "Linux" linux_config 3 world_unkillable)))
     - clock world_unkillable.
Proof.
  apply (kill_qt_creator_fails_only_after_budget "Linux" linux_config 3
           world_unkillable _
           (snd (kill_qt_creator "Linux" linux_config 3 world_unkillable))).
  vm_compute. reflexivity.
Defined.

Definition version_cmake_4 : string :=
  "set(PLUGIN_VERSION_MAJOR 1)" ++ nl
  ++ "set(PLUGIN_VERSION_MINOR 31)" ++ nl
  ++ "set(PLUGIN_VERSION_PATCH 4)" ++ nl.

Definition world_version_4 : World :=
  with_file "version.cmake" (mkFile (Some version_cmake_4) true true) world0.

Example bump_4_gives_5 :
  content (fs (snd (fst (bump_version world_version_4))) "version.cmake")
  = Some ("set(PLUGIN_VERSION_MAJOR 1)" ++ nl
          ++ "set(PLUGIN_VERSION_MINOR 31)" ++ nl
          ++ "set(PLUGIN_VERSION_PATCH 5)" ++ nl).
Proof. vm_compute. reflexivity. Qed.

Lemma bump_version_increments_patch_witness :
  exists w' text' digits',
    bump_version world_version_4 = (Ret tt, w', [])
    /\ content (fs w' version_file) = Some text'
    /\ Re.search_digits patch_key EmptyString text' = Some digits'
    /\ PyStr.int digits' = Some (4 + 1)
    /\ forall p, p <> version_file -> fs w' p = fs world_version_4 p.
Proof.
  destruct (proj2 (bump_version_increments_patch world_version_4
                     version_cmake_4 "4" eq_refl eq_refl eq_refl eq_refl))
    as (n & Hi & H & _); [vm_compute; discriminate|].
  vm_compute in Hi. injection Hi as <-. apply H.
  vm_compute. reflexivity.
Defined.

(** The limit of [int] and of the formatting: 4300 digits. *)
Definition ones (k : nat) : string := String.concat EmptyString (repeat "1" k).

Example int_max_str_digits_examples :
  PyStr.int (ones 4301) = None
  /\ PyStr.int (ones 4300) <> None
  /\ PyStr.int ("-" ++ ones 4300 ++ " ") <> None
  /\ format_int (10 ^ 4300) = None
  /\ format_int (10 ^ 4300 - 1) <> None.
Proof. vm_compute. repeat split; discriminate. Qed.

(** A patch field of 99: three digits after the bump. *)
Example bump_99_gives_100 :
  content
    (fs (snd (fst (bump_version
                     (with_file "version.cmake"
                        (mkFile (Some ("set(PLUGIN_VERSION_PATCH 99)" ++ nl))
                           true true)
                        world0))))
       "version.cmake")
  = Some ("set(PLUGIN_VERSION_PATCH 100)" ++ nl).
Proof. vm_compute. reflexivity. Qed.


(* ================================================================== *)
(** * qt_config.py *)

(** [str.replace(old, new)]: every occurrence, left to right, without
    overlap; [skip] counts the characters of the current occurrence still
    to be passed over.  With an empty [old], [new] goes before every
    character and at the end. *)
Fixpoint replace_from (old new : string) (skip : nat) (s : string) : string :=
  match s with
  | EmptyString => EmptyString
  | String c rest =>
      match skip with
      | S k => replace_from old new k rest
      | O =>
          if String.prefix old s
          then new ++ replace_from old new (String.length old - 1) rest
          else String c (replace_from old new O rest)
      end
  end.

Fixpoint replace_empty (new : string) (s : string) : string :=
  match s with
  | EmptyString => new
  | String c rest => new ++ String c (replace_empty new rest)
  end.

Definition str_replace (old new s : string) : string :=
  match old with
  | EmptyString => replace_empty new s
  | _ => replace_from old new O s
  end.

(** [d[key]] for a dictionary literal; [None] is [KeyError]. *)
Fixpoint dict_get {A : Type} (key : string) (d : list (string * A)) : option A :=
  match d with
  | [] => None
  | (k, v) :: rest => if String.eqb k key then Some v else dict_get key rest
  end.

(** [os.path.exists]: a path exists when the world has something there. *)
Definition os_path_exists (path : string) : M bool :=
  fun w =>
    (Ret (match content (fs w path) with Some _ => true | None => false end),
     w, []).

Module QtConfig.

Definition CUSTOM_QT_PATHS : list (string * string) :=
  [("windows", "C:/Users/davec/Developer/Qt");
   ("darwin", "/Users/davec/Developer/Qt");
   ("linux", "/opt")].

Definition CUSTOM_HOSTNAMES : list string := ["pandora"].

Definition QT_CREATOR_PROCESSES : list (string * string) :=
  [("windows", "qtcreator.exe"); ("darwin", "Qt Creator"); ("linux", "qtcreator")].

Definition KILL_COMMANDS : list (string * list string) :=
  [("windows", ["taskkill"; "/F"; "/IM"; "qtcreator.exe"]);
   ("darwin", ["pkill"; "-f"; "Qt Creator"]);
   ("linux", ["pkill"; "-f"; "qtcreator"])].

Definition TEST_COMMANDS : list (string * list string) :=
  [("windows", ["telnet"; "localhost"; "3001"]);
   ("darwin", ["nc"; "-w"; "3"; "localhost"; "3001"]);
   ("linux", ["nc"; "-w"; "3"; "localhost"; "3001"])].

Definition PLUGIN_EXTENSIONS : list (string * string) :=
  [("windows", ".dll"); ("darwin", ".dylib"); ("linux", ".so")].

Definition PLUGIN_DIRECTORIES : list (string * string) :=
  [("windows", "plugins"); ("darwin", "PlugIns/qtcreator"); ("linux", "plugins")].

Definition build_qt_creator_path (base_path system : string) : string :=
  if String.eqb system "windows" then base_path ++ "/Tools/QtCreator/lib"
  else if String.eqb system "darwin"
       then base_path ++ "/Qt Creator.app/Contents/Resources"
       else base_path ++ "/qtcreator".

Definition build_qt_creator_bin_path (base_path system : string) : string :=
  if String.eqb system "windows"
  then base_path ++ "/Tools/QtCreator/bin/qtcreator.exe"
  else if String.eqb system "darwin"
       then base_path ++ "/Qt Creator.app/Contents/MacOS/Qt Creator"
       else base_path ++ "/qtcreator/bin/qtcreator".

(** The condition on a line of the output of qtdiag. *)
Definition version_line (line : string) : bool :=
  PyStr.contains "Qt" line
  && (PyStr.contains "x86_64" line || PyStr.contains "arm64" line
      || PyStr.contains "gcc" line || PyStr.contains "Apple LLVM" line).

(** A match of [Qt (\d+\.\d+\.\d+)] at the start of [s]: its group.
    Each run of digits is maximal; a shorter run would be followed by a
    digit, where the pattern wants a dot or ends. *)
Definition match_version_at (s : string) : option string :=
  match Re.strip_prefix "Qt " s with
  | None => None
  | Some r0 =>
      match Re.take_digits r0 with
      | (EmptyString, _) => None
      | (d1, r1) =>
          match Re.strip_prefix "." r1 with
          | None => None
          | Some r2 =>
              match Re.take_digits r2 with
              | (EmptyString, _) => None
              | (d2, r3) =>
                  match Re.strip_prefix "." r3 with
                  | None => None
                  | Some r4 =>
                      match Re.take_digits r4 with
                      | (EmptyString, _) => None
                      | (d3, _) => Some (d1 ++ "." ++ d2 ++ "." ++ d3)
                      end
                  end
              end
          end
      end
  end.

(** [re.search] of that pattern: group 1 of the leftmost match. *)
Fixpoint search_version (s : string) : option string :=
  match match_version_at s with
  | Some v => Some v
  | None =>
      match s with
      | EmptyString => None
      | String _ rest => search_version rest
      end
  end.

(** The loop over the lines: the first line that passes the condition
    and holds a version decides. *)
Fixpoint first_version (lines : list string) : option string :=
  match lines with
  | [] => None
  | line :: rest =>
      if version_line line then
        match search_version line with
        | Some version => Some version
        | None => first_version rest
        end
      else first_version rest
  end.

(** [os.path.dirname] and [os.path.join] of two parts, as on macOS. *)
Fixpoint rfind_slash (s : string) : option nat :=
  match s with
  | EmptyString => None
  | String c rest =>
      match rfind_slash rest with
      | Some i => Some (S i)
      | None => if Ascii.eqb c "/" then Some O else None
      end
  end.

Fixpoint all_slashes (s : string) : bool :=
  match s with
  | EmptyString => true
  | String c rest => Ascii.eqb c "/" && all_slashes rest
  end.

Fixpoint rstrip_slashes (s : string) : string :=
  match s with
  | EmptyString => EmptyString
  | String c rest =>
      if all_slashes s then EmptyString else String c (rstrip_slashes rest)
  end.

Definition posix_dirname (p : string) : string :=
  let head :=
    match rfind_slash p with
    | Some i => String.substring 0 (S i) p
    | None => EmptyString
    end in
  if all_slashes head then head else rstrip_slashes head.

Definition ends_with_slash (s : string) : bool :=
  match rfind_slash s with
  | Some i => Nat.eqb (S i) (String.length s)
  | None => false
  end.

Definition posix_join (a b : string) : string :=
  if String.prefix "/" b then b
  else match a with
       | EmptyString => b
       | _ => if ends_with_slash a then a ++ b else a ++ "/" ++ b
       end.

Section Config.

(** [platform.system()] and [socket.gethostname()]. *)
Variable platform : string.
Variable hostname : string.

(** The command that [discover_qt_version] runs. *)
Definition qtdiag_path (qt_creator_bin : string) : string :=
  if String.eqb (system platform) "windows"
  then str_replace "qtcreator.exe" "qtdiag.exe" qt_creator_bin
  else if String.eqb (system platform) "darwin"
       then posix_join (posix_dirname qt_creator_bin) "qtdiag"
       else str_replace "qtcreator" "qtdiag" qt_creator_bin.

(** [discover_qt_version]: [None] is Python's [None].  The process table
    of the world answers the calls of [subprocess.run] in their order,
    whatever the command, so the path of qtdiag does not show here. *)
Definition discover_qt_version (qt_creator_bin : string) : M (option string) :=
  catch
    (result <- subprocess_run ;;
     if returncode result =? 0
     then ret (first_version (PyStr.split newline (stdout result)))
     else ret None)
    (fun _ => ret None).

Inductive qt_error : Type :=
| RuntimeError
| KeyError.

Inductive qt_result (A : Type) : Type :=
| Ok (a : A)
| Failed (e : qt_error).

Arguments Ok {A} a.
Arguments Failed {A} e.

(** The dictionary that [get_qt_config] returns. *)
Record Config : Type := mkConfig {
name : string;
qt_path : string;
qt_creator_path : string;
qt_creator_bin : string;
process_name : string;
kill_command : list string;
test_command : list string;
plugin_extension : string;
plugin_directory : string;
qt_creator_app : option string;
qt6_path : string
}.

Definition custom_path : bool :=
  existsb (fun custom_hostname =>
             PyStr.contains (PyStr.lower custom_hostname) (PyStr.lower hostname))
    CUSTOM_HOSTNAMES.

Definition standard_paths : list (string * string) :=
  [("windows", "C:/Qt"); ("darwin", "/Applications"); ("linux", "/opt")].

Definition platform_names : list (string * string) :=
  [("windows", "Windows"); ("darwin", "macOS"); ("linux", "Linux")].

(** [table[system]], going on with the value or raising [KeyError]. *)
Definition with_key {A B : Type} (table : list (string * A))
    (k : A -> M (qt_result B)) : M (qt_result B) :=
  match dict_get (system platform) table with
  | Some a => k a
  | None => ret (Failed KeyError)
  end.

(** The last part of [get_qt_config]: the dictionary is put together. *)
Definition build_config (base_path qt_creator_path qt_creator_bin qt_version : string)
  : M (qt_result Config) :=
  with_key platform_names (fun name =>
  with_key QT_CREATOR_PROCESSES (fun process_name =>
  with_key KILL_COMMANDS (fun kill_command =>
  with_key TEST_COMMANDS (fun test_command =>
  with_key PLUGIN_EXTENSIONS (fun plugin_extension =>
  with_key PLUGIN_DIRECTORIES (fun plugin_directory =>
    let config app qt6 :=
      mkConfig name base_path qt_creator_path qt_creator_bin process_name
        kill_command test_command plugin_extension plugin_directory app qt6 in
    if String.eqb (system platform) "darwin" then
      ret (Ok (config
                 (Some (str_replace "/Contents/Resources" EmptyString
                          qt_creator_path))
                 (base_path ++ "/" ++ qt_version ++ "/macos")))
    else if String.eqb (system platform) "windows" then
      ret (Ok (config None
                 (base_path ++ "/Qt/" ++ qt_version ++ "/msvc2022_64")))
    else
      ret (Ok (config None
                 (base_path ++ "/" ++ qt_version ++ "/gcc_64")))
  )))))).

Definition get_qt_config : M (qt_result Config) :=
  with_key (if custom_path then CUSTOM_QT_PATHS else standard_paths)
    (fun base_path =>
       let qt_creator_path := build_qt_creator_path base_path (system platform) in
       let qt_creator_bin := build_qt_creator_bin_path base_path (system platform) in
       bin_exists <- os_path_exists qt_creator_bin ;;
       if negb bin_exists then ret (Failed RuntimeError) else
       lib_exists <- os_path_exists qt_creator_path ;;
       if negb lib_exists then ret (Failed RuntimeError) else
       found <- discover_qt_version qt_creator_bin ;;
       match found with
       | None => ret (Failed RuntimeError)
       | Some qt_version =>
           build_config base_path qt_creator_path qt_creator_bin qt_version
       end).

(** [get_windeployqt_path]: the path, or [RuntimeError]. *)
Definition get_windeployqt_path : M (qt_result string) :=
  if negb (String.eqb (system platform) "windows") then ret (Failed RuntimeError)
  else
    r <- get_qt_config ;;
    match r with
    | Failed e => ret (Failed e)
    | Ok config =>
        found <- discover_qt_version (qt_creator_bin config) ;;
        match found with
        | None => ret (Failed RuntimeError)
        | Some qt_version =>
            ret (Ok (qt_path config ++ "/Qt/" ++ qt_version
                     ++ "/msvc2022_64/bin/windeployqt.exe"))
        end
    end.

End Config.

Arguments Ok {A} a.
Arguments Failed {A} e.

End QtConfig.

(** ** Properties of the configuration *)

Module QtConfigFacts.
Import QtConfig.

(** A version string: three non-empty runs of digits with dots between. *)
Definition dotted_triple (v : string) : Prop :=
  exists d1 d2 d3,
    v = d1 ++ "." ++ d2 ++ "." ++ d3
    /\ (all_digits d1 = true /\ d1 <> EmptyString)
    /\ (all_digits d2 = true /\ d2 <> EmptyString)
    /\ (all_digits d3 = true /\ d3 <> EmptyString).

Lemma take_digits_run s d r :
  Re.take_digits s = (d, r) -> all_digits d = true.
Proof. intros H. apply take_digits_inv in H. tauto. Qed.

Lemma match_version_at_triple s v :
  match_version_at s = Some v -> dotted_triple v.
Proof.
  unfold match_version_at.
  destruct (Re.strip_prefix "Qt " s) as [r0|]; [|discriminate].
  destruct (Re.take_digits r0) as [d1 r1] eqn:E1.
  destruct d1 as [|c1 d1]; [discriminate|].
  destruct (Re.strip_prefix "." r1) as [r2|]; [|discriminate].
  destruct (Re.take_digits r2) as [d2 r3] eqn:E2.
  destruct d2 as [|c2 d2]; [discriminate|].
  destruct (Re.strip_prefix "." r3) as [r4|]; [|discriminate].
  destruct (Re.take_digits r4) as [d3 r5] eqn:E3.
  destruct d3 as [|c3 d3]; [discriminate|].
  intros H. injection H as <-.
  exists (String c1 d1), (String c2 d2), (String c3 d3).
  apply take_digits_run in E1. apply take_digits_run in E2.
  apply take_digits_run in E3.
  repeat split; auto; discriminate.
Qed.

Lemma search_version_triple s : forall v,
  search_version s = Some v -> dotted_triple v.
Proof.
  induction s as [|c s IH]; intros v H; cbn [search_version] in H.
  - destruct (match_version_at EmptyString) eqn:E; [|discriminate].
    injection H as <-. exact (match_version_at_triple _ _ E).
  - destruct (match_version_at (String c s)) eqn:E.
    + injection H as <-. exact (match_version_at_triple _ _ E).
    + exact (IH v H).
Qed.

Lemma first_version_triple lines : forall v,
  first_version lines = Some v -> dotted_triple v.
Proof.
  induction lines as [|line rest IH]; intros v H; cbn [first_version] in H;
    [discriminate|].
  destruct (version_line line); [|exact (IH v H)].
  destruct (search_version line) eqn:E; [|exact (IH v H)].
  injection H as <-. exact (search_version_triple _ _ E).
Qed.

(** Nothing but the process table differs between the two worlds. *)
Definition only_process_table_differs (w w' : World) : Prop :=
  clock w' = clock w /\ children w' = children w
  /\ conns w' = conns w /\ fs w' = fs w.

Lemma only_process_table_differs_refl w : only_process_table_differs w w.
Proof. repeat split. Qed.

Lemma discover_qt_version_spec bin w :
  exists r w',
    discover_qt_version bin w = (Ret r, w', [])
    /\ only_process_table_differs w w'
    /\ forall v, r = Some v ->
         dotted_triple v
         /\ exists out rest, proc_table w = Some (mkCompleted 0 out) :: rest.
Proof.
  unfold discover_qt_version, catch, bind, subprocess_run, ret.
  destruct (proc_table w) as [|[[rc out]|] rest] eqn:Ep;
    cbn [returncode stdout is_exception app].
  - eexists _, _. split; [reflexivity|]. split; [repeat split|]. discriminate.
  - destruct (rc =? 0) eqn:Erc.
    + apply Z.eqb_eq in Erc. subst rc. eexists _, _.
      split; [reflexivity|]. split; [repeat split|]. intros v H. split.
      * exact (first_version_triple _ _ H).
      * eauto.
    + eexists _, _. split; [reflexivity|]. split; [repeat split|]. discriminate.
  - eexists _, _. split; [reflexivity|]. split; [repeat split|]. discriminate.
Qed.

(** [discover_qt_version] never raises, takes no time and changes no
    file.  A version that it returns has the form N.N.N, and qtdiag has
    then run with exit code 0. *)
Theorem discover_qt_version_gives_dotted_triple bin w :
  exists r w',
    discover_qt_version bin w = (Ret r, w', [])
    /\ only_process_table_differs w w'
    /\ forall v, r = Some v ->
         dotted_triple v
         /\ exists out rest, proc_table w = Some (mkCompleted 0 out) :: rest.
Proof. exact (discover_qt_version_spec bin w). Qed.

Definition known_systems : list string := ["windows"; "darwin"; "linux"].

Lemma system_cases (s : string) :
  s = "windows" \/ s = "darwin" \/ s = "linux"
  \/ (String.eqb "windows" s = false /\ String.eqb "darwin" s = false
      /\ String.eqb "linux" s = false /\ ~ In s known_systems).
Proof.
  destruct (String.eqb_spec "windows" s) as [<-|H1]; [auto|].
  destruct (String.eqb_spec "darwin" s) as [<-|H2]; [auto|].
  destruct (String.eqb_spec "linux" s) as [<-|H3]; [auto|].
  right. right. right. repeat split; auto.
  unfold known_systems. simpl. intuition congruence.
Qed.

Section Facts.

Variable platform : string.
Variable hostname : string.

Lemma get_qt_config_spec w :
  exists r w',
    get_qt_config platform hostname w = (Ret r, w', [])
    /\ only_process_table_differs w w'
    /\ (forall config, r = Ok config ->
          In (system platform) known_systems
          /\ content (fs w (qt_creator_bin config)) <> None
          /\ content (fs w (qt_creator_path config)) <> None
          /\ dict_get (system platform) QT_CREATOR_PROCESSES
             = Some (process_name config)
          /\ dict_get (system platform) KILL_COMMANDS
             = Some (kill_command config)
          /\ exists out rest, proc_table w = Some (mkCompleted 0 out) :: rest)
    /\ (r = Failed KeyError <-> ~ In (system platform) known_systems).
Proof.
  unfold get_qt_config, build_config, with_key.
  destruct (system_cases (system platform))
    as [Hs | [Hs | [Hs | (H1 & H2 & H3 & Hn)]]].
  4: { exists (Failed KeyError), w.
       destruct (custom_path hostname); cbn [dict_get CUSTOM_QT_PATHS standard_paths];
         rewrite H1, H2, H3; (split; [reflexivity|]); (split; [repeat split|]);
         (split; [discriminate|]); tauto. }
  all: rewrite Hs.
  all: destruct (custom_path hostname);
    cbn [dict_get CUSTOM_QT_PATHS standard_paths platform_names
           QT_CREATOR_PROCESSES KILL_COMMANDS TEST_COMMANDS PLUGIN_EXTENSIONS
           PLUGIN_DIRECTORIES String.eqb Ascii.eqb Bool.eqb];
    cbv zeta.
  all: match goal with
       | |- context [os_path_exists ?p] => set (bin := p)
       end.
  all: match goal with
       | |- context [os_path_exists (build_qt_creator_path ?b ?s)] =>
           set (lib := build_qt_creator_path b s)
       end.
  all: unfold bind at 1; unfold os_path_exists at 1;
    destruct (content (fs w bin)) as [cb|] eqn:Eb; cbn [negb];
    [|exists (Failed RuntimeError), w; repeat split;
      try discriminate; try reflexivity;
      intros Hk; exfalso; apply Hk; unfold known_systems; simpl; auto].
  all: unfold bind at 1; unfold os_path_exists at 1;
    destruct (content (fs w lib)) as [cl|] eqn:El; cbn [negb];
    [|exists (Failed RuntimeError), w; repeat split;
      try discriminate; try reflexivity;
      intros Hk; exfalso; apply Hk; unfold known_systems; simpl; auto].
  all: destruct (discover_qt_version_spec bin w) as (r & w1 & E & Hfs & Hv);
    unfold bind; rewrite E; destruct r as [v|];
    [|exists (Failed RuntimeError), w1; repeat split;
      try discriminate; try reflexivity; try apply Hfs;
      intros Hk; exfalso; apply Hk; unfold known_systems; simpl; auto].
  all: destruct (Hv v eq_refl) as [_ Hp].
  all: eexists _, w1; unfold ret; cbn [app]; split; [reflexivity|];
    split; [exact Hfs|]; split;
    [|split; [discriminate | intros Hk; exfalso; apply Hk;
                              unfold known_systems; simpl; auto]].
  all: intros config Hc; injection Hc as <-;
    cbn [qt_creator_bin qt_creator_path process_name kill_command];
    split; [unfold known_systems; simpl; auto|];
    split; [fold bin; rewrite Eb; discriminate|];
    split; [fold lib; rewrite El; discriminate|];
    split; [reflexivity|]; split; [reflexivity | exact Hp].
Qed.

(** [get_qt_config] returns a configuration only on one of the three
    known systems, and only when the Qt Creator binary and its library
    directory exist and a Qt version was discovered; the process name
    and the kill command are those of the system.  On any other system
    it raises [KeyError], which is not the [RuntimeError] that [main]
    expects.  It changes no file. *)
Theorem get_qt_config_checks_installation w :
  exists r w',
    get_qt_config platform hostname w = (Ret r, w', [])
    /\ only_process_table_differs w w'
    /\ (forall config, r = Ok config ->
          In (system platform) known_systems
          /\ content (fs w (qt_creator_bin config)) <> None
          /\ content (fs w (qt_creator_path config)) <> None
          /\ dict_get (system platform) QT_CREATOR_PROCESSES
             = Some (process_name config)
          /\ dict_get (system platform) KILL_COMMANDS
             = Some (kill_command config)
          /\ exists out rest, proc_table w = Some (mkCompleted 0 out) :: rest)
    /\ (r = Failed KeyError <-> ~ In (system platform) known_systems).
Proof. exact (get_qt_config_spec w). Qed.

Lemma only_process_table_differs_trans w1 w2 w3 :
  only_process_table_differs w1 w2 -> only_process_table_differs w2 w3 ->
  only_process_table_differs w1 w3.
Proof.
  unfold only_process_table_differs.
  intros (A1 & A2 & A3 & A4) (B1 & B2 & B3 & B4).
  repeat split; congruence.
Qed.

(** [get_windeployqt_path] runs qtdiag twice: once inside
    [get_qt_config] and once more for the version.  On Windows a failure
    is always a [RuntimeError]. *)
Lemma get_windeployqt_path_spec w :
  exists r w',
    get_windeployqt_path platform hostname w = (Ret r, w', [])
    /\ only_process_table_differs w w'
    /\ (system platform = "windows" -> r <> Failed KeyError).
Proof.
  unfold get_windeployqt_path.
  destruct (String.eqb_spec (system platform) "windows") as [Hs|Hs]; cbn [negb].
  - destruct (get_qt_config_spec w) as (r & w1 & E & Hf & _ & Hk).
    rewrite (bind_run _ _ _ _ _ _ E). destruct r as [config|e].
    + destruct (discover_qt_version_spec (qt_creator_bin config) w1)
        as (v & w2 & E2 & Hf2 & _).
      rewrite (bind_run _ _ _ _ _ _ E2). destruct v; eexists _, w2;
        (split; [reflexivity|]);
        (split; [exact (only_process_table_differs_trans _ _ _ Hf Hf2)|]);
        discriminate.
    + exists (Failed e), w1. split; [reflexivity|]. split; [exact Hf|].
      intros _ He. injection He as ->. apply (proj1 Hk eq_refl). rewrite Hs.
      unfold known_systems. simpl. auto.
  - exists (Failed RuntimeError), w. split; [reflexivity|].
    split; [apply only_process_table_differs_refl|]. discriminate.
Qed.

End Facts.

(** On Linux the path of qtdiag is made from the path of the Qt Creator
    binary by replacing every [qtcreator], the one in the directory name
    too. *)
Example qtdiag_path_on_linux :
  qtdiag_path "Linux" (build_qt_creator_bin_path "/opt" "linux")
  = "/opt/qtdiag/bin/qtdiag".
Proof. reflexivity. Qed.

Example qtdiag_path_on_macos :
  qtdiag_path "Darwin" (build_qt_creator_bin_path "/Applications" "darwin")
  = "/Applications/Qt Creator.app/Contents/MacOS/qtdiag".
Proof. reflexivity. Qed.

Example qtdiag_output_version :
  first_version
    (PyStr.split newline
       ("Qt 6.9.2 (arm64-little_endian-lp64 shared (dynamic) release build)"
        ++ String newline "Library info:"))
  = Some "6.9.2".
Proof. reflexivity. Qed.

End QtConfigFacts.

(* ================================================================== *)
(** * install_plugin and step 5c of main *)

Definition PLUGIN_BINARY_NAME : string := "libQt_MCP_Plugin.1.dylib".
Definition PLUGIN_JSON_NAME : string := "Qt_MCP_Plugin.json".
Definition PLUGIN_RELATIVE_PATH : string :=
  "Qt Creator.app/Contents/PlugIns/qtcreator".

(** [s.endswith(suffix)] *)
Definition ends_with (s suffix : string) : bool :=
  (String.length suffix <=? String.length s)%nat
  && String.eqb
       (String.substring (String.length s - String.length suffix)
          (String.length suffix) s)
       suffix.

(** [os.makedirs(path, exist_ok=True)]: nothing to do for a path that
    exists; the directory is made where the world lets one write, and
    [OSError] is raised where it does not. *)
Definition os_makedirs (path : string) : M unit :=
  fun w =>
    match content (fs w path) with
    | Some _ => (Ret tt, w, [])
    | None =>
        if writable (fs w path)
        then (Ret tt,
              set_fs (fun p => if String.eqb p path
                               then mkFile (Some EmptyString) true true
                               else fs w p) w,
              [])
        else (Raise OSError, w, [])
    end.


(** [run_command] takes the first child of the world, if there is one,
    and leaves the others. *)
Lemma run_command_children cmd timeout w o w' l :
  run_command cmd timeout w = (o, w', l) -> children w' = tl (children w).
Proof.
  intros H.
  destruct (run_command_capture cmd timeout w) as [[o1 w1] l1] eqn:E.
  rewrite (run_command_of_capture _ _ _ _ _ _ E) in H.
  injection H as _ <- _.
  rewrite run_command_capture_eq in E.
  destruct (children w) as [|[c|] rest] eqn:Ec.
  - injection E as _ <- _. rewrite Ec. reflexivity.
  - cbv zeta in E.
    match type of E with
    | context [stream_loop ?a ?b ?c ?d ?e ?f] =>
        destruct (stream_loop a b c d e f) as [[o2 w2] l2] eqn:El
    end.
    apply stream_loop_frame in El. destruct El as [_ Hc]. cbn [tl].
    destruct o2 as [r|e| |].
    + destruct r as [lines|rc p lines]; [injection E as _ <- _; exact Hc|].
      destruct (read_rest p (clock w2)) as [[text now']|];
        injection E as _ <- _; exact Hc.
    + destruct (is_exception e); injection E as _ <- _; exact Hc.
    + injection E as _ <- _. exact Hc.
    + injection E as _ <- _. exact Hc.
  - injection E as _ <- _. reflexivity.
Qed.

Lemma os_makedirs_frame path w o w' l :
  os_makedirs path w = (o, w', l) ->
  children w' = children w /\ proc_table w' = proc_table w
  /\ forall p, content (fs w p) <> None -> content (fs w' p) <> None.
Proof.
  unfold os_makedirs.
  destruct (content (fs w path)) eqn:Ec;
    [|destruct (writable (fs w path))]; intros H; injection H as _ <- _;
    repeat split; auto.
  intros p Hp. cbn [fs set_fs]. destruct (String.eqb p path); [discriminate | exact Hp].
Qed.

Section Installation.

(** [platform.system()], [socket.gethostname()], [os.path.expanduser]
    of the home directory, [os.getcwd()], [glob.glob] and
    [os.path.join]. *)
Variable platform : string.
Variable hostname : string.
Variable home_dir : string.
Variable current_dir : string.
Variable glob_glob : string -> list string.
Variable os_path_join : string -> list string -> string.

Definition get_plugin_paths : string * string :=
  if String.eqb (system platform) "windows" then
    if ends_with current_dir "\build" || ends_with current_dir "/build"
    then ("lib/qtcreator/plugins/Release/Qt_MCP_Plugin.dll", "Qt_MCP_Plugin.json")
    else (os_path_join "build_windows"
            ["lib"; "qtcreator"; "plugins"; "Release"; "Qt_MCP_Plugin.dll"],
          os_path_join "build_windows" ["Qt_MCP_Plugin.json"])
  else
    let build_dir := "build_" ++ system platform in
    if ends_with current_dir "/build"
    then (os_path_join PLUGIN_RELATIVE_PATH [PLUGIN_BINARY_NAME], PLUGIN_JSON_NAME)
    else (os_path_join build_dir [PLUGIN_RELATIVE_PATH; PLUGIN_BINARY_NAME],
          os_path_join build_dir [PLUGIN_JSON_NAME]).

(** [run_command(cmd)], its result dropped. *)
Definition run_and_drop (cmd : command) : M unit :=
  _ <- run_command cmd None ;; ret tt.

(** [if os.path.exists(src): run_command(["cp", src, dir + "/"])] *)
Definition copy_if_exists (src dir : string) : M unit :=
  found <- os_path_exists src ;;
  if found then run_and_drop (Argv ["cp"; src; dir ++ "/"]) else ret tt.

(** The loop over [cleanup_paths], each turn under [try ... except:
    pass]. *)
Fixpoint cleanup (paths : list string) : M unit :=
  match paths with
  | [] => ret tt
  | path :: rest =>
      catch_all (run_and_drop (Argv ("rm" :: "-f" :: glob_glob path))) (ret tt) ;;;
      cleanup rest
  end.

Definition cleanup_paths : list string :=
  let user_plugins :=
    home_dir ++ "/Library/Application Support/QtProject/qtcreator/plugins/" in
  let bundle_plugins :=
    home_dir ++ "/Developer/Qt/Qt Creator.app/Contents/PlugIns/qtcreator/" in
  [user_plugins ++ "libQt_MCP_Plugin*.dylib";
   user_plugins ++ PLUGIN_JSON_NAME;
   user_plugins ++ "Qt_MCP_Plugin_discovery.json";
   bundle_plugins ++ "libQt_MCP_Plugin*.dylib";
   bundle_plugins ++ PLUGIN_JSON_NAME;
   bundle_plugins ++ "Qt_MCP_Plugin_discovery.json"].

(** The branch of macOS; it ends without a [return]. *)
Definition install_on_macos : M (option bool) :=
  cleanup cleanup_paths ;;;
  let app_bundle_dir :=
    home_dir ++ "/Developer/Qt/Qt Creator.app/Contents/PlugIns/qtcreator" in
  os_makedirs app_bundle_dir ;;;
  let plugin_binary := fst get_plugin_paths in
  let plugin_json := snd get_plugin_paths in
  let plugin_discovery := str_replace ".json" "_discovery.json" plugin_json in
  copy_if_exists plugin_binary app_bundle_dir ;;;
  copy_if_exists plugin_json app_bundle_dir ;;;
  copy_if_exists plugin_discovery app_bundle_dir ;;;
  ret None.

(** One of the three copies of the Windows branch; [success] is the
    flag before the copy, the result the flag after it. *)
Definition xcopy_step (src dir : string) (success : bool) : M bool :=
  found <- os_path_exists src ;;
  if found then
    copied <- run_command
                (Shell ("xcopy " ++ quoted src ++ " " ++ quoted dir ++ " /Y")) None ;;
    if copied then ret success else ret false
  else ret false.

(** The branch of Windows.  A [KeyError] out of [get_windeployqt_path]
    is not caught and leaves the function. *)
Definition install_on_windows : M (QtConfig.qt_result (option bool)) :=
  let app_bundle_dir :=
    home_dir ++ "/Developer/Qt/Tools/QtCreator/lib/qtcreator/plugins" in
  os_makedirs app_bundle_dir ;;;
  let plugin_binary :=
    os_path_join current_dir
      ["build_windows"; "lib"; "qtcreator"; "plugins"; "Release";
       "Qt_MCP_Plugin.dll"] in
  let plugin_json :=
    os_path_join current_dir ["build_windows"; "Qt_MCP_Plugin.json"] in
  let plugin_discovery :=
    os_path_join current_dir ["build_windows"; "Qt_MCP_Plugin_discovery.json"] in
  windeployqt <- QtConfig.get_windeployqt_path platform hostname ;;
  match windeployqt with
  | QtConfig.Failed QtConfig.RuntimeError => sys_exit 1
  | QtConfig.Failed QtConfig.KeyError => ret (QtConfig.Failed QtConfig.KeyError)
  | QtConfig.Ok _ =>
      success <- xcopy_step plugin_binary app_bundle_dir true ;;
      success <- xcopy_step plugin_json app_bundle_dir success ;;
      success <- xcopy_step plugin_discovery app_bundle_dir success ;;
      ret (QtConfig.Ok (Some success))
  end.

(** The branch of Linux; it ends without a [return]. *)
Definition install_on_linux : M (option bool) :=
  let app_bundle_dir := "/usr/lib/qtcreator/plugins" in
  os_makedirs app_bundle_dir ;;;
  copy_if_exists "build/lib/qtcreator/plugins/libQt_MCP_Plugin.so" app_bundle_dir ;;;
  copy_if_exists "build/Qt_MCP_Plugin.json" app_bundle_dir ;;;
  copy_if_exists "build/Qt_MCP_Plugin_discovery.json" app_bundle_dir ;;;
  ret None.

(** [install_plugin(config)]: [Ok None] is Python's [None], what a
    function gives that ends without [return]. *)
Definition install_plugin : M (QtConfig.qt_result (option bool)) :=
  if String.eqb (system platform) "darwin" then
    r <- install_on_macos ;; ret (QtConfig.Ok r)
  else if String.eqb (system platform) "windows" then install_on_windows
  else r <- install_on_linux ;; ret (QtConfig.Ok r).

(** Step 5c of [main]: [if not install_plugin(config): sys.exit(1)];
    [rest] is what follows. *)
Definition main_install_step (rest : M (QtConfig.qt_result unit))
  : M (QtConfig.qt_result unit) :=
  r <- install_plugin ;;
  match r with
  | QtConfig.Failed e => ret (QtConfig.Failed e)
  | QtConfig.Ok (Some true) => rest
  | QtConfig.Ok (Some false) => sys_exit 1
  | QtConfig.Ok None => sys_exit 1
  end.

(** ** Properties *)

(** A computation that ends by returning, by blocking in a command or
    with [OSError], and that returns only values in [P]. *)
Definition ends_in {A : Type} (P : A -> Prop) (m : M A) : Prop :=
  forall w o w' l,
    m w = (o, w', l) ->
    (exists a, o = Ret a /\ P a) \/ o = Hang \/ o = Raise OSError.

Lemma ends_in_ret {A : Type} (P : A -> Prop) (a : A) : P a -> ends_in P (ret a).
Proof.
  intros H w o w' l E. unfold ret in E. injection E as <- _ _. left. eauto.
Qed.

Lemma ends_in_bind {A B : Type} (P : A -> Prop) (Q : B -> Prop)
    (m : M A) (k : A -> M B) :
  ends_in P m -> (forall a, P a -> ends_in Q (k a)) -> ends_in Q (bind m k).
Proof.
  intros Hm Hk w o w' l E. apply bind_inv in E.
  destruct E as [(a & w1 & l1 & l2 & E1 & E2 & _) | (o1 & E1 & Hr & ->)].
  - apply Hm in E1. destruct E1 as [(a' & Ha & Hp) | [Ha | Ha]]; try discriminate.
    injection Ha as <-. exact (Hk a Hp _ _ _ _ E2).
  - apply Hm in E1. destruct E1 as [(a' & -> & _) | [-> | ->]];
      [discriminate | auto | auto].
Qed.

Lemma ends_in_weaken {A : Type} (P Q : A -> Prop) (m : M A) :
  (forall a, P a -> Q a) -> ends_in P m -> ends_in Q m.
Proof.
  intros H Hm w o w' l E. apply Hm in E.
  destruct E as [(a & -> & Hp) | [-> | ->]]; eauto.
Qed.

Definition anything {A : Type} (_ : A) : Prop := True.

Lemma ends_in_run_command cmd timeout : ends_in anything (run_command cmd timeout).
Proof.
  intros w o w' l E. apply run_command_spec in E. destruct E as (_ & _ & [-> | [b ->]]).
  - auto.
  - left. exists b. split; [reflexivity | exact I].
Qed.

Lemma ends_in_run_and_drop cmd : ends_in anything (run_and_drop cmd).
Proof.
  unfold run_and_drop. apply (ends_in_bind anything); [apply ends_in_run_command|].
  intros b _. apply ends_in_ret. exact I.
Qed.

Lemma ends_in_exists path : ends_in anything (os_path_exists path).
Proof.
  intros w o w' l E. unfold os_path_exists in E. injection E as <- _ _.
  left. eexists. split; [reflexivity | exact I].
Qed.

Lemma ends_in_makedirs path : ends_in anything (os_makedirs path).
Proof.
  intros w o w' l E. unfold os_makedirs in E.
  destruct (content (fs w path)); [|destruct (writable (fs w path))];
    injection E as <- _ _; auto; left; exists tt; (split; [reflexivity | exact I]).
Qed.

Lemma ends_in_copy_if_exists src dir : ends_in anything (copy_if_exists src dir).
Proof.
  unfold copy_if_exists. apply (ends_in_bind anything); [apply ends_in_exists|].
  intros found _. destruct found; [apply ends_in_run_and_drop|].
  apply ends_in_ret. exact I.
Qed.

Lemma ends_in_cleanup paths : ends_in anything (cleanup paths).
Proof.
  induction paths as [|path rest IH]; cbn [cleanup].
  - apply ends_in_ret. exact I.
  - apply (ends_in_bind anything); [|intros _ _; exact IH].
    intros w o w' l E. unfold catch_all in E.
    destruct (run_and_drop (Argv ("rm" :: "-f" :: glob_glob path)) w)
      as [[o1 w1] l1] eqn:E1.
    apply ends_in_run_and_drop in E1.
    destruct E1 as [(a & -> & _) | [-> | ->]].
    + injection E as <- _ _. left. exists a. split; [reflexivity | exact I].
    + injection E as <- _ _. auto.
    + unfold ret in E. injection E as <- _ _. left. exists tt.
      split; [reflexivity | exact I].
Qed.

Definition is_none (r : option bool) : Prop := r = None.

Lemma install_on_macos_gives_none : ends_in is_none install_on_macos.
Proof.
  unfold install_on_macos.
  apply (ends_in_bind anything); [apply ends_in_cleanup | intros _ _].
  apply (ends_in_bind anything); [apply ends_in_makedirs | intros _ _].
  apply (ends_in_bind anything); [apply ends_in_copy_if_exists | intros _ _].
  apply (ends_in_bind anything); [apply ends_in_copy_if_exists | intros _ _].
  apply (ends_in_bind anything); [apply ends_in_copy_if_exists | intros _ _].
  apply ends_in_ret. reflexivity.
Qed.

Lemma install_on_linux_gives_none : ends_in is_none install_on_linux.
Proof.
  unfold install_on_linux.
  apply (ends_in_bind anything); [apply ends_in_makedirs | intros _ _].
  apply (ends_in_bind anything); [apply ends_in_copy_if_exists | intros _ _].
  apply (ends_in_bind anything); [apply ends_in_copy_if_exists | intros _ _].
  apply (ends_in_bind anything); [apply ends_in_copy_if_exists | intros _ _].
  apply ends_in_ret. reflexivity.
Qed.

(** On macOS and on Linux (on any system but Windows) [install_plugin]
    ends without a [return] and so gives [None]; step 5c of [main]
    reads that as a failure.  Whatever the copies did, the program
    never goes on to the verification, the launch and the test: it exits
    with status 1, unless it blocks in a command or stops on the
    [OSError] of [os.makedirs]. *)
Theorem install_step_never_passes_off_windows
    (rest : M (QtConfig.qt_result unit)) w :
  system platform <> "windows" ->
  exists o w' l,
    main_install_step rest w = (o, w', l)
    /\ (o = Raise (SystemExit 1) \/ o = Hang \/ o = Raise OSError)
    /\ main_install_step (ret (QtConfig.Ok tt)) w = (o, w', l).
Proof.
  intros Hs. apply String.eqb_neq in Hs.
  assert (Hi : ends_in (fun r => r = QtConfig.Ok None) install_plugin).
  { unfold install_plugin. rewrite Hs.
    destruct (String.eqb (system platform) "darwin").
    - apply (ends_in_bind is_none); [apply install_on_macos_gives_none|].
      intros r ->. apply ends_in_ret. reflexivity.
    - apply (ends_in_bind is_none); [apply install_on_linux_gives_none|].
      intros r ->. apply ends_in_ret. reflexivity. }
  unfold main_install_step.
  destruct (install_plugin w) as [[o1 w1] l1] eqn:E.
  pose proof (Hi _ _ _ _ E) as [(r & -> & ->) | [-> | ->]].
  - rewrite !(bind_run _ _ _ _ _ _ E). do 3 eexists.
    split; [reflexivity|]. split; [auto | reflexivity].
  - rewrite !(bind_stop _ _ _ _ _ _ E eq_refl). do 3 eexists.
    split; [reflexivity|]. split; [auto | reflexivity].
  - rewrite !(bind_stop _ _ _ _ _ _ E eq_refl). do 3 eexists.
    split; [reflexivity|]. split; [auto | reflexivity].
Qed.


(** The three files that the Windows branch copies. *)
Definition windows_artifacts : list string :=
  [os_path_join current_dir
     ["build_windows"; "lib"; "qtcreator"; "plugins"; "Release";
      "Qt_MCP_Plugin.dll"];
   os_path_join current_dir ["build_windows"; "Qt_MCP_Plugin.json"];
   os_path_join current_dir ["build_windows"; "Qt_MCP_Plugin_discovery.json"]].

(** The first child of the world exits with code 0 and the children
    after it are [rest]. *)
Definition first_child_succeeds (w : World) (rest : list (option child)) : Prop :=
  exists c d, children w = Some c :: rest /\ finish c = Some (d, 0).

Lemma xcopy_step_true src dir success w w' l :
  xcopy_step src dir success w = (Ret true, w', l) ->
  success = true /\ content (fs w src) <> None
  /\ first_child_succeeds w (children w')
  /\ fs w' = fs w /\ proc_table w' = proc_table w.
Proof.
  unfold xcopy_step. intros H. apply bind_ret_inv in H.
  destruct H as (found & w1 & l1 & l2 & E1 & H & _).
  unfold os_path_exists in E1. injection E1 as <- <- _.
  destruct (content (fs w src)) eqn:Ec; [|discriminate].
  apply bind_ret_inv in H. destruct H as (copied & w2 & l3 & l4 & E2 & H & _).
  destruct copied; [|discriminate]. unfold ret in H. injection H as -> -> _.
  split; [reflexivity|]. split; [discriminate|].
  pose proof (run_command_children _ _ _ _ _ _ E2) as Hc.
  pose proof (run_command_frame _ _ _ _ _ _ E2) as (Hp & _ & Hf).
  apply run_command_true_inv in E2. destruct E2 as (c & rest & d & Hw & Hd).
  rewrite Hw in Hc. cbn [tl] in Hc.
  split; [exists c, d; rewrite Hc; auto|]. auto.
Qed.

(** On Windows [install_plugin] answers [True] only when each of the
    three files to be copied exists and each of the three xcopy commands
    was started and exited with code 0. *)
Theorem install_plugin_on_windows_needs_three_copies w w' l :
  system platform = "windows" ->
  install_plugin w = (Ret (QtConfig.Ok (Some true)), w', l) ->
  Forall (fun path => content (fs w' path) <> None) windows_artifacts
  /\ exists c1 c2 c3 d1 d2 d3,
       children w = Some c1 :: Some c2 :: Some c3 :: children w'
       /\ finish c1 = Some (d1, 0) /\ finish c2 = Some (d2, 0)
       /\ finish c3 = Some (d3, 0).
Proof.
  intros Hs H. unfold install_plugin in H. rewrite Hs in H.
  cbn [String.eqb Ascii.eqb Bool.eqb] in H.
  unfold install_on_windows in H. cbv zeta in H.
  apply bind_ret_inv in H. destruct H as (u & w1 & l1 & l2 & E1 & H & _).
  apply os_makedirs_frame in E1. destruct E1 as (Hc1 & _ & _).
  apply bind_ret_inv in H. destruct H as (r & w2 & l3 & l4 & E2 & H & _).
  destruct (QtConfigFacts.get_windeployqt_path_spec platform hostname w1)
    as (r' & w2' & E2' & (_ & Hc2 & _ & Hf2) & _).
  rewrite E2' in E2. injection E2 as -> -> _.
  destruct r as [path|[|]]; [|discriminate H|discriminate H].
  apply bind_ret_inv in H. destruct H as (s1 & w3 & l5 & l6 & E3 & H & _).
  apply bind_ret_inv in H. destruct H as (s2 & w4 & l7 & l8 & E4 & H & _).
  apply bind_ret_inv in H. destruct H as (s3 & w5 & l9 & l10 & E5 & H & _).
  unfold ret in H. injection H as -> -> _.
  apply xcopy_step_true in E5.
  destruct E5 as (-> & X3 & (c3 & d3 & K3 & F3) & Hf5 & _).
  apply xcopy_step_true in E4.
  destruct E4 as (-> & X2 & (c2 & d2 & K2 & F2) & Hf4 & _).
  apply xcopy_step_true in E3.
  destruct E3 as (_ & X1 & (c1 & d1 & K1 & F1) & Hf3 & _).
  split.
  - rewrite Hf4, Hf3 in X3. rewrite Hf3 in X2.
    unfold windows_artifacts. rewrite Hf5, Hf4, Hf3.
    repeat constructor; assumption.
  - exists c1, c2, c3, d1, d2, d3.
    rewrite <- Hc1, <- Hc2, K1, K2, K3. auto.
Qed.

End Installation.

(** ** Concrete installations *)

(** A join with one separator, for the concrete runs. *)
Definition join_with (sep : string) (first : string) (parts : list string) : string :=
  fold_left (fun path part => path ++ sep ++ part) parts first.

Definition directory : file := mkFile (Some EmptyString) true true.

(** A Linux machine on which the plugin directory can be written and the
    three built files exist; every copy succeeds. *)
Definition world_linux_install : World :=
  set_children [quick_child 0; quick_child 0; quick_child 0]
    (with_file "/usr/lib/qtcreator/plugins" directory
       (with_file "build/lib/qtcreator/plugins/libQt_MCP_Plugin.so" directory
          (with_file "build/Qt_MCP_Plugin.json" directory
             (with_file "build/Qt_MCP_Plugin_discovery.json" directory world0)))).

Example linux_install_copies_and_exits :
  fst (fst (main_install_step "Linux" "box" "/home/u" "/src" (fun _ => [])
              (join_with "/") (ret (QtConfig.Ok tt)) world_linux_install))
  = Raise (SystemExit 1)
  /\ children (snd (fst (main_install_step "Linux" "box" "/home/u" "/src"
                           (fun _ => []) (join_with "/") (ret (QtConfig.Ok tt))
                           world_linux_install)))
     = [].
Proof. split; vm_compute; reflexivity. Qed.

Lemma install_step_never_passes_off_windows_witness :
  exists o w' l,
    main_install_step "Linux" "box" "/home/u" "/src" (fun _ => [])
      (join_with "/") (ret (QtConfig.Ok tt)) world_linux_install = (o, w', l)
    /\ (o = Raise (SystemExit 1) \/ o = Hang \/ o = Raise OSError)
    /\ main_install_step "Linux" "box" "/home/u" "/src" (fun _ => [])
         (join_with "/") (ret (QtConfig.Ok tt)) world_linux_install = (o, w', l).
Proof.
  apply (install_step_never_passes_off_windows "Linux" "box" "/home/u" "/src"
           (fun _ => []) (join_with "/") (ret (QtConfig.Ok tt))
           world_linux_install).
  vm_compute. discriminate.
Defined.

Definition qtdiag_run : option completed_process :=
  Some (mkCompleted 0
          ("Qt 6.9.2 (x86_64-little_endian-llp64 shared (dynamic) release build)"
           ++ nl)).

Definition backslash_text : string := String PyStr.backslash EmptyString.

(** A Windows machine with Qt Creator in its standard place, the three
    built files present, qtdiag answering and every copy succeeding. *)
Definition world_windows_install : World :=
  set_proc_table [qtdiag_run; qtdiag_run]
    (set_children [quick_child 0; quick_child 0; quick_child 0]
       (with_file "C:/Qt/Tools/QtCreator/bin/qtcreator.exe" directory
          (with_file "C:/Qt/Tools/QtCreator/lib" directory
             (with_file
                (join_with backslash_text "C:"
                   ["src"; "build_windows"; "lib"; "qtcreator"; "plugins";
                    "Release"; "Qt_MCP_Plugin.dll"]) directory
                (with_file
                   (join_with backslash_text "C:"
                      ["src"; "build_windows"; "Qt_MCP_Plugin.json"]) directory
                   (with_file
                      (join_with backslash_text "C:"
                         ["src"; "build_windows"; "Qt_MCP_Plugin_discovery.json"])
                      directory
                      (with_file
                         "C:/Users/u/Developer/Qt/Tools/QtCreator/lib/qtcreator/plugins"
                         (mkFile None false true) world0))))))).

Definition windows_run :=
  install_plugin "Windows" "box" "C:/Users/u"
    (join_with backslash_text "C:" ["src"]) (fun _ => [])
    (join_with backslash_text) world_windows_install.

Example windows_install_succeeds :
  fst (fst windows_run) = Ret (QtConfig.Ok (Some true)).
Proof. vm_compute. reflexivity. Qed.

Lemma install_plugin_on_windows_needs_three_copies_witness :
  Forall (fun path => content (fs (snd (fst windows_run)) path) <> None)
    (windows_artifacts (join_with backslash_text "C:" ["src"])
       (join_with backslash_text))
  /\ exists c1 c2 c3 d1 d2 d3,
       children world_windows_install
       = Some c1 :: Some c2 :: Some c3 :: children (snd (fst windows_run))
       /\ finish c1 = Some (d1, 0) /\ finish c2 = Some (d2, 0)
       /\ finish c3 = Some (d3, 0).
Proof.
  apply (install_plugin_on_windows_needs_three_copies "Windows" "box" "C:/Users/u"
           (join_with backslash_text "C:" ["src"]) (fun _ => [])
           (join_with backslash_text) world_windows_install
           (snd (fst windows_run)) (snd windows_run)).
  - reflexivity.
  - vm_compute. reflexivity.
Defined.

(* ================================================================== *)
(** * clean_old_plugins *)

Definition exists_in (w : World) (path : string) : bool :=
  match content (fs w path) with
  | Some _ => true
  | None => false
  end.

(** [os.remove]: a path that does not exist, or that the world does not
    let one write, raises [OSError]. *)
Definition os_remove (path : string) : M unit :=
  fun w =>
    match content (fs w path) with
    | None => (Raise OSError, w, [])
    | Some _ =>
        if writable (fs w path)
        then (Ret tt,
              set_fs (fun p => if String.eqb p path
                               then mkFile None false true
                               else fs w p) w,
              [])
        else (Raise OSError, w, [])
    end.

Section Cleaning.

(** [platform.system()], [os.path.expanduser] of the home directory,
    [os.path.join], and the names that match a pattern of [glob.glob]
    (of which [glob.glob] gives those that exist). *)
Variable platform : string.
Variable home_dir : string.
Variable os_path_join : string -> list string -> string.
Variable matching : string -> list string.

Definition glob_glob (pattern : string) : M (list string) :=
  fun w => (Ret (filter (exists_in w) (matching pattern)), w, []).

(** The first loop of the Windows branch: [true] when the loop ends,
    [false] when the function returns [False] inside it. *)
Fixpoint delete_each (plugin_dir : string) (plugin_files : list string) : M bool :=
  match plugin_files with
  | [] => ret true
  | plugin_file :: rest =>
      let plugin_path := os_path_join plugin_dir [plugin_file] in
      found <- os_path_exists plugin_path ;;
      deleted <-
        (if found then
           catch
             (os_remove plugin_path ;;;
              still <- os_path_exists plugin_path ;;
              if still then ret false else ret true)
             (fun _ => ret false)
         else ret true) ;;
      if deleted then delete_each plugin_dir rest else ret false
  end.

(** The second loop: all the files are gone. *)
Fixpoint verify_deleted (plugin_dir : string) (plugin_files : list string) : M bool :=
  match plugin_files with
  | [] => ret true
  | plugin_file :: rest =>
      found <- os_path_exists (os_path_join plugin_dir [plugin_file]) ;;
      if found then ret false else verify_deleted plugin_dir rest
  end.

Fixpoint remove_all (paths : list string) : M unit :=
  match paths with
  | [] => ret tt
  | plugin_path :: rest => os_remove plugin_path ;;; remove_all rest
  end.

(** The loop of the other systems over the patterns. *)
Fixpoint remove_matching (app_bundle_dir : string) (patterns : list string) : M bool :=
  match patterns with
  | [] => ret true
  | plugin_pattern :: rest =>
      removed <-
        catch
          (paths <- glob_glob (os_path_join app_bundle_dir [plugin_pattern]) ;;
           remove_all paths ;;;
           ret true)
          (fun _ => ret false) ;;
      if removed then remove_matching app_bundle_dir rest else ret false
  end.

Definition windows_plugin_files : list string :=
  ["Qt_MCP_Plugin.dll"; "Qt_MCP_Plugin.json"].

Definition app_bundle_dir : string :=
  if String.eqb (system platform) "darwin"
  then home_dir ++ "/Developer/Qt/Qt Creator.app/Contents/PlugIns/qtcreator"
  else "/usr/lib/qtcreator/plugins".

Definition unix_plugin_files : list string :=
  [(if String.eqb (system platform) "darwin"
    then "libQt_MCP_Plugin*.dylib" else "libQt_MCP_Plugin*.so");
   "Qt_MCP_Plugin.json"].

(** [clean_old_plugins(config)]; of [config] only [qt_creator_path] is
    read. *)
Definition clean_old_plugins (qt_creator_path : string) : M bool :=
  if String.eqb (system platform) "windows" then
    let plugin_dir := os_path_join qt_creator_path ["qtcreator"; "plugins"] in
    deleted <- delete_each plugin_dir windows_plugin_files ;;
    if deleted then verify_deleted plugin_dir windows_plugin_files
    else ret false
  else remove_matching app_bundle_dir unix_plugin_files.

(** The paths that [clean_old_plugins] is to remove. *)
Definition old_plugins (qt_creator_path : string) : list string :=
  if String.eqb (system platform) "windows" then
    map (fun plugin_file =>
           os_path_join (os_path_join qt_creator_path ["qtcreator"; "plugins"])
             [plugin_file])
      windows_plugin_files
  else
    flat_map (fun plugin_pattern =>
                matching (os_path_join app_bundle_dir [plugin_pattern]))
      unix_plugin_files.

(** ** Properties *)

(** From [w] to [w'] files are only removed, and only among [paths]. *)
Definition only_removes (paths : list string) (w w' : World) : Prop :=
  (forall p, ~ In p paths -> fs w' p = fs w p)
  /\ (forall p, content (fs w p) = None -> content (fs w' p) = None)
  /\ clock w' = clock w.

Lemma only_removes_refl paths w : only_removes paths w w.
Proof. repeat split; auto. Qed.

Lemma only_removes_trans paths w1 w2 w3 :
  only_removes paths w1 w2 -> only_removes paths w2 w3 ->
  only_removes paths w1 w3.
Proof.
  intros (A1 & A2 & A3) (B1 & B2 & B3). repeat split.
  - intros p Hp. rewrite (B1 p Hp). exact (A1 p Hp).
  - intros p Hp. exact (B2 p (A2 p Hp)).
  - congruence.
Qed.

Lemma only_removes_more paths paths' w w' :
  (forall p, In p paths -> In p paths') ->
  only_removes paths w w' -> only_removes paths' w w'.
Proof.
  intros Hi (A1 & A2 & A3). split; [|split; assumption].
  intros p Hp. apply A1. intros H. apply Hp. exact (Hi p H).
Qed.

Lemma os_remove_spec path w o w' l :
  os_remove path w = (o, w', l) ->
  l = [] /\ only_removes [path] w w'
  /\ ((o = Ret tt /\ content (fs w' path) = None) \/ o = Raise OSError).
Proof.
  unfold os_remove.
  destruct (content (fs w path)) eqn:Ec;
    [destruct (writable (fs w path))|];
    intros H; injection H as <- <- <-;
    (split; [reflexivity|]);
    try (split; [apply only_removes_refl | right; reflexivity]).
  split.
  - repeat split.
    + intros p Hp. cbn [fs set_fs].
      destruct (String.eqb_spec p path) as [->|Hn]; [|reflexivity].
      exfalso. apply Hp. left. reflexivity.
    + intros p Hp. cbn [fs set_fs].
      destruct (String.eqb p path); [reflexivity | exact Hp].
  - left. split; [reflexivity|]. cbn [fs set_fs]. rewrite String.eqb_refl.
    reflexivity.
Qed.

Lemma os_path_exists_eq path w :
  os_path_exists path w = (Ret (exists_in w path), w, []).
Proof. reflexivity. Qed.

Lemma exists_in_false w path :
  exists_in w path = false -> content (fs w path) = None.
Proof. unfold exists_in. destruct (content (fs w path)); [discriminate | reflexivity]. Qed.

(** The [try] of the first loop. *)
Lemma try_delete_spec path w :
  exists b w',
    catch
      (os_remove path ;;;
       still <- os_path_exists path ;;
       if still then ret false else ret true)
      (fun _ => ret false) w
    = (Ret b, w', [])
    /\ only_removes [path] w w'.
Proof.
  unfold catch.
  destruct (os_remove path w) as [[o1 w1] l1] eqn:E1.
  pose proof (os_remove_spec _ _ _ _ _ E1) as (-> & Hr & Ho).
  destruct Ho as [[-> Hgone] | ->].
  - rewrite (bind_run _ _ _ _ _ _ E1).
    rewrite (bind_run _ _ _ _ _ _ (os_path_exists_eq path w1)).
    unfold exists_in. rewrite Hgone. cbn [ret app]. eauto.
  - rewrite (bind_stop _ _ _ _ _ _ E1 eq_refl). cbn [propagate is_exception ret app].
    eauto.
Qed.

Lemma delete_each_spec plugin_dir plugin_files : forall w,
  exists b w',
    delete_each plugin_dir plugin_files w = (Ret b, w', [])
    /\ only_removes
         (map (fun f => os_path_join plugin_dir [f]) plugin_files) w w'.
Proof.
  induction plugin_files as [|f rest IH]; intros w; cbn [delete_each map].
  - exists true, w. split; [reflexivity | apply only_removes_refl].
  - cbv zeta.
    rewrite (bind_run _ _ _ _ _ _ (os_path_exists_eq (os_path_join plugin_dir [f]) w)).
    destruct (exists_in w (os_path_join plugin_dir [f])).
    + destruct (try_delete_spec (os_path_join plugin_dir [f]) w)
        as (d & w1 & E1 & Hr).
      rewrite (bind_run _ _ _ _ _ _ E1).
      assert (Hr' : only_removes
                      (os_path_join plugin_dir [f]
                       :: map (fun f0 => os_path_join plugin_dir [f0]) rest) w w1).
      { apply (only_removes_more [os_path_join plugin_dir [f]]); [|exact Hr].
        intros p [<- | []]. left. reflexivity. }
      destruct d.
      * destruct (IH w1) as (b & w2 & E2 & Hr2). rewrite E2.
        exists b, w2. split; [reflexivity|].
        apply (only_removes_trans _ w w1 w2); [exact Hr'|].
        apply (only_removes_more
                 (map (fun f0 => os_path_join plugin_dir [f0]) rest));
          [|exact Hr2].
        intros p Hp. right. exact Hp.
      * exists false, w1. split; [reflexivity | exact Hr'].
    + rewrite (bind_run _ _ _ _ _ _ (eq_refl : ret true w = (Ret true, w, []))).
      destruct (IH w) as (b & w2 & E2 & Hr2). rewrite E2.
      exists b, w2. split; [reflexivity|].
      apply (only_removes_more
               (map (fun f0 => os_path_join plugin_dir [f0]) rest));
        [|exact Hr2].
      intros p Hp. right. exact Hp.
Qed.

Lemma verify_deleted_spec plugin_dir plugin_files w :
  exists b,
    verify_deleted plugin_dir plugin_files w = (Ret b, w, [])
    /\ (b = true ->
        forall f, In f plugin_files ->
                  content (fs w (os_path_join plugin_dir [f])) = None).
Proof.
  induction plugin_files as [|f rest IH]; cbn [verify_deleted].
  - exists true. split; [reflexivity|]. intros _ f [].
  - unfold bind, os_path_exists.
    destruct (content (fs w (os_path_join plugin_dir [f]))) eqn:Ec.
    + exists false. split; [reflexivity | discriminate].
    + destruct IH as (b & E & Hb). rewrite E. exists b.
      split; [reflexivity|]. intros Ht f0 [<- | Hin]; [exact Ec | exact (Hb Ht f0 Hin)].
Qed.

Lemma remove_all_spec paths : forall w o w' l,
  remove_all paths w = (o, w', l) ->
  l = [] /\ only_removes paths w w'
  /\ ((o = Ret tt /\ forall p, In p paths -> content (fs w' p) = None)
      \/ o = Raise OSError).
Proof.
  induction paths as [|path rest IH]; intros w o w' l H; cbn [remove_all] in H.
  - unfold ret in H. injection H as <- <- <-.
    split; [reflexivity|]. split; [apply only_removes_refl|].
    left. split; [reflexivity|]. intros p [].
  - apply bind_inv in H.
    destruct H as [(u & w1 & l1 & l2 & E1 & E2 & ->) | (o1 & E1 & Hr & ->)].
    + apply os_remove_spec in E1. destruct E1 as (-> & Hr1 & Ho1).
      destruct Ho1 as [[_ Hgone] | Ho1]; [|discriminate].
      apply IH in E2. destruct E2 as (-> & Hr2 & Ho2).
      split; [reflexivity|]. split.
      * apply (only_removes_trans _ w w1 w').
        -- apply (only_removes_more [path]); [|exact Hr1].
           intros p [<- | []]. left. reflexivity.
        -- apply (only_removes_more rest); [|exact Hr2].
           intros p Hp. right. exact Hp.
      * destruct Ho2 as [[-> Hall] | ->]; [|right; reflexivity].
        left. split; [reflexivity|]. intros p [<- | Hin].
        -- destruct Hr2 as (_ & Hmono & _). exact (Hmono _ Hgone).
        -- exact (Hall p Hin).
    + apply os_remove_spec in E1. destruct E1 as (-> & Hr1 & Ho1).
      split; [reflexivity|]. split.
      * apply (only_removes_more [path]); [|exact Hr1].
        intros p [<- | []]. left. reflexivity.
      * destruct Ho1 as [[-> _] | ->]; [discriminate | right; reflexivity].
Qed.

(** The [try] of the loop over the patterns. *)
Lemma try_remove_spec pattern w :
  exists b w',
    catch
      (paths <- glob_glob pattern ;;
       remove_all paths ;;;
       ret true)
      (fun _ => ret false) w
    = (Ret b, w', [])
    /\ only_removes (matching pattern) w w'
    /\ (b = true -> forall p, In p (matching pattern) -> content (fs w' p) = None).
Proof.
  unfold catch.
  rewrite (bind_run _ _ _ _ _ _
             (eq_refl : glob_glob pattern w
                        = (Ret (filter (exists_in w) (matching pattern)), w, []))).
  destruct (remove_all (filter (exists_in w) (matching pattern)) w)
    as [[o1 w1] l1] eqn:E1.
  pose proof (remove_all_spec _ _ _ _ _ E1) as (-> & Hr1 & Ho1).
  assert (Hr1' : only_removes (matching pattern) w w1).
  { apply (only_removes_more (filter (exists_in w) (matching pattern)));
      [|exact Hr1].
    intros p Hp. apply filter_In in Hp. exact (proj1 Hp). }
  destruct Ho1 as [[-> Hall] | ->].
  - rewrite (bind_run _ _ _ _ _ _ E1). cbn [ret app].
    exists true, w1. split; [reflexivity|]. split; [exact Hr1'|].
    intros _ p Hp. destruct (exists_in w p) eqn:Ee.
    + apply Hall. apply filter_In. split; assumption.
    + destruct Hr1 as (_ & Hmono & _). apply Hmono.
      exact (exists_in_false _ _ Ee).
  - rewrite (bind_stop _ _ _ _ _ _ E1 eq_refl). cbn [propagate is_exception ret app].
    exists false, w1. split; [reflexivity|]. split; [exact Hr1' | discriminate].
Qed.

Lemma remove_matching_spec dir patterns : forall w,
  exists b w',
    remove_matching dir patterns w = (Ret b, w', [])
    /\ only_removes
         (flat_map (fun pat => matching (os_path_join dir [pat])) patterns) w w'
    /\ (b = true ->
        forall pat p, In pat patterns -> In p (matching (os_path_join dir [pat])) ->
                      content (fs w' p) = None).
Proof.
  induction patterns as [|pat rest IH]; intros w; cbn [remove_matching flat_map].
  - exists true, w. split; [reflexivity|]. split; [apply only_removes_refl|].
    intros _ pat p [].
  - destruct (try_remove_spec (os_path_join dir [pat]) w)
      as (d & w1 & E1 & Hr1 & Hd).
    rewrite (bind_run _ _ _ _ _ _ E1).
    assert (Hr1' : only_removes
                     (matching (os_path_join dir [pat])
                      ++ flat_map (fun pat0 => matching (os_path_join dir [pat0]))
                           rest) w w1).
    { apply (only_removes_more (matching (os_path_join dir [pat]))); [|exact Hr1].
      intros p Hp. apply in_or_app. left. exact Hp. }
    destruct d.
    + destruct (IH w1) as (b & w2 & E2 & Hr2 & Hb). rewrite E2.
      exists b, w2. split; [reflexivity|]. split.
      * apply (only_removes_trans _ w w1 w2); [exact Hr1'|].
        apply (only_removes_more
                 (flat_map (fun pat0 => matching (os_path_join dir [pat0])) rest));
          [|exact Hr2].
        intros p Hp. apply in_or_app. right. exact Hp.
      * intros Ht pat0 p [<- | Hin] Hp; [|exact (Hb Ht pat0 p Hin Hp)].
        destruct Hr2 as (_ & Hmono & _). apply Hmono. exact (Hd eq_refl p Hp).
    + exists false, w1. split; [reflexivity|]. split; [exact Hr1' | discriminate].
Qed.

(** [clean_old_plugins] never raises and takes no time.  Files are only
    removed, and only among the old plugin files (on Windows the DLL and
    the JSON file of the plugin directory, elsewhere the names that
    match the two patterns in the application's plugin directory).  When
    it answers [True], none of them is left. *)
Theorem clean_old_plugins_leaves_no_old_plugin qt_creator_path w :
  exists b w',
    clean_old_plugins qt_creator_path w = (Ret b, w', [])
    /\ only_removes (old_plugins qt_creator_path) w w'
    /\ (b = true ->
        forall p, In p (old_plugins qt_creator_path) -> content (fs w' p) = None).
Proof.
  unfold clean_old_plugins, old_plugins.
  destruct (String.eqb (system platform) "windows").
  - cbv zeta.
    destruct (delete_each_spec (os_path_join qt_creator_path ["qtcreator"; "plugins"])
                windows_plugin_files w) as (b & w1 & E1 & Hr1).
    rewrite (bind_run _ _ _ _ _ _ E1). destruct b.
    + destruct (verify_deleted_spec
                  (os_path_join qt_creator_path ["qtcreator"; "plugins"])
                  windows_plugin_files w1) as (b & E2 & Hb).
      rewrite E2. exists b, w1. split; [reflexivity|]. split; [exact Hr1|].
      intros Ht p Hp. apply in_map_iff in Hp. destruct Hp as (f & <- & Hf).
      exact (Hb Ht f Hf).
    + exists false, w1. split; [reflexivity|]. split; [exact Hr1 | discriminate].
  - destruct (remove_matching_spec app_bundle_dir unix_plugin_files w)
      as (b & w1 & E1 & Hr1 & Hb).
    exists b, w1. split; [exact E1|]. split; [exact Hr1|].
    intros Ht p Hp. apply in_flat_map in Hp. destruct Hp as (pat & Hpat & Hp).
    exact (Hb Ht pat p Hpat Hp).
Qed.

End Cleaning.

(** ** Concrete cleaning *)

Definition linux_plugin_dir : string := "/usr/lib/qtcreator/plugins".

(** The names that match the patterns of the Linux branch on a machine
    with two installed versions of the plugin. *)
Definition linux_matching (pattern : string) : list string :=
  if String.eqb pattern (linux_plugin_dir ++ "/libQt_MCP_Plugin*.so")
  then [linux_plugin_dir ++ "/libQt_MCP_Plugin.so";
        linux_plugin_dir ++ "/libQt_MCP_Plugin_old.so"]
  else [pattern].

Definition plain_file : file := mkFile (Some "x") true true.

Definition world_old_plugins : World :=
  with_file (linux_plugin_dir ++ "/libQt_MCP_Plugin.so") plain_file
    (with_file (linux_plugin_dir ++ "/Qt_MCP_Plugin.json") plain_file world0).

Example linux_cleaning_removes_the_plugin :
  let run := clean_old_plugins "Linux" "/home/u" (join_with "/") linux_matching
               "/opt/qtcreator" world_old_plugins in
  fst (fst run) = Ret true
  /\ content (fs (snd (fst run)) (linux_plugin_dir ++ "/libQt_MCP_Plugin.so")) = None
  /\ content (fs (snd (fst run)) (linux_plugin_dir ++ "/Qt_MCP_Plugin.json")) = None.
Proof. repeat split; vm_compute; reflexivity. Qed.

(** A plugin file that cannot be removed. *)
Example locked_plugin_fails_cleaning :
  fst (fst (clean_old_plugins "Linux" "/home/u" (join_with "/") linux_matching
              "/opt/qtcreator"
              (with_file (linux_plugin_dir ++ "/Qt_MCP_Plugin.json")
                 (mkFile (Some "x") true false) world0)))
  = Ret false.
Proof. vm_compute. reflexivity. Qed.

(* ================================================================== *)
(** * The first lines of main: the configuration *)

Section ConfigStep.

Variable platform : string.
Variable hostname : string.

(** [main] up to step 1: the configuration is fetched, a [RuntimeError]
    ends the program with status 1, and the library directory of Qt
    Creator is looked for once more; [rest] is the program from step 1
    on.  A [KeyError] is not caught here. *)
Definition main_configuration (rest : QtConfig.Config -> M (QtConfig.qt_result unit))
  : M (QtConfig.qt_result unit) :=
  r <- QtConfig.get_qt_config platform hostname ;;
  match r with
  | QtConfig.Failed QtConfig.RuntimeError => sys_exit 1
  | QtConfig.Failed QtConfig.KeyError => ret (QtConfig.Failed QtConfig.KeyError)
  | QtConfig.Ok config =>
      found <- os_path_exists (QtConfig.qt_creator_path config) ;;
      if negb found then sys_exit 1 else rest config
  end.

(** The test of [config["qt_creator_path"]] in [main] can never fail:
    [get_qt_config] has made it already and raised if the directory was
    missing.  So whenever [get_qt_config] gives a configuration the
    program goes on to step 1; on its [RuntimeError] it exits with status
    1; on its [KeyError] (a system that is none of Windows, macOS and
    Linux) the exception leaves [main]. *)
Theorem main_path_check_never_fails rest w :
  exists r w1,
    QtConfig.get_qt_config platform hostname w = (Ret r, w1, [])
    /\ main_configuration rest w
       = match r with
         | QtConfig.Ok config => rest config w1
         | QtConfig.Failed QtConfig.RuntimeError => (Raise (SystemExit 1), w1, [])
         | QtConfig.Failed QtConfig.KeyError =>
             (Ret (QtConfig.Failed QtConfig.KeyError), w1, [])
         end.
Proof.
  unfold main_configuration.
  destruct (QtConfigFacts.get_qt_config_spec platform hostname w)
    as (r & w1 & E & (_ & _ & _ & Hf) & Hok & _).
  exists r, w1. split; [exact E|].
  rewrite (bind_run _ _ _ _ _ _ E).
  destruct r as [config|[|]]; try reflexivity.
  destruct (Hok config eq_refl) as (_ & _ & Hlib & _).
  assert (Ee : os_path_exists (QtConfig.qt_creator_path config) w1
               = (Ret true, w1, [])).
  { unfold os_path_exists. rewrite Hf.
    destruct (content (fs w (QtConfig.qt_creator_path config)));
      [reflexivity | congruence]. }
  rewrite (bind_run _ _ _ _ _ _ Ee). cbn [negb app].
  destruct (rest config w1) as [[o w2] l]. reflexivity.
Qed.

End ConfigStep.

(** ** Step 1 of main *)

(** Qt Creator is not running. *)
Definition world_idle : World := set_proc_table [not_listed; not_listed] world0.

Example idle_machine_goes_on :
  main_ensure_stopped "Linux" linux_config (ret tt) world_idle
  = (Ret tt, world0,
     [EvLiveness "qtcreator" false; EvLiveness "qtcreator" false]).
Proof. vm_compute. reflexivity. Qed.

(** Qt Creator is running and the configured kill command ends it. *)
Example running_machine_is_stopped_first :
  main_ensure_stopped "Linux" linux_config (ret tt)
    (set_proc_table [listed; not_listed; not_listed; not_listed]
       (set_children [quick_child 0] world0))
  = (Ret tt, set_clock 1011 world0,
     [EvLiveness "qtcreator" true; EvSleep 10;
      EvKillResult ConfiguredKill true; EvSleep 1000;
      EvLiveness "qtcreator" false; EvLiveness "qtcreator" false;
      EvLiveness "qtcreator" false]).
Proof. vm_compute. reflexivity. Qed.

Lemma build_starts_only_after_negative_liveness_check_witness :
  (exists w1 l1 l2,
      ret tt w1
      = (fst (fst (main_ensure_stopped "Linux" linux_config (ret tt) world_idle)),
         snd (fst (main_ensure_stopped "Linux" linux_config (ret tt) world_idle)),
         l2)
      /\ snd (main_ensure_stopped "Linux" linux_config (ret tt) world_idle)
         = (l1 ++ l2)%list
      /\ ends_with_negative_check "qtcreator" l1)
  \/ fst (fst (main_ensure_stopped "Linux" linux_config (ret tt) world_idle))
     = Raise (SystemExit 1)
  \/ fst (fst (main_ensure_stopped "Linux" linux_config (ret tt) world_idle)) = Hang
  \/ (on_windows "Linux" = false
      /\ fst (fst (main_ensure_stopped "Linux" linux_config (ret tt) world_idle))
         = Raise AttributeError).
Proof.
  apply (build_starts_only_after_negative_liveness_check "Linux" linux_config
           (ret tt) world_idle).
  vm_compute. reflexivity.
Defined.
